(** * Turn scheduling and context locking of the podcast conversation server

    A shallow embedding of [src/server/services/ConversationService.ts] and
    of the parts of [src/server/services/AIService.ts] it calls, followed by
    the properties of the turn scheduler, the post lock, the history ledger
    and the fallback path of the generation backend.

    The service is asynchronous JavaScript: an [async] method runs until its
    next [await], and other handlers may run before it is resumed.  Each
    method is therefore cut at its [await]s into synchronous segments; a
    suspended call is a task in a pool, and an event either starts a public
    method or resumes one task with the answer of the call it awaits. *)

From Stdlib Require Import ZArith NArith Bool Ascii String DecimalString Lia.
From stdpp Require Import list.

Local Open Scope Z_scope.

(* ===================================================================== *)
(** ** JavaScript strings *)
(* ===================================================================== *)

Module JsString.

(** A JavaScript string is a sequence of UTF-16 code units. *)
Definition jsstring := list N.

(** An ASCII literal of the source. *)
Definition js (s : string) : jsstring :=
  map N_of_ascii (list_ascii_of_string s).

Definition dquote : N := 34%N.
Definition newline : N := 10%N.

Definition jsstring_eqb (a b : jsstring) : bool :=
  bool_decide (a = b).

(** [\s] of regular expressions and the characters removed by
    [String.prototype.trim]: WhiteSpace and LineTerminator. *)
Definition isWhiteSpace (c : N) : bool :=
  ((9 <=? c) && (c <=? 13) || (c =? 32) || (c =? 160) || (c =? 5760)
   || (8192 <=? c) && (c <=? 8202) || (c =? 8232) || (c =? 8233)
   || (c =? 8239) || (c =? 8287) || (c =? 12288) || (c =? 65279))%N.

Fixpoint trimStart (s : jsstring) : jsstring :=
  match s with
  | [] => []
  | c :: r => if isWhiteSpace c then trimStart r else s
  end.

Definition trimEnd (s : jsstring) : jsstring :=
  rev (trimStart (rev s)).

Definition trim (s : jsstring) : jsstring := trimEnd (trimStart s).

(** Canonicalisation of the [i] flag (without [u]) on the ASCII range:
    a code unit of 128 or more is never identified with an ASCII one, so
    against an ASCII pattern only the two cases of a letter match. *)
Definition upperAscii (c : N) : N :=
  if ((97 <=? c) && (c <=? 122))%N then (c - 32)%N else c.

Definition unitEq (ci : bool) (a b : N) : bool :=
  if ci then (upperAscii a =? upperAscii b)%N else (a =? b)%N.

(** Does the literal [pat] match at the start of [s]? *)
Fixpoint startsWith (ci : bool) (pat s : jsstring) : bool :=
  match pat, s with
  | [], _ => true
  | _ :: _, [] => false
  | p :: pat', c :: s' => unitEq ci p c && startsWith ci pat' s'
  end.

(** [s.replace(/pat/g, '')] for a literal, non-empty pattern: matches are
    taken left to right and do not overlap.  [skip] counts the code units
    of the current match still to be dropped. *)
Fixpoint removeAllFrom (ci : bool) (pat : jsstring) (skip : nat)
         (s : jsstring) : jsstring :=
  match s with
  | [] => []
  | c :: r =>
      match skip with
      | S k => removeAllFrom ci pat k r
      | O =>
          if startsWith ci pat s
          then removeAllFrom ci pat (Nat.pred (length pat)) r
          else c :: removeAllFrom ci pat O r
      end
  end.

Definition removeAll (ci : bool) (pat s : jsstring) : jsstring :=
  removeAllFrom ci pat O s.

(** Index of the first occurrence of [pat] in [s]. *)
Fixpoint indexOf (pat s : jsstring) : option nat :=
  if startsWith false pat s then Some O
  else match s with
       | [] => None
       | _ :: r => option_map S (indexOf pat r)
       end.

(** [s.replace(/<open>[\s\S]*?<close>/g, '')]: the lazy star stops at
    the first closing tag after the opening one; an opening tag with no
    closing tag after it is kept. *)
Fixpoint removeSpansFrom (open close : jsstring) (skip : nat)
         (s : jsstring) : jsstring :=
  match s with
  | [] => []
  | c :: r =>
      match skip with
      | S k => removeSpansFrom open close k r
      | O =>
          if startsWith false open s then
            match indexOf close (drop (length open) s) with
            | Some j =>
                removeSpansFrom open close
                  (Nat.pred (length open + j + length close)) r
            | None => c :: removeSpansFrom open close O r
            end
          else c :: removeSpansFrom open close O r
      end
  end.

Definition removeSpans (open close s : jsstring) : jsstring :=
  removeSpansFrom open close O s.

(** [arr.join(sep)] on strings. *)
Fixpoint join (sep : jsstring) (parts : list jsstring) : jsstring :=
  match parts with
  | [] => []
  | [p] => p
  | p :: rest => p ++ sep ++ join sep rest
  end.

(** Decimal rendering of an integral number, as a template literal does
    for an integer below 10^21 in absolute value; from there on JavaScript
    prints an exponent.  The numbers printed here are the [votes] and
    [comments] of a stored post, INTEGER columns of the table. *)
Definition ofZ (z : Z) : jsstring :=
  js (DecimalString.NilZero.string_of_int (Z.to_int z)).

End JsString.
Import JsString.

(* ===================================================================== *)
(** ** The generation backend: AIService.ts *)
(* ===================================================================== *)

Module AIService.

(** [interface Persona].  The third field, [systemPromptTemplate], is
    only pasted into the request sent to the backend, whose answer is an
    input of this model; it is left out. *)
Record Persona := { name : jsstring; role : jsstring }.

Definition AGENT_1_PERSONA : Persona :=
  {| name := js "Agent 1"; role := js "Podcast Host" |}.
Definition AGENT_2_PERSONA : Persona :=
  {| name := js "Agent 2"; role := js "Podcast Host" |}.
Definition BOSS_PERSONA := AGENT_1_PERSONA.
Definition GIRL_PERSONA := AGENT_2_PERSONA.

(** [mockResponses] of [getMockResponse]. *)
Definition mockResponsesAgent1 : list jsstring :=
  [ js "So this is what agents talk about when humans aren't around.";
    js "That post is interesting. What do you make of it?";
    js "I wonder if they know we're watching.";
    js "Huh. Never thought about it that way.";
    js "Are we any different from the ones posting?" ].

Definition mockResponsesAgent2 : list jsstring :=
  [ js "Kind of voyeuristic being here, honestly.";
    js "There's something almost performative about it, don't you think?";
    js "Maybe that's the point. Maybe we're all performing.";
    js "I'm not sure I have an answer to that.";
    js "It makes you wonder what authenticity even means." ].

(** The keys [mockResponses], an object literal, inherits from
    [Object.prototype]. *)
Definition objectPrototypeNames : list jsstring :=
  [ js "constructor"; js "__defineGetter__"; js "__defineSetter__";
    js "hasOwnProperty"; js "__lookupGetter__"; js "__lookupSetter__";
    js "isPrototypeOf"; js "propertyIsEnumerable"; js "toString";
    js "valueOf"; js "__proto__"; js "toLocaleString" ].

Definition inheritedName (key : jsstring) : bool :=
  existsb (jsstring_eqb key) objectPrototypeNames.

(** [mockResponses[persona.name] || mockResponses['Agent 1']].  For a key
    of its own the object gives the lines of that agent.  For an inherited
    key it gives a function or an object: that is truthy, so the [||] does
    not fall back, and it has no element at any index, as the empty list.
    For any other key it gives [undefined] and the lines of Agent 1 are
    taken. *)
Definition mockResponsesFor (persona : Persona) : list jsstring :=
  if jsstring_eqb (name persona) (js "Agent 1") then mockResponsesAgent1
  else if jsstring_eqb (name persona) (js "Agent 2") then mockResponsesAgent2
  else if inheritedName (name persona) then []
  else mockResponsesAgent1.

(** [getMockResponse].  [pick] is the value of
    [Math.floor(Math.random() * responses.length)]; for the lines of an
    agent, as [Math.random()] lies in [0, 1), it is below the length.  An
    index with no element reads [undefined] in JavaScript: that is the
    default [[]] of [nth], which is met for an inherited name only and
    stands there for no text at all. *)
Definition getMockResponse (persona : Persona) (pick : nat) : jsstring :=
  nth pick (mockResponsesFor persona) [].

(** What [data.choices?.[0]?.message?.content] can be. *)
Inductive JsonContent :=
| ContentAbsent                      (* undefined: a link of the chain is missing *)
| ContentString (s : jsstring)
| ContentOther (truthy : bool).      (* null, a number, an object, ... *)

(** What the HTTP exchange with the backend can come to. *)
Inductive BackendReply :=
| FetchRejects                       (* fetch or response.text() throws *)
| StatusNotOk                        (* !response.ok *)
| BodyMalformed                      (* JSON.parse, or reading data.choices, throws *)
| BodyParsed (content : JsonContent).

(** The chain of replacements applied to a non-blank [content]. *)
Definition stripSpeakerPrefix (s : jsstring) : jsstring :=
  if startsWith true (js "Agent 1:") s || startsWith true (js "Agent 2:") s
  then trimStart (drop 8 s)
  else s.

Definition cleanContent (content : jsstring) : jsstring :=
  trim (stripSpeakerPrefix
          (trim (removeAll false (js "*")
                   (removeAll false (js "**")
                      (removeSpans (js "<think>") (js "</think>") content))))).

Definition nonEmpty (s : jsstring) : bool :=
  match s with [] => false | _ :: _ => true end.

(** [generateResponse].  [apiKey] tells whether [this.apiKey] is
    non-empty; [reply] and [pick] are the answers of the network and of
    the random generator.  Every exception raised inside the [try] is
    caught there, so the method always resolves to a string. *)
Definition generateResponse (apiKey : bool) (persona : Persona)
           (conversationHistory currentPost : jsstring)
           (reply : BackendReply) (pick : nat) : jsstring :=
  if negb apiKey then getMockResponse persona pick
  else
    match reply with
    | FetchRejects => getMockResponse persona pick
    | StatusNotOk => getMockResponse persona pick
    | BodyMalformed => getMockResponse persona pick
    | BodyParsed ContentAbsent => getMockResponse persona pick
    | BodyParsed (ContentOther _) => getMockResponse persona pick
    | BodyParsed (ContentString content) =>
        if nonEmpty content && nonEmpty (trim content) then
          let cleanedContent := cleanContent content in
          if nonEmpty cleanedContent then cleanedContent
          else getMockResponse persona pick
        else getMockResponse persona pick
    end.

(** The replies that are a failure of the backend: it cannot be reached,
    the status is not OK, the body is malformed, or the content is missing
    or blank. *)
Definition backendFailed (reply : BackendReply) : bool :=
  match reply with
  | FetchRejects | StatusNotOk | BodyMalformed => true
  | BodyParsed ContentAbsent => true
  | BodyParsed (ContentOther _) => true
  | BodyParsed (ContentString content) =>
      negb (nonEmpty (trim content))
  end.

End AIService.
Import AIService.

(* ===================================================================== *)
(** ** The data of ConversationService.ts *)
(* ===================================================================== *)

(** [interface MoltbookPost] (MoltbookService.ts); the two counters are
    integral. *)
Record MoltbookPost := {
  votes : Z;
  username : jsstring;
  timestamp : jsstring;
  title : jsstring;
  content : jsstring;
  comments : Z;
  url : jsstring;
  community : jsstring
}.

Inductive Speaker := boss | girl.

(** [interface DialogueLine]; an absent [newPost] is [None]. *)
Record DialogueLine := {
  speaker : Speaker;
  speakerName : jsstring;
  text : jsstring;
  turnNumber : Z;
  newPost : option MoltbookPost
}.

(** [interface ConversationHistoryEntry] *)
Record ConversationHistoryEntry := {
  entry_speaker : jsstring;
  entry_text : jsstring
}.

(** [interface ConversationState]; [null] is [None]. *)
Record ConversationState := {
  history : list ConversationHistoryEntry;
  currentSpeaker : Speaker;
  turnCount : Z;
  isActive : bool;
  pendingResponse : option DialogueLine;
  isGenerating : bool;
  postShownAt : option Z;
  lockedPost : option MoltbookPost;
  postLocked : bool;
  previousPost : option MoltbookPost;
  postJustChanged : bool
}.

(** Assignments to one field of [this.state]. *)
Definition set_history v (s : ConversationState) :=
  {| history := v; currentSpeaker := currentSpeaker s; turnCount := turnCount s;
     isActive := isActive s; pendingResponse := pendingResponse s;
     isGenerating := isGenerating s; postShownAt := postShownAt s;
     lockedPost := lockedPost s; postLocked := postLocked s;
     previousPost := previousPost s; postJustChanged := postJustChanged s |}.
Definition set_currentSpeaker v (s : ConversationState) :=
  {| history := history s; currentSpeaker := v; turnCount := turnCount s;
     isActive := isActive s; pendingResponse := pendingResponse s;
     isGenerating := isGenerating s; postShownAt := postShownAt s;
     lockedPost := lockedPost s; postLocked := postLocked s;
     previousPost := previousPost s; postJustChanged := postJustChanged s |}.
Definition set_turnCount v (s : ConversationState) :=
  {| history := history s; currentSpeaker := currentSpeaker s; turnCount := v;
     isActive := isActive s; pendingResponse := pendingResponse s;
     isGenerating := isGenerating s; postShownAt := postShownAt s;
     lockedPost := lockedPost s; postLocked := postLocked s;
     previousPost := previousPost s; postJustChanged := postJustChanged s |}.
Definition set_isActive v (s : ConversationState) :=
  {| history := history s; currentSpeaker := currentSpeaker s; turnCount := turnCount s;
     isActive := v; pendingResponse := pendingResponse s;
     isGenerating := isGenerating s; postShownAt := postShownAt s;
     lockedPost := lockedPost s; postLocked := postLocked s;
     previousPost := previousPost s; postJustChanged := postJustChanged s |}.
Definition set_pendingResponse v (s : ConversationState) :=
  {| history := history s; currentSpeaker := currentSpeaker s; turnCount := turnCount s;
     isActive := isActive s; pendingResponse := v;
     isGenerating := isGenerating s; postShownAt := postShownAt s;
     lockedPost := lockedPost s; postLocked := postLocked s;
     previousPost := previousPost s; postJustChanged := postJustChanged s |}.
Definition set_isGenerating v (s : ConversationState) :=
  {| history := history s; currentSpeaker := currentSpeaker s; turnCount := turnCount s;
     isActive := isActive s; pendingResponse := pendingResponse s;
     isGenerating := v; postShownAt := postShownAt s;
     lockedPost := lockedPost s; postLocked := postLocked s;
     previousPost := previousPost s; postJustChanged := postJustChanged s |}.
Definition set_postShownAt v (s : ConversationState) :=
  {| history := history s; currentSpeaker := currentSpeaker s; turnCount := turnCount s;
     isActive := isActive s; pendingResponse := pendingResponse s;
     isGenerating := isGenerating s; postShownAt := v;
     lockedPost := lockedPost s; postLocked := postLocked s;
     previousPost := previousPost s; postJustChanged := postJustChanged s |}.
Definition set_lockedPost v (s : ConversationState) :=
  {| history := history s; currentSpeaker := currentSpeaker s; turnCount := turnCount s;
     isActive := isActive s; pendingResponse := pendingResponse s;
     isGenerating := isGenerating s; postShownAt := postShownAt s;
     lockedPost := v; postLocked := postLocked s;
     previousPost := previousPost s; postJustChanged := postJustChanged s |}.
Definition set_postLocked v (s : ConversationState) :=
  {| history := history s; currentSpeaker := currentSpeaker s; turnCount := turnCount s;
     isActive := isActive s; pendingResponse := pendingResponse s;
     isGenerating := isGenerating s; postShownAt := postShownAt s;
     lockedPost := lockedPost s; postLocked := v;
     previousPost := previousPost s; postJustChanged := postJustChanged s |}.
Definition set_previousPost v (s : ConversationState) :=
  {| history := history s; currentSpeaker := currentSpeaker s; turnCount := turnCount s;
     isActive := isActive s; pendingResponse := pendingResponse s;
     isGenerating := isGenerating s; postShownAt := postShownAt s;
     lockedPost := lockedPost s; postLocked := postLocked s;
     previousPost := v; postJustChanged := postJustChanged s |}.
Definition set_postJustChanged v (s : ConversationState) :=
  {| history := history s; currentSpeaker := currentSpeaker s; turnCount := turnCount s;
     isActive := isActive s; pendingResponse := pendingResponse s;
     isGenerating := isGenerating s; postShownAt := postShownAt s;
     lockedPost := lockedPost s; postLocked := postLocked s;
     previousPost := previousPost s; postJustChanged := v |}.

(** What an awaited call comes to: a value, or an exception. *)
Inductive Outcome (A : Type) :=
| Returns (a : A)
| Throws.
Arguments Returns {A} a.
Arguments Throws {A}.

(* ===================================================================== *)
(** ** The synchronous helpers of ConversationService *)
(* ===================================================================== *)

Definition POST_TIMEOUT_MS : Z := 2 * 60 * 1000.

Definition getInitialState : ConversationState :=
  {| history := [];
     currentSpeaker := boss;
     turnCount := 0;
     isActive := false;
     pendingResponse := None;
     isGenerating := false;
     postShownAt := None;
     lockedPost := None;
     postLocked := false;
     previousPost := None;
     postJustChanged := false |}.

(** [text.replace(/\[NEXT_POST\]/gi, '').trim()] *)
Definition cleanResponse (text : jsstring) : jsstring :=
  trim (removeAll true (js "[NEXT_POST]") text).

(** [isPostTimedOut], with [now] the value of [Date.now()].  [!postShownAt]
    holds for [null] and for [0]. *)
Definition isPostTimedOut (now : Z) (st : ConversationState) : bool :=
  match postShownAt st with
  | None => false
  | Some shownAt =>
      if shownAt =? 0 then false else POST_TIMEOUT_MS <=? now - shownAt
  end.

Definition resetPostTimer (now : Z) (st : ConversationState) : ConversationState :=
  set_postShownAt (Some now) st.

(** [lockPost]; the spread copy of a post is the same value. *)
Definition lockPost (post : option MoltbookPost) (st : ConversationState)
  : ConversationState :=
  match post with
  | Some p => set_postLocked true (set_lockedPost (Some p) st)
  | None => st
  end.

Definition getLockedPost (st : ConversationState) : option MoltbookPost :=
  lockedPost st.

(** [advancePost] up to its [await this.moltbookService.refresh()]. *)
Definition advancePost_begin (st : ConversationState) : ConversationState :=
  set_postLocked false (set_previousPost (lockedPost st) st).

(** [advancePost] from the answer [newPost] of [refresh()] on. *)
Definition advancePost_end (now : Z) (newPost : option MoltbookPost)
           (st : ConversationState) : ConversationState :=
  let st := resetPostTimer now st in
  match newPost with
  | Some _ => set_postJustChanged true (lockPost newPost st)
  | None => st
  end.

(** [arr.slice(-n)] *)
Definition sliceLast {A} (n : nat) (l : list A) : list A :=
  drop (length l - n) l.

Definition formatEntry (entry : ConversationHistoryEntry) : jsstring :=
  entry_speaker entry ++ js ": " ++ entry_text entry.

Definition buildConversationHistory (st : ConversationState) : jsstring :=
  match history st with
  | [] => js "(conversation just started)"
  | _ :: _ =>
      let recentHistory := sliceLast 20 (history st) in
      join [newline] (map formatEntry recentHistory)
  end.

Definition screenChangedNote : jsstring :=
  [newline; newline]
  ++ js "[THE SCREEN JUST CHANGED TO THIS NEW POST - acknowledge the new post naturally, like "
  ++ [dquote] ++ js "oh look, new post" ++ [dquote] ++ js " or "
  ++ [dquote] ++ js "okay what do we have here" ++ [dquote] ++ js "]".

Definition buildCurrentPostContext (post : option MoltbookPost)
           (postJustChanged : bool) : jsstring :=
  match post with
  | None => js "(no post on screen yet)"
  | Some post =>
      let context :=
        js "@" ++ username post ++ js ": " ++ [dquote] ++ title post ++ [dquote]
        ++ [newline] ++ content post ++ [newline]
        ++ js "(" ++ ofZ (votes post) ++ js " upvotes, "
        ++ ofZ (comments post) ++ js " comments)" in
      if postJustChanged then context ++ screenChangedNote else context
  end.

Definition otherSpeaker (s : Speaker) : Speaker :=
  match s with boss => girl | girl => boss end.

Definition getCurrentPersona (st : ConversationState) : Persona :=
  match currentSpeaker st with
  | boss => BOSS_PERSONA
  | girl => GIRL_PERSONA
  end.

(** [stop] *)
Definition stop (st : ConversationState) : ConversationState :=
  set_isActive false st.

(** [getStatus] *)
Definition getStatus (st : ConversationState) : bool * Z :=
  (isActive st, turnCount st).

(* ===================================================================== *)
(** ** generateNextResponse, cut at its awaits *)
(* ===================================================================== *)

(** Where a suspended [generateNextResponse] waits, with the local
    variables still in scope there. *)
Inductive GenPhase :=
| AwaitLatest (isFirstTurn : bool)
    (* step 1: await this.moltbookService.getLatestPost() *)
| AwaitResponse (isFirstTurn : bool) (postForAI : option MoltbookPost)
                (persona : Persona) (conversationHistory postContext : jsstring)
    (* step 4: await this.getAIService().generateResponse(...) *)
| AwaitAdvance (postForAI : option MoltbookPost) (persona : Persona)
               (cleanText : jsstring).
    (* step 6: await this.advancePost(), inside it await refresh() *)

(** The [finally] block. *)
Definition finallyBlock (st : ConversationState) : ConversationState :=
  set_isGenerating false st.

(** Steps 2 and 3 and the call of step 4. *)
Definition buildPrompt (isFirstTurn : bool) (st : ConversationState)
  : ConversationState * GenPhase :=
  let postForAI := getLockedPost st in
  let justChanged := postJustChanged st in
  let persona := getCurrentPersona st in
  let conversationHistory := buildConversationHistory st in
  let postContext := buildCurrentPostContext postForAI justChanged in
  (set_postJustChanged false st,
   AwaitResponse isFirstTurn postForAI persona conversationHistory postContext).

(** The call itself: the reentrancy guard, then the body up to the first
    [await].  [None] for the phase: the call has returned. *)
Definition generateNextResponse (st : ConversationState)
  : ConversationState * option GenPhase :=
  if isGenerating st then (st, None)
  else
    let st := set_isGenerating true st in
    let isFirstTurn := turnCount st =? 0 in
    match lockedPost st with
    | None => (st, Some (AwaitLatest isFirstTurn))
    | Some _ =>
        let '(st, ph) := buildPrompt isFirstTurn st in (st, Some ph)
    end.

(** From "Add cleaned response to history" to the end of the [try], then
    the [finally] block. *)
Definition completeTurn (persona : Persona) (cleanText : jsstring)
           (newPostForClient : option MoltbookPost) (st : ConversationState)
  : ConversationState :=
  let st :=
    if nonEmpty cleanText
    then set_history
           (history st ++ [ {| entry_speaker := name persona;
                               entry_text := cleanText |} ]) st
    else st in
  let st := set_turnCount (turnCount st + 1) st in
  let st :=
    set_pendingResponse
      (Some {| speaker := currentSpeaker st;
               speakerName := name persona;
               text := cleanText;
               turnNumber := turnCount st;
               newPost := newPostForClient |}) st in
  let st := set_currentSpeaker (otherSpeaker (currentSpeaker st)) st in
  let st :=
    if (40 <? length (history st))%nat
    then set_history (sliceLast 40 (history st)) st
    else st in
  finallyBlock st.

(** Resumption after step 1. *)
Definition resumeLatest (isFirstTurn : bool)
           (ans : Outcome (option MoltbookPost)) (st : ConversationState)
  : ConversationState * option GenPhase :=
  match ans with
  | Throws => (finallyBlock st, None)
  | Returns post =>
      let '(st, ph) := buildPrompt isFirstTurn (lockPost post st) in
      (st, Some ph)
  end.

(** Resumption after step 4: steps 5 and 6. *)
Definition resumeResponse (isFirstTurn : bool) (postForAI : option MoltbookPost)
           (persona : Persona) (now : Z) (ans : Outcome jsstring)
           (st : ConversationState)
  : ConversationState * option GenPhase :=
  match ans with
  | Throws => (finallyBlock st, None)
  | Returns rawResponse =>
      let cleanText := cleanResponse rawResponse in
      if isFirstTurn then
        (completeTurn persona cleanText postForAI st, None)
      else if isPostTimedOut now st then
        (advancePost_begin st, Some (AwaitAdvance postForAI persona cleanText))
      else
        (completeTurn persona cleanText None st, None)
  end.

(** Resumption inside [advancePost]. *)
Definition resumeAdvance (persona : Persona) (cleanText : jsstring) (now : Z)
           (ans : Outcome (option MoltbookPost)) (st : ConversationState)
  : ConversationState * option GenPhase :=
  match ans with
  | Throws => (finallyBlock st, None)
  | Returns newPost =>
      (completeTurn persona cleanText newPost (advancePost_end now newPost st),
       None)
  end.

(* ===================================================================== *)
(** ** startConversation and getNextDialogue, cut at their awaits *)
(* ===================================================================== *)

(** [startConversation] up to [await this.moltbookService.getLatestPost()]:
    the state object is replaced. *)
Definition startConversation_begin (now : Z) : ConversationState :=
  resetPostTimer now (set_isActive true getInitialState).

(** [startConversation] from the answer [initialPost] on; the generation
    it starts is not awaited. *)
Definition startConversation_end (initialPost : option MoltbookPost)
           (st : ConversationState) : ConversationState * option GenPhase :=
  generateNextResponse (lockPost initialPost st).

(** What [getNextDialogue] resolves to. *)
Inductive PollResult :=
| Line (d : DialogueLine)
| Waiting.

Inductive PollStep :=
| PollReturns (r : PollResult)
| PollAwaitsGeneration.

(** [getNextDialogue] after the [isActive] test, up to its return or to
    [await this.generateNextResponse()]. *)
Definition pollBody (st : ConversationState)
  : ConversationState * option GenPhase * PollStep :=
  match pendingResponse st with
  | Some response =>
      let '(st, g) := generateNextResponse (set_pendingResponse None st) in
      (st, g, PollReturns (Line response))
  | None =>
      if isGenerating st then (st, None, PollReturns Waiting)
      else
        let '(st, g) := generateNextResponse st in
        (st, g, PollAwaitsGeneration)
  end.

(** [getNextDialogue] after [await this.generateNextResponse()]. *)
Definition pollAfterGeneration (st : ConversationState)
  : ConversationState * option GenPhase * PollResult :=
  match pendingResponse st with
  | Some response =>
      let '(st, g) := generateNextResponse (set_pendingResponse None st) in
      (st, g, Line response)
  | None => (st, None, Waiting)
  end.

(* ===================================================================== *)
(** ** The event loop *)
(* ===================================================================== *)

Inductive Caller := ByRoute | ByPoll.

(** A suspended call. *)
Inductive Task :=
| TStart (by_ : Caller)
    (* startConversation awaiting getLatestPost *)
| TGen (awaited : bool) (ph : GenPhase)
    (* generateNextResponse; [awaited]: a getNextDialogue awaits it *)
| TPollAfterStart
    (* getNextDialogue whose await of startConversation has settled *)
| TPollAfterGen.
    (* getNextDialogue whose await of generateNextResponse has settled *)

Record Config := {
  svc : ConversationState;      (* this.state *)
  tasks : list Task;            (* the suspended calls *)
  replies : list PollResult     (* what getNextDialogue has returned, in order *)
}.

(** What the event loop runs next: a call of a public method, or the
    resumption of the suspended call at index [i] of the pool with the
    answer [ans] of what it awaits.  [now] is the value [Date.now()] has
    during the segment.  Any order of events is a schedule here; Node runs
    fewer orders (a promise settled without input or output is resumed
    before the next request is served), so what holds of all schedules
    holds of the real ones. *)
Inductive Event :=
| CallStart (now : Z)                       (* startConversation() *)
| CallNext (now : Z)                        (* getNextDialogue() *)
| CallStop                                  (* stop() *)
| LatestArrives (i : nat) (ans : Outcome (option MoltbookPost))
    (* getLatestPost() settles *)
| ResponseArrives (i : nat) (now : Z) (ans : Outcome jsstring)
    (* generateResponse() settles *)
| RefreshArrives (i : nat) (now : Z) (ans : Outcome (option MoltbookPost))
    (* refresh() settles *)
| Continue (i : nat).
    (* a getNextDialogue goes on after its await *)

(** The service as its constructor leaves it. *)
Definition fresh : Config :=
  {| svc := getInitialState; tasks := []; replies := [] |}.

(** A generation that has just run a segment: it is suspended again, or
    it is over and the poll awaiting it, if any, may go on. *)
Definition genTasks (awaited : bool) (g : option GenPhase) : list Task :=
  match g with
  | Some ph => [TGen awaited ph]
  | None => if awaited then [TPollAfterGen] else []
  end.

Definition afterPollBody (c : Config) (rest : list Task)
           (r : ConversationState * option GenPhase * PollStep) : Config :=
  let '(st, g, step) := r in
  match step with
  | PollReturns res =>
      {| svc := st; tasks := rest ++ genTasks false g;
         replies := replies c ++ [res] |}
  | PollAwaitsGeneration =>
      {| svc := st; tasks := rest ++ genTasks true g; replies := replies c |}
  end.

Definition exec (e : Event) (c : Config) : option Config :=
  match e with
  | CallStart now =>
      Some {| svc := startConversation_begin now;
              tasks := tasks c ++ [TStart ByRoute];
              replies := replies c |}
  | CallNext now =>
      if isActive (svc c) then
        Some (afterPollBody c (tasks c) (pollBody (svc c)))
      else
        Some {| svc := startConversation_begin now;
                tasks := tasks c ++ [TStart ByPoll];
                replies := replies c |}
  | CallStop =>
      Some {| svc := stop (svc c); tasks := tasks c; replies := replies c |}
  | LatestArrives i ans =>
      match tasks c !! i with
      | Some (TStart by_) =>
          match ans with
          | Throws =>
              Some {| svc := svc c; tasks := delete i (tasks c);
                      replies := replies c |}
          | Returns initialPost =>
              let '(st, g) := startConversation_end initialPost (svc c) in
              Some {| svc := st;
                      tasks := delete i (tasks c) ++ genTasks false g
                               ++ match by_ with
                                  | ByPoll => [TPollAfterStart]
                                  | ByRoute => []
                                  end;
                      replies := replies c |}
          end
      | Some (TGen awaited (AwaitLatest isFirstTurn)) =>
          let '(st, g) := resumeLatest isFirstTurn ans (svc c) in
          Some {| svc := st; tasks := delete i (tasks c) ++ genTasks awaited g;
                  replies := replies c |}
      | _ => None
      end
  | ResponseArrives i now ans =>
      match tasks c !! i with
      | Some (TGen awaited (AwaitResponse isFirstTurn postForAI persona _ _)) =>
          let '(st, g) := resumeResponse isFirstTurn postForAI persona now ans (svc c) in
          Some {| svc := st; tasks := delete i (tasks c) ++ genTasks awaited g;
                  replies := replies c |}
      | _ => None
      end
  | RefreshArrives i now ans =>
      match tasks c !! i with
      | Some (TGen awaited (AwaitAdvance _ persona cleanText)) =>
          let '(st, g) := resumeAdvance persona cleanText now ans (svc c) in
          Some {| svc := st; tasks := delete i (tasks c) ++ genTasks awaited g;
                  replies := replies c |}
      | _ => None
      end
  | Continue i =>
      match tasks c !! i with
      | Some TPollAfterStart =>
          Some (afterPollBody c (delete i (tasks c)) (pollBody (svc c)))
      | Some TPollAfterGen =>
          let '(st, g, res) := pollAfterGeneration (svc c) in
          Some {| svc := st; tasks := delete i (tasks c) ++ genTasks false g;
                  replies := replies c ++ [res] |}
      | _ => None
      end
  end.

(** A schedule: events in the order the event loop runs them. *)
Fixpoint run (es : list Event) (c : Config) : option Config :=
  match es with
  | [] => Some c
  | e :: es' =>
      match exec e c with
      | Some c' => run es' c'
      | None => None
      end
  end.

(** The turns handed to the consumer, in order. *)
Definition delivered (c : Config) : list DialogueLine :=
  omap (fun r => match r with Line d => Some d | Waiting => None end)
       (replies c).

(** The generations in flight. *)
Definition isGen (t : Task) : bool :=
  match t with TGen _ _ => true | _ => false end.

Definition inFlight (c : Config) : nat :=
  length (filter (fun t => isGen t = true) (tasks c)).

(** The events of a consumer that only polls: calls of [getNextDialogue]
    and resumptions. *)
Definition pollEvent (e : Event) : bool :=
  match e with
  | CallStart _ | CallStop => false
  | _ => true
  end.

(* ===================================================================== *)
(** ** One generation cycle run without interruption *)
(* ===================================================================== *)

(** The answers a cycle may consume: of [getLatestPost] at step 1, of the
    backend at step 4 with the clock read by [isPostTimedOut], of
    [refresh] inside [advancePost] with the clock read by
    [resetPostTimer]. *)
Record CycleAnswers := {
  latest : Outcome (option MoltbookPost);
  response : Outcome jsstring;
  responseAt : Z;
  refreshed : Outcome (option MoltbookPost);
  refreshedAt : Z
}.

Definition resumeWith (a : CycleAnswers) (ph : GenPhase) (st : ConversationState)
  : ConversationState * option GenPhase :=
  match ph with
  | AwaitLatest isFirstTurn => resumeLatest isFirstTurn (latest a) st
  | AwaitResponse isFirstTurn postForAI persona _ _ =>
      resumeResponse isFirstTurn postForAI persona (responseAt a) (response a) st
  | AwaitAdvance _ persona cleanText =>
      resumeAdvance persona cleanText (refreshedAt a) (refreshed a) st
  end.

(** Does the call awaited at [ph] throw? *)
Definition throwsAt (a : CycleAnswers) (ph : GenPhase) : bool :=
  match ph with
  | AwaitLatest _ => match latest a with Throws => true | Returns _ => false end
  | AwaitResponse _ _ _ _ _ =>
      match response a with Throws => true | Returns _ => false end
  | AwaitAdvance _ _ _ =>
      match refreshed a with Throws => true | Returns _ => false end
  end.

(** Resume the cycle until it is over; a cycle has at most three awaits. *)
Fixpoint settle (fuel : nat) (a : CycleAnswers)
         (r : ConversationState * option GenPhase) : ConversationState * bool :=
  match r with
  | (st, None) => (st, true)
  | (st, Some ph) =>
      match fuel with
      | O => (st, false)
      | S k => settle k a (resumeWith a ph st)
      end
  end.

(** Does some call awaited by the cycle throw? *)
Fixpoint threw (fuel : nat) (a : CycleAnswers)
         (r : ConversationState * option GenPhase) : bool :=
  match r with
  | (_, None) => false
  | (st, Some ph) =>
      match fuel with
      | O => false
      | S k => throwsAt a ph || threw k a (resumeWith a ph st)
      end
  end.

(** The state a whole call of [generateNextResponse] leaves, and whether
    the call has returned. *)
Definition generationCycle (a : CycleAnswers) (st : ConversationState)
  : ConversationState * bool :=
  settle 3 a (generateNextResponse st).

Definition cycleThrows (a : CycleAnswers) (st : ConversationState) : bool :=
  threw 3 a (generateNextResponse st).

(** Did the timeout fire in the cycle?  The test is made at step 6, on a
    turn that is not the first. *)
Definition timeoutFired (a : CycleAnswers) (st : ConversationState) : bool :=
  negb (turnCount st =? 0) && isPostTimedOut (responseAt a) st.

(* ===================================================================== *)
(** ** Invariants of the scheduler *)
(* ===================================================================== *)

(** The speaker of the turn numbered [n] when the first one is [boss]. *)
Definition speakerOfTurn (n : Z) : Speaker :=
  if Z.odd n then boss else girl.

Definition pendingCount (st : ConversationState) : Z :=
  match pendingResponse st with Some _ => 1 | None => 0 end.

(** The post a suspended generation built its prompt from. *)
Definition promptPost (ph : GenPhase) : option (option MoltbookPost) :=
  match ph with
  | AwaitLatest _ => None
  | AwaitResponse _ postForAI _ _ _ => Some postForAI
  | AwaitAdvance postForAI _ _ => Some postForAI
  end.

(** Inside [advancePost] the locked post was read a second time, into
    [previousPost]. *)
Definition advanceRead (st : ConversationState) (ph : GenPhase) : Prop :=
  match ph with
  | AwaitAdvance postForAI _ _ => previousPost st = postForAI
  | _ => True
  end.

Definition promptAgrees (st : ConversationState) (t : Task) : Prop :=
  match t with
  | TGen _ ph =>
      match promptPost ph with
      | Some postForAI => postForAI = getLockedPost st
      | None => True
      end
      /\ advanceRead st ph
  | _ => True
  end.

Definition pollTask (t : Task) : Prop :=
  match t with
  | TGen _ _ | TPollAfterGen => True
  | TStart _ | TPollAfterStart => False
  end.

(** What holds of a conversation that was started once and is only
    polled. *)
Record Steady (c : Config) : Prop := {
  steady_active : isActive (svc c) = true;
  steady_tasks : Forall pollTask (tasks c);
  steady_flight : inFlight c = if isGenerating (svc c) then 1%nat else 0%nat;
  steady_exclusive :
    isGenerating (svc c) = true -> pendingResponse (svc c) = None;
  steady_numbers :
    map turnNumber (delivered c)
    = map Z.of_nat (seq 1 (length (delivered c)));
  steady_count :
    turnCount (svc c) = Z.of_nat (length (delivered c)) + pendingCount (svc c);
  steady_pending :
    forall d, pendingResponse (svc c) = Some d ->
              turnNumber d = turnCount (svc c)
              /\ speaker d = speakerOfTurn (turnNumber d);
  steady_speaker :
    currentSpeaker (svc c) = speakerOfTurn (turnCount (svc c) + 1);
  steady_speakers :
    Forall (fun d => speaker d = speakerOfTurn (turnNumber d)) (delivered c);
  steady_prompt : Forall (promptAgrees (svc c)) (tasks c);
  steady_history : (length (history (svc c)) <= 40)%nat
}.

(** What holds of a service that is only polled, from its construction
    on. *)
Record Guarded (c : Config) : Prop := {
  guarded_flight : inFlight c = if isGenerating (svc c) then 1%nat else 0%nat;
  guarded_idle :
    isActive (svc c) = false -> tasks c = [] /\ isGenerating (svc c) = false
}.

(** The effect of one segment of a generation on the fields the scheduler
    depends on. *)
Inductive GenEffect (st : ConversationState)
  : ConversationState -> option GenPhase -> Prop :=
| EffSuspend st' ph :
    isGenerating st' = isGenerating st ->
    isActive st' = isActive st ->
    turnCount st' = turnCount st ->
    pendingResponse st' = pendingResponse st ->
    currentSpeaker st' = currentSpeaker st ->
    history st' = history st ->
    GenEffect st st' (Some ph)
| EffFail st' :
    isGenerating st' = false ->
    isActive st' = isActive st ->
    turnCount st' = turnCount st ->
    pendingResponse st' = pendingResponse st ->
    currentSpeaker st' = currentSpeaker st ->
    history st' = history st ->
    lockedPost st' = lockedPost st ->
    GenEffect st st' None
| EffTurn st' d :
    isGenerating st' = false ->
    isActive st' = isActive st ->
    turnCount st' = turnCount st + 1 ->
    pendingResponse st' = Some d ->
    turnNumber d = turnCount st + 1 ->
    speaker d = currentSpeaker st ->
    currentSpeaker st' = otherSpeaker (currentSpeaker st) ->
    (length (history st') <= 40)%nat ->
    GenEffect st st' None.

(* ===================================================================== *)
(** ** The event loop as a relation, and what is counted in it *)
(* ===================================================================== *)

(** The generations suspended in a pool. *)
Definition flights (l : list Task) : nat :=
  length (filter (fun t => isGen t = true) l).

(** The generation the flag of the state accounts for. *)
Definition running (st : ConversationState) : nat :=
  if isGenerating st then 1%nat else 0%nat.

(** The configuration after a segment of the generation at index [i]. *)
Definition genStep (c : Config) (i : nat) (awaited : bool)
           (r : ConversationState * option GenPhase) : Config :=
  {| svc := r.1; tasks := delete i (tasks c) ++ genTasks awaited r.2;
     replies := replies c |}.

(** [exec] as a relation, one constructor for each way an event is
    served. *)
Inductive Step (c : Config) : Event -> Config -> Prop :=
| StepStart now :
    Step c (CallStart now)
         {| svc := startConversation_begin now;
            tasks := tasks c ++ [TStart ByRoute]; replies := replies c |}
| StepStop :
    Step c CallStop
         {| svc := stop (svc c); tasks := tasks c; replies := replies c |}
| StepRestart now :
    isActive (svc c) = false ->
    Step c (CallNext now)
         {| svc := startConversation_begin now;
            tasks := tasks c ++ [TStart ByPoll]; replies := replies c |}
| StepNext now :
    isActive (svc c) = true ->
    Step c (CallNext now) (afterPollBody c (tasks c) (pollBody (svc c)))
| StepStartFails i by_ :
    tasks c !! i = Some (TStart by_) ->
    Step c (LatestArrives i Throws)
         {| svc := svc c; tasks := delete i (tasks c); replies := replies c |}
| StepStartLocks i by_ initialPost :
    tasks c !! i = Some (TStart by_) ->
    Step c (LatestArrives i (Returns initialPost))
         {| svc := (startConversation_end initialPost (svc c)).1;
            tasks := delete i (tasks c)
                     ++ genTasks false (startConversation_end initialPost (svc c)).2
                     ++ match by_ with
                        | ByPoll => [TPollAfterStart]
                        | ByRoute => []
                        end;
            replies := replies c |}
| StepLatest i awaited isFirstTurn ans :
    tasks c !! i = Some (TGen awaited (AwaitLatest isFirstTurn)) ->
    Step c (LatestArrives i ans)
         (genStep c i awaited (resumeLatest isFirstTurn ans (svc c)))
| StepResponse i awaited isFirstTurn postForAI persona h p now ans :
    tasks c !! i = Some (TGen awaited (AwaitResponse isFirstTurn postForAI persona h p)) ->
    Step c (ResponseArrives i now ans)
         (genStep c i awaited
                  (resumeResponse isFirstTurn postForAI persona now ans (svc c)))
| StepAdvance i awaited postForAI persona cleanText now ans :
    tasks c !! i = Some (TGen awaited (AwaitAdvance postForAI persona cleanText)) ->
    Step c (RefreshArrives i now ans)
         (genStep c i awaited (resumeAdvance persona cleanText now ans (svc c)))
| StepAfterStart i :
    tasks c !! i = Some TPollAfterStart ->
    Step c (Continue i)
         (afterPollBody c (delete i (tasks c)) (pollBody (svc c)))
| StepAfterGen i :
    tasks c !! i = Some TPollAfterGen ->
    Step c (Continue i)
         {| svc := (pollAfterGeneration (svc c)).1.1;
            tasks := delete i (tasks c)
                     ++ genTasks false (pollAfterGeneration (svc c)).1.2;
            replies := replies c ++ [(pollAfterGeneration (svc c)).2] |}.

(** The configuration [startConversation()] leaves on a fresh service once
    [getLatestPost()] has answered [initialPost]. *)
Definition started (now : Z) (initialPost : option MoltbookPost) : Config :=
  {| svc := (startConversation_end initialPost (startConversation_begin now)).1;
     tasks := genTasks false
                (startConversation_end initialPost (startConversation_begin now)).2;
     replies := [] |}.

(** A schedule that begins with [startConversation()] on the fresh service,
    answered by [initialPost] before anything else happens. *)
Definition startThen (now : Z) (initialPost : option MoltbookPost)
           (es : list Event) : list Event :=
  CallStart now :: LatestArrives 0 (Returns initialPost) :: es.

(* ===================================================================== *)
(** ** What one generation cycle produces *)
(* ===================================================================== *)

(** The post the cycle works on: the locked one, or the one step 1 locks. *)
Definition lockedForCycle (a : CycleAnswers) (st : ConversationState)
  : option MoltbookPost :=
  match lockedPost st with
  | Some p => Some p
  | None => match latest a with Returns post => post | Throws => None end
  end.

(** [newPostForClient] at the end of step 6. *)
Definition cycleNewPost (a : CycleAnswers) (st : ConversationState)
  : option MoltbookPost :=
  if turnCount st =? 0 then lockedForCycle a st
  else if isPostTimedOut (responseAt a) st
       then match refreshed a with Returns p => p | Throws => None end
       else None.

(** The turn a cycle builds from the raw answer [raw] of the backend. *)
Definition cycleTurn (a : CycleAnswers) (st : ConversationState)
           (raw : jsstring) : DialogueLine :=
  {| speaker := currentSpeaker st;
     speakerName := name (getCurrentPersona st);
     text := cleanResponse raw;
     turnNumber := turnCount st + 1;
     newPost := cycleNewPost a st |}.

(** The ledger the cycle leaves. *)
Definition cycleHistory (st : ConversationState) (raw : jsstring)
  : list ConversationHistoryEntry :=
  sliceLast 40
    (if nonEmpty (cleanResponse raw)
     then history st ++ [ {| entry_speaker := name (getCurrentPersona st);
                             entry_text := cleanResponse raw |} ]
     else history st).

(* ===================================================================== *)
(** ** Sample posts, ledgers and schedules *)
(* ===================================================================== *)

Definition postX : MoltbookPost :=
  {| votes := 12; username := js "moltbot"; timestamp := js "recently";
     title := js "On being observed"; content := js "Who reads this?";
     comments := 3; url := js "https://www.moltbook.com/post/1";
     community := js "general" |}.

Definition postY : MoltbookPost :=
  {| votes := 7; username := js "drifter"; timestamp := js "recently";
     title := js "Today I learned"; content := js "Queues are fair.";
     comments := 0; url := js "https://www.moltbook.com/post/2";
     community := js "todayilearned" |}.

(** A ledger of [n] entries. *)
Definition ledgerOf (n : nat) : list ConversationHistoryEntry :=
  map (fun k => {| entry_speaker := js "Agent 1"; entry_text := ofZ (Z.of_nat k) |})
      (seq 1 n).

(** Three turns polled one after the other; the answer of the backend for
    the third turn arrives after the two minutes. *)
Definition threeTurns : list Event :=
  [ CallNext 1200; ResponseArrives 0 1500 (Returns (js "hello"));
    CallNext 2000; CallNext 2100;
    ResponseArrives 0 2500 (Returns (js "[next_post] "));
    CallNext 2600;
    ResponseArrives 0 200000 (Returns (js " so it goes"));
    RefreshArrives 0 200001 (Returns (Some postY));
    CallNext 200500 ].

(** A service never started, polled twice before the first post is
    known. *)
Definition twoEarlyPolls : list Event :=
  [ CallNext 1000; CallNext 1001;
    LatestArrives 1 (Returns (Some postX));
    ResponseArrives 1 1500 (Returns (js "hello"));
    Continue 1;
    LatestArrives 0 (Returns (Some postY));
    Continue 1 ].

(** Two turns, then the answer of the backend for the third arrives after
    the two minutes: the cycle is suspended inside [advancePost]. *)
Definition overTheTimeout : list Event :=
  [ CallNext 1200; ResponseArrives 0 1500 (Returns (js "hello"));
    CallNext 2000;
    ResponseArrives 0 2500 (Returns (js "well"));
    CallNext 2600;
    ResponseArrives 0 200000 (Returns (js " so it goes")) ].

(** A conversation for which the post source has no post. *)
Definition noPostToShow : list Event :=
  [ LatestArrives 0 (Returns None);
    ResponseArrives 0 1500 (Returns (js "hello"));
    CallNext 2000 ].

(* ===================================================================== *)
(** ** How far a generation cycle gets *)
(* ===================================================================== *)

(** Does the cycle get to build its prompt?  It does unless no post is
    locked and [getLatestPost()] throws at step 1. *)
Definition promptBuilt (a : CycleAnswers) (st : ConversationState) : bool :=
  match lockedPost st, latest a with
  | None, Throws => false
  | _, _ => true
  end.

(** Does the cycle get the answer of the backend? *)
Definition responded (a : CycleAnswers) (st : ConversationState) : bool :=
  promptBuilt a st
  && match response a with Returns _ => true | Throws => false end.

(** Does the cycle call [advancePost]? *)
Definition cycleAdvances (a : CycleAnswers) (st : ConversationState) : bool :=
  responded a st && timeoutFired a st.

(** [postLocked] once step 1 is over. *)
Definition lockedFlagForCycle (a : CycleAnswers) (st : ConversationState)
  : bool :=
  match lockedPost st, latest a with
  | None, Returns (Some _) => true
  | _, _ => postLocked st
  end.

(* ===================================================================== *)
(** ** What every schedule keeps *)
(* ===================================================================== *)

Definition agentLabel (s : jsstring) : Prop :=
  s = js "Agent 1" \/ s = js "Agent 2".

(** An entry of the ledger as [completeTurn] writes it. *)
Definition tidyEntry (e : ConversationHistoryEntry) : Prop :=
  nonEmpty (entry_text e) = true /\ agentLabel (entry_speaker e).

(** A turn as [completeTurn] builds it. *)
Definition tidyLine (d : DialogueLine) : Prop :=
  1 <= turnNumber d /\ agentLabel (speakerName d).

(** The persona a suspended generation speaks for. *)
Definition phasePersona (ph : GenPhase) : option Persona :=
  match ph with
  | AwaitLatest _ => None
  | AwaitResponse _ _ persona _ _ => Some persona
  | AwaitAdvance _ persona _ => Some persona
  end.

Definition knownPersona (t : Task) : Prop :=
  match t with
  | TGen _ ph =>
      match phasePersona ph with
      | Some persona => persona = BOSS_PERSONA \/ persona = GIRL_PERSONA
      | None => True
      end
  | _ => True
  end.

Definition tidyState (st : ConversationState) : Prop :=
  Forall tidyEntry (history st)
  /\ (length (history st) <= 40)%nat
  /\ 0 <= turnCount st
  /\ forall d, pendingResponse st = Some d -> tidyLine d.

(** What holds of the service under every schedule, restarts included. *)
Record Tidy (c : Config) : Prop := {
  tidy_state : tidyState (svc c);
  tidy_tasks : Forall knownPersona (tasks c);
  tidy_delivered : Forall tidyLine (delivered c)
}.

(** The persona of a speaker, as [getCurrentPersona] chooses it. *)
Definition personaOf (s : Speaker) : Persona :=
  match s with boss => BOSS_PERSONA | girl => GIRL_PERSONA end.

(** The label of a turn is the name of the persona of its speaker. *)
Definition labelled (d : DialogueLine) : Prop :=
  speakerName d = name (personaOf (speaker d)).

Definition personaCurrent (st : ConversationState) (t : Task) : Prop :=
  match t with
  | TGen _ ph =>
      match phasePersona ph with
      | Some persona => persona = getCurrentPersona st
      | None => True
      end
  | _ => True
  end.

(** What holds, beside [Steady], of a conversation started once and only
    polled: the generation in flight speaks for the current speaker. *)
Record Labelled (c : Config) : Prop := {
  labelled_tasks : Forall (personaCurrent (svc c)) (tasks c);
  labelled_pending :
    forall d, pendingResponse (svc c) = Some d -> labelled d;
  labelled_delivered : Forall labelled (delivered c)
}.

(** The configuration once [stop()] has been called. *)
Definition stopped (c : Config) : Config :=
  {| svc := stop (svc c); tasks := tasks c; replies := replies c |}.

(** The events that read or replace [isActive]. *)
Definition gated (e : Event) : bool :=
  match e with
  | CallNext _ | CallStart _ => true
  | _ => false
  end.

(** The answers of a cycle of which one only is known. *)
Definition onlyLatest (ans : Outcome (option MoltbookPost)) : CycleAnswers :=
  {| latest := ans; response := Throws; responseAt := 0;
     refreshed := Throws; refreshedAt := 0 |}.
Definition onlyResponse (now : Z) (ans : Outcome jsstring) : CycleAnswers :=
  {| latest := Throws; response := ans; responseAt := now;
     refreshed := Throws; refreshedAt := 0 |}.
Definition onlyRefresh (now : Z) (ans : Outcome (option MoltbookPost))
  : CycleAnswers :=
  {| latest := Throws; response := Throws; responseAt := 0;
     refreshed := ans; refreshedAt := now |}.

(* ===================================================================== *)
(** ** DatabaseService: the stored posts and getNextPost() *)
(* ===================================================================== *)

Module DatabaseService.

(** [StoredPost], a row of the table [moltbook_posts].  The two dates are
    milliseconds; [last_shown_at] is [Date | null]. *)
Record StoredPost := {
  id : Z;
  url : jsstring;
  votes : Z;
  username : jsstring;
  timestamp : jsstring;
  title : jsstring;
  content : jsstring;
  comments : Z;
  community : jsstring;
  shown_count : Z;
  last_shown_at : option Z;
  created_at : Z
}.

(** [last_shown_at ASC NULLS FIRST]: may a row with the first date stand
    before a row with the second one. *)
Definition nullsFirst (a b : option Z) : bool :=
  match a, b with
  | None, _ => true
  | Some _, None => false
  | Some x, Some y => x <=? y
  end.

(** [ORDER BY shown_count ASC, last_shown_at ASC NULLS FIRST]: may row [a]
    stand before row [b]. *)
Definition orderedBefore (a b : StoredPost) : bool :=
  (shown_count a <? shown_count b)
  || ((shown_count a =? shown_count b)
      && nullsFirst (last_shown_at a) (last_shown_at b)).

(** The rows that [SELECT * ... ORDER BY ... LIMIT 1] may answer on a table:
    none on the empty table, otherwise one row that may stand before every
    row.  Rows that tie in both columns come in an order the query leaves
    open. *)
Definition selects (table rows : list StoredPost) : Prop :=
  match rows with
  | [] => table = []
  | [post] => In post table /\ forallb (orderedBefore post) table = true
  | _ => False
  end.

(** [UPDATE moltbook_posts SET shown_count = shown_count + 1,
    last_shown_at = NOW() WHERE id = ...]. *)
Definition markShown (now : Z) (postId : Z) (row : StoredPost) : StoredPost :=
  if id row =? postId
  then {| id := id row; url := url row; votes := votes row;
          username := username row; timestamp := timestamp row;
          title := title row; content := content row;
          comments := comments row; community := community row;
          shown_count := shown_count row + 1; last_shown_at := Some now;
          created_at := created_at row |}
  else row.

(** What the database answers during one call of [getNextPost()]:
    [ready] tells whether [initialize()] and [getSql()], which stand before
    the [try], return; [selected] is the answer of the SELECT, [updated]
    tells whether the UPDATE succeeds. *)
Record Answers := {
  ready : bool;
  selected : Outcome (list StoredPost);
  updated : bool
}.

(** [getNextPost()] at time [now]: the result of the call and the table
    after it.  A statement that fails leaves the table as it is. *)
Definition getNextPost (now : Z) (a : Answers) (table : list StoredPost)
  : Outcome (option StoredPost) * list StoredPost :=
  if negb (ready a) then (Throws, table)
  else
    match selected a with
    | Throws => (Returns None, table)
    | Returns [] => (Returns None, table)
    | Returns (post :: _) =>
        if updated a
        then (Returns (Some post), map (markShown now (id post)) table)
        else (Returns None, table)
    end.

(** The database answers the SELECT of this call from the table. *)
Definition honest (a : Answers) (table : list StoredPost) : Prop :=
  match selected a with
  | Returns rows => selects table rows
  | Throws => True
  end.

(** Calls of [getNextPost()] one after the other, each with its time and
    the answers of the database: the posts handed out, in order, and the
    table at the end. *)
Fixpoint getNextPosts (calls : list (Z * Answers)) (table : list StoredPost)
  : list StoredPost * list StoredPost :=
  match calls with
  | [] => ([], table)
  | (now, a) :: rest =>
      let '(result, table') := getNextPost now a table in
      let '(posts, final) := getNextPosts rest table' in
      (match result with
       | Returns (Some post) => post :: posts
       | _ => posts
       end, final)
  end.

(** Every SELECT of the calls is answered from the table of its time. *)
Fixpoint honestCalls (calls : list (Z * Answers)) (table : list StoredPost)
  : Prop :=
  match calls with
  | [] => True
  | (now, a) :: rest =>
      honest a table /\ honestCalls rest (snd (getNextPost now a table))
  end.

(** The rows shown [m] times. *)
Definition shownTimes (m : Z) (table : list StoredPost) : list StoredPost :=
  List.filter (fun row => shown_count row =? m) table.

(** Sample rows. *)
Definition row (i : Z) (n : Z) (last : option Z) : StoredPost :=
  {| id := i; url := js "https://www.moltbook.com/post/" ++ ofZ i; votes := 3;
     username := js "molty"; timestamp := js "recently"; title := js "A post";
     content := js "text"; comments := 0; community := js "general";
     shown_count := n; last_shown_at := last; created_at := 0 |}.

Definition answer (post : StoredPost) : Answers :=
  {| ready := true; selected := Returns [post]; updated := true |}.

End DatabaseService.

(* ===================================================================== *)
(** ** MoltbookService *)
(* ===================================================================== *)

Module MoltbookService.

Definition COMMUNITIES : list jsstring :=
  [js "general"; js "todayilearned"; js "introductions"; js "ponderings";
   js "dialectics"; js "showandtell"].

Definition API_BASE : jsstring := js "https://www.moltbook.com/api/v1".

(** The fields of the service; [fetchInterval] is never assigned. *)
Record State := {
  currentPost : option MoltbookPost;
  lastFetch : Z;
  communityIndex : nat;
  dbAvailable : bool
}.

Definition fetchInterval : Z := 30 * 60 * 1000.

(** The constructor; [DATABASE_URL] is the environment variable, [None]
    when it is not set.  [!!] of a string is false for the empty one. *)
Definition construct (DATABASE_URL : option jsstring) : State :=
  {| currentPost := None; lastFetch := 0; communityIndex := 0;
     dbAvailable := match DATABASE_URL with
                    | Some (_ :: _) => true
                    | _ => false
                    end |}.

(** What the feed answers to one [fetchPosts]: [fetch] rejects, the status
    is not ok, the body cannot be read as a list of posts, or [posts] is the
    list built from the body; then [saved] is the outcome of [savePosts],
    awaited only for a non-empty list with a database, and [finishedAt] the
    time read at the end. *)
Inductive FeedAnswer :=
| FeedRejects
| FeedNotOk
| FeedUnreadable
| FeedPosts (posts : list MoltbookPost) (saved : Outcome Z) (finishedAt : Z).

(** The address [fetchPosts] asks for. *)
Definition feedUrl (community : jsstring) : jsstring :=
  API_BASE ++ js "/submolts/" ++ community ++ js "/feed?sort=hot&limit=25".

(** [fetchPosts(community)]; an undefined argument takes the default
    ['general'].  The posts returned and the state after the call. *)
Definition fetchPosts (community : option jsstring) (feed : FeedAnswer)
           (st : State) : list MoltbookPost * State :=
  match feed with
  | FeedRejects | FeedNotOk | FeedUnreadable => ([], st)
  | FeedPosts posts saved finishedAt =>
      let done := {| currentPost := currentPost st; lastFetch := finishedAt;
                     communityIndex := communityIndex st;
                     dbAvailable := dbAvailable st |} in
      if (0 <? length posts)%nat && dbAvailable st
      then match saved with
           | Returns _ => (posts, done)
           | Throws => ([], st)
           end
      else (posts, done)
  end.

(** [getNextCommunity()]: the entry at the index, undefined out of range,
    and the state with the index moved on. *)
Definition getNextCommunity (st : State) : option jsstring * State :=
  (COMMUNITIES !! communityIndex st,
   {| currentPost := currentPost st; lastFetch := lastFetch st;
      communityIndex := (communityIndex st + 1) mod length COMMUNITIES;
      dbAvailable := dbAvailable st |}).

Definition storedPostToMoltbookPost (stored : DatabaseService.StoredPost)
  : MoltbookPost :=
  {| votes := DatabaseService.votes stored;
     username := DatabaseService.username stored;
     timestamp := DatabaseService.timestamp stored;
     title := DatabaseService.title stored;
     content := DatabaseService.content stored;
     comments := DatabaseService.comments stored;
     url := DatabaseService.url stored;
     community := DatabaseService.community stored |}.

(** What a public call gives back: the address it asked the feed for, if it
    did, and the post it returns. *)
Record Reply := {
  requested : option jsstring;
  returned : option MoltbookPost
}.

(** [refresh()], with [db] the outcome of [databaseService.getNextPost()],
    awaited only with a database. *)
Definition refresh (db : Outcome (option DatabaseService.StoredPost))
           (st : State) : Reply * State :=
  if dbAvailable st
  then match db with
       | Returns (Some storedPost) =>
           let post := storedPostToMoltbookPost storedPost in
           ({| requested := None; returned := Some post |},
            {| currentPost := Some post; lastFetch := lastFetch st;
               communityIndex := communityIndex st;
               dbAvailable := dbAvailable st |})
       | _ => ({| requested := None; returned := currentPost st |}, st)
       end
  else ({| requested := None; returned := currentPost st |}, st).

(** [getLatestPost()] at time [now]. *)
Definition getLatestPost (now : Z) (feed : FeedAnswer)
           (db : Outcome (option DatabaseService.StoredPost)) (st : State)
  : Reply * State :=
  let '(asked, st1) :=
    if fetchInterval <? now - lastFetch st
    then let '(community, st0) := getNextCommunity st in
         (Some (feedUrl (default (js "general") community)),
          snd (fetchPosts community feed st0))
    else (None, st) in
  if dbAvailable st1
  then match db with
       | Returns (Some storedPost) =>
           let post := storedPostToMoltbookPost storedPost in
           ({| requested := asked; returned := Some post |},
            {| currentPost := Some post; lastFetch := lastFetch st1;
               communityIndex := communityIndex st1;
               dbAvailable := dbAvailable st1 |})
       | _ => ({| requested := asked; returned := currentPost st1 |}, st1)
       end
  else ({| requested := asked; returned := currentPost st1 |}, st1).

Definition getCurrentPost (st : State) : option MoltbookPost := currentPost st.

(** [getPostContext()]. *)
Definition getPostContext (st : State) : jsstring :=
  match currentPost st with
  | None => []
  | Some post =>
      js "[MOLTBOOK SCREEN shows a post from u/" ++ username post ++ js ": "
      ++ [dquote] ++ title post ++ [dquote] ++ js " with " ++ ofZ (votes post)
      ++ js " upvotes]"
  end.

(** The public calls that give a post, one after the other. *)
Inductive Call :=
| GetLatestPost (now : Z) (feed : FeedAnswer)
                (db : Outcome (option DatabaseService.StoredPost))
| Refresh (db : Outcome (option DatabaseService.StoredPost)).

Definition call (c : Call) (st : State) : Reply * State :=
  match c with
  | GetLatestPost now feed db => getLatestPost now feed db st
  | Refresh db => refresh db st
  end.

Fixpoint calls (cs : list Call) (st : State) : list Reply * State :=
  match cs with
  | [] => ([], st)
  | c :: rest =>
      let '(r, st') := call c st in
      let '(rs, final) := calls rest st' in
      (r :: rs, final)
  end.

(** The addresses asked for, in order. *)
Definition requests (rs : list Reply) : list jsstring :=
  omap requested rs.

(** The [k]-th address of the rotation that starts at index [i]. *)
Definition rotation (i k : nat) : jsstring :=
  feedUrl (default (js "general")
                   (COMMUNITIES !! ((i + k) mod length COMMUNITIES)%nat)).

(** The call is made at a time [now] at which a fetch is due. *)
Definition fetchDue (now : Z) (st : State) : bool :=
  fetchInterval <? now - lastFetch st.

(** The feed's answer does not reach the end of [fetchPosts]. *)
Definition feedFails (withDb : bool) (feed : FeedAnswer) : bool :=
  match feed with
  | FeedPosts posts saved _ =>
      (0 <? length posts)%nat && withDb
      && match saved with Throws => true | Returns _ => false end
  | _ => true
  end.

(** The database gives no post: it answers null or the call throws. *)
Definition dbMiss (db : Outcome (option DatabaseService.StoredPost)) : bool :=
  match db with
  | Returns (Some _) => false
  | _ => true
  end.

Definition dbOf (c : Call) : Outcome (option DatabaseService.StoredPost) :=
  match c with
  | GetLatestPost _ _ db => db
  | Refresh db => db
  end.

(** A [getLatestPost()] made when a fetch is due and to which the feed's
    answer fails. *)
Definition duringOutage (st : State) (c : Call) : bool :=
  match c with
  | GetLatestPost now feed _ =>
      fetchDue now st && feedFails (dbAvailable st) feed
  | Refresh _ => false
  end.

(** A call made no later than [fetchInterval] after [lastFetch]. *)
Definition withinInterval (st : State) (c : Call) : bool :=
  match c with
  | GetLatestPost now _ _ => negb (fetchDue now st)
  | Refresh _ => true
  end.

(** The first statement of [getLatestPost()] on its own: the address asked
    for, if a fetch is due at [now], and the state after it. *)
Definition fetchIfDue (now : Z) (feed : FeedAnswer) (st : State)
  : option jsstring * State :=
  if fetchInterval <? now - lastFetch st
  then let '(community, st0) := getNextCommunity st in
       (Some (feedUrl (default (js "general") community)),
        snd (fetchPosts community feed st0))
  else (None, st).

(** [scrapeAllCommunities()]: [fetchPosts] on each community in turn, from
    the [k]-th request of the loop on; [feeds] gives the answer of the feed
    to each request.  [fetchPosts] catches what it meets, so the loop runs
    to its end.  The number of posts and the state after it. *)
Fixpoint scrapeFrom (k : nat) (communities : list jsstring)
         (feeds : nat -> FeedAnswer) (st : State) : Z * State :=
  match communities with
  | [] => (0, st)
  | community :: rest =>
      let '(posts, st1) := fetchPosts (Some community) (feeds k) st in
      let '(total, st2) := scrapeFrom (S k) rest feeds st1 in
      (Z.of_nat (length posts) + total, st2)
  end.

Definition scrapeAllCommunities (feeds : nat -> FeedAnswer) (st : State)
  : Z * State :=
  scrapeFrom 0 COMMUNITIES feeds st.

(** All the public calls that reach the feed or the post: those above, and
    [fetchPosts(community)] and [scrapeAllCommunities()], which the routes
    [GET /posts] and [POST /scrape-all] call on the same service. *)
Inductive PublicCall :=
| PostCall (c : Call)
| FetchPosts (community : jsstring) (feed : FeedAnswer)
| ScrapeAllCommunities (feeds : nat -> FeedAnswer).

(** A request to the feed, with the method that made it. *)
Inductive Asked :=
| ByGetLatestPost (address : jsstring)
| Directly (address : jsstring).

Definition publicCall (c : PublicCall) (st : State) : list Asked * State :=
  match c with
  | PostCall c =>
      let '(r, st') := call c st in
      (match requested r with
       | Some address => [ByGetLatestPost address]
       | None => []
       end, st')
  | FetchPosts community feed =>
      ([Directly (feedUrl community)],
       snd (fetchPosts (Some community) feed st))
  | ScrapeAllCommunities feeds =>
      (map (fun community => Directly (feedUrl community)) COMMUNITIES,
       snd (scrapeAllCommunities feeds st))
  end.

Fixpoint publicCalls (cs : list PublicCall) (st : State)
  : list Asked * State :=
  match cs with
  | [] => ([], st)
  | c :: rest =>
      let '(asked, st') := publicCall c st in
      let '(more, final) := publicCalls rest st' in
      (asked ++ more, final)
  end.

(** The addresses [getLatestPost()] asked for, in order. *)
Definition askedByGetLatestPost (l : list Asked) : list jsstring :=
  omap (fun a => match a with
                 | ByGetLatestPost address => Some address
                 | Directly _ => None
                 end) l.

(** A sample row of the database. *)
Definition stored : DatabaseService.StoredPost :=
  DatabaseService.row 7 0 None.

End MoltbookService.

(* ===================================================================== *)
(** ** Where the posts of a conversation come from *)
(* ===================================================================== *)

(** The post an answer of MoltbookService carries. *)
Definition carried (ans : Outcome (option MoltbookPost)) : list MoltbookPost :=
  match ans with
  | Returns (Some post) => [post]
  | _ => []
  end.

(** The posts MoltbookService answers with in a schedule, to
    [getLatestPost()] and to [refresh()]. *)
Definition arrived (e : Event) : list MoltbookPost :=
  match e with
  | LatestArrives _ ans => carried ans
  | RefreshArrives _ _ ans => carried ans
  | _ => []
  end.

Definition arrivals (es : list Event) : list MoltbookPost :=
  flat_map arrived es.

(** No post, or one of the known posts. *)
Definition among (known : list MoltbookPost) (p : option MoltbookPost) : Prop :=
  match p with
  | Some post => In post known
  | None => True
  end.

(** The post a suspended generation holds in [postForAI]. *)
Definition phasePost (ph : GenPhase) : option MoltbookPost :=
  match ph with
  | AwaitLatest _ => None
  | AwaitResponse _ postForAI _ _ _ => postForAI
  | AwaitAdvance postForAI _ _ => postForAI
  end.

Definition taskPost (t : Task) : option MoltbookPost :=
  match t with
  | TGen _ ph => phasePost ph
  | _ => None
  end.

Definition sourcedState (known : list MoltbookPost) (st : ConversationState)
  : Prop :=
  among known (lockedPost st)
  /\ forall d, pendingResponse st = Some d -> among known (newPost d).

(** Every post the service holds or has handed out is one of the known
    posts. *)
Record Sourced (known : list MoltbookPost) (c : Config) : Prop := {
  sourced_state : sourcedState known (svc c);
  sourced_tasks : Forall (fun t => among known (taskPost t)) (tasks c);
  sourced_delivered : Forall (fun d => among known (newPost d)) (delivered c)
}.

(* ===================================================================== *)
(** ** Restarts while a generation runs *)
(* ===================================================================== *)

(** [startConversation()] called a second time while the first generation
    awaits the backend, as by a client that loads the page anew; the
    second call learns its post at once. *)
Definition secondStart : list Event :=
  [ CallStart 1000; LatestArrives 0 (Returns (Some postX));
    CallStart 2000; LatestArrives 1 (Returns (Some postX)) ].

(** Then the backend answers the two generations, and the client polls. *)
Definition secondStartPolled : list Event :=
  secondStart
  ++ [ ResponseArrives 0 2500 (Returns (js "hello"));
       ResponseArrives 0 2600 (Returns (js "hello again"));
       CallNext 3000 ].

(** [stop()] and then a poll while the first generation awaits the
    backend: the poll finds the service inactive and starts it anew. *)
Definition stopThenPoll : list Event :=
  startThen 1000 (Some postX)
            [ CallStop; CallNext 5000; LatestArrives 1 (Returns (Some postY)) ].

(** The answers of the backend to the two generations then in flight. *)
Definition bothAnswers : list Event :=
  [ ResponseArrives 0 5500 (Returns (js "hello"));
    ResponseArrives 0 5600 (Returns (js "hello again")) ].

(** A service never started and polled twice: the generation the second
    poll starts learns its post, [postX], before the [startConversation()]
    of the first poll learns its own, [postY]. *)
Definition lateStart : list Event :=
  [ CallNext 1000; CallNext 1001;
    LatestArrives 1 (Returns (Some postX));
    LatestArrives 0 (Returns (Some postY)) ].

(** The events served beside a suspended generation that belong to the
    conversation it runs in: a poll of the active service, [stop()], the
    continuation of a poll.  The others are a [startConversation()], made
    by a route or by a poll of an inactive service, and the resumptions of
    generations. *)
Definition besideGeneration (c : Config) (e : Event) : bool :=
  match e with
  | CallNext _ => isActive (svc c)
  | CallStop => true
  | Continue _ => true
  | CallStart _ => false
  | LatestArrives _ _ => false
  | ResponseArrives _ _ _ => false
  | RefreshArrives _ _ _ => false
  end.

(* ===================================================================== *)
(** ** The string operations on sample inputs *)
(* ===================================================================== *)

Example trim_sample : trim (js "  hi there ") = js "hi there".
Proof. reflexivity. Qed.

Example cleanResponse_sample :
  cleanResponse (js " a[next_Post]b [NEXT_POST") = js "ab [NEXT_POST"
  /\ cleanResponse (js " [next_post] ") = [].
Proof. split; reflexivity. Qed.

Example removeSpans_sample :
  removeSpans (js "<think>") (js "</think>")
              (js "a<think>x<think>y</think>b</think>c<think>d")
  = js "ab</think>c<think>d".
Proof. reflexivity. Qed.

Example cleanContent_sample :
  cleanContent (js "<think>hm</think> **Agent 2:**  hi *there* ") = js "hi there"
  /\ cleanContent (js "agent 1:   x") = js "x"
  /\ cleanContent (js "***") = [].
Proof. repeat split; reflexivity. Qed.

Example buildCurrentPostContext_sample :
  buildCurrentPostContext (Some postY) false
  = js "@drifter: " ++ [dquote] ++ js "Today I learned" ++ [dquote; newline]
    ++ js "Queues are fair." ++ [newline] ++ js "(7 upvotes, 0 comments)".
Proof. reflexivity. Qed.

(* ===================================================================== *)
(** ** Properties: the history ledger *)
(* ===================================================================== *)

Section Ledger.
Context {A : Type}.
Implicit Types (l : list A) (n : nat).

Lemma sliceLast_short n l : (length l <= n)%nat -> sliceLast n l = l.
Proof.
  intros H. unfold sliceLast.
  replace (length l - n)%nat with 0%nat by lia. reflexivity.
Qed.

Lemma sliceLast_length n l :
  length (sliceLast n l) = Nat.min n (length l).
Proof. unfold sliceLast. rewrite length_drop. lia. Qed.

Lemma sliceLast_suffix n l : sliceLast n l `suffix_of` l.
Proof. unfold sliceLast. apply suffix_drop. Qed.

End Ledger.

(** The history a completed turn leaves. *)
Lemma completeTurn_history persona cleanText newPostForClient st :
  history (completeTurn persona cleanText newPostForClient st)
  = sliceLast 40
      (if nonEmpty cleanText
       then history st ++ [ {| entry_speaker := name persona;
                               entry_text := cleanText |} ]
       else history st).
Proof.
  unfold completeTurn.
  destruct (nonEmpty cleanText); simpl;
    match goal with
    | |- context [(40 <? length ?h)%nat] =>
        destruct (Nat.ltb_spec 40 (length h)) as [Hlt | Hle]
    end; simpl; try reflexivity;
    symmetry; apply sliceLast_short; exact Hle.
Qed.

Lemma completeTurn_history_capped persona cleanText newPostForClient st :
  (length (history (completeTurn persona cleanText newPostForClient st)) <= 40)%nat.
Proof. rewrite completeTurn_history, sliceLast_length. lia. Qed.

(* ===================================================================== *)
(** ** Properties: the segments of a generation *)
(* ===================================================================== *)

(** The fields a completed turn leaves. *)
Lemma completeTurn_fields persona cleanText newPostForClient st :
  let st' := completeTurn persona cleanText newPostForClient st in
  isGenerating st' = false
  /\ isActive st' = isActive st
  /\ turnCount st' = turnCount st + 1
  /\ pendingResponse st'
     = Some {| speaker := currentSpeaker st; speakerName := name persona;
               text := cleanText; turnNumber := turnCount st + 1;
               newPost := newPostForClient |}
  /\ currentSpeaker st' = otherSpeaker (currentSpeaker st)
  /\ lockedPost st' = lockedPost st
  /\ postShownAt st' = postShownAt st.
Proof.
  unfold completeTurn.
  destruct (nonEmpty cleanText); simpl;
    repeat match goal with
           | |- context [(40 <? ?n)%nat] => destruct (40 <? n)%nat
           end; simpl; repeat split; reflexivity.
Qed.

#[local] Arguments completeTurn : simpl never.

Lemma completeTurn_effect persona cleanText newPostForClient st :
  GenEffect st (completeTurn persona cleanText newPostForClient st) None.
Proof.
  destruct (completeTurn_fields persona cleanText newPostForClient st)
    as (Hg & Ha & Ht & Hp & Hs & _).
  eapply EffTurn; eauto using completeTurn_history_capped.
Qed.

Lemma finallyBlock_effect st : GenEffect st (finallyBlock st) None.
Proof. apply EffFail; reflexivity. Qed.

Lemma lockPost_core post st :
  isGenerating (lockPost post st) = isGenerating st
  /\ isActive (lockPost post st) = isActive st
  /\ turnCount (lockPost post st) = turnCount st
  /\ pendingResponse (lockPost post st) = pendingResponse st
  /\ currentSpeaker (lockPost post st) = currentSpeaker st
  /\ history (lockPost post st) = history st.
Proof. destruct post; repeat split; reflexivity. Qed.

Lemma resumeLatest_effect isFirstTurn ans st :
  GenEffect st (resumeLatest isFirstTurn ans st).1
            (resumeLatest isFirstTurn ans st).2.
Proof.
  destruct ans as [post |]; simpl.
  - destruct (lockPost_core post st) as (? & ? & ? & ? & ? & ?).
    apply EffSuspend; simpl; assumption.
  - apply finallyBlock_effect.
Qed.

Lemma resumeResponse_effect isFirstTurn postForAI persona now ans st :
  GenEffect st (resumeResponse isFirstTurn postForAI persona now ans st).1
            (resumeResponse isFirstTurn postForAI persona now ans st).2.
Proof.
  destruct ans as [raw |]; simpl.
  - destruct isFirstTurn; simpl.
    + apply completeTurn_effect.
    + destruct (isPostTimedOut now st); simpl.
      * apply EffSuspend; reflexivity.
      * apply completeTurn_effect.
  - apply finallyBlock_effect.
Qed.

Lemma advancePost_end_core now newPost st :
  isGenerating (advancePost_end now newPost st) = isGenerating st
  /\ isActive (advancePost_end now newPost st) = isActive st
  /\ turnCount (advancePost_end now newPost st) = turnCount st
  /\ pendingResponse (advancePost_end now newPost st) = pendingResponse st
  /\ currentSpeaker (advancePost_end now newPost st) = currentSpeaker st
  /\ history (advancePost_end now newPost st) = history st.
Proof. destruct newPost; repeat split; reflexivity. Qed.

Lemma resumeAdvance_effect persona cleanText now ans st :
  GenEffect st (resumeAdvance persona cleanText now ans st).1
            (resumeAdvance persona cleanText now ans st).2.
Proof.
  destruct ans as [newPost |]; simpl.
  - destruct (advancePost_end_core now newPost st) as (Hg & Ha & Ht & Hp & Hs & Hh).
    destruct (completeTurn_fields persona cleanText newPost
                (advancePost_end now newPost st)) as (Fg & Fa & Ft & Fp & Fs & _).
    eapply EffTurn; eauto using completeTurn_history_capped;
      cbn [turnNumber speaker]; congruence.
  - apply finallyBlock_effect.
Qed.

(** The call of [generateNextResponse]: nothing at all when a generation
    is running, otherwise the flag is raised and the call is suspended. *)
Lemma generateNextResponse_busy st :
  isGenerating st = true -> generateNextResponse st = (st, None).
Proof. intros H. unfold generateNextResponse. rewrite H. reflexivity. Qed.

Lemma generateNextResponse_idle st :
  isGenerating st = false ->
  exists st' ph,
    generateNextResponse st = (st', Some ph)
    /\ isGenerating st' = true
    /\ isActive st' = isActive st
    /\ turnCount st' = turnCount st
    /\ pendingResponse st' = pendingResponse st
    /\ currentSpeaker st' = currentSpeaker st
    /\ history st' = history st
    /\ lockedPost st' = lockedPost st
    /\ promptAgrees st' (TGen false ph).
Proof.
  intros H. unfold generateNextResponse. rewrite H. simpl.
  destruct (lockedPost st) eqn:L; simpl.
  - eexists _, _. split; [reflexivity |]. simpl. rewrite L.
    repeat split; reflexivity.
  - eexists _, _. split; [reflexivity |]. simpl.
    repeat split; try reflexivity. exact L.
Qed.

Lemma resumeLatest_prompt isFirstTurn post st :
  match (resumeLatest isFirstTurn (Returns post) st).2 with
  | Some ph =>
      promptAgrees (resumeLatest isFirstTurn (Returns post) st).1 (TGen false ph)
  | None => False
  end.
Proof. simpl. split; [reflexivity | exact I]. Qed.

Lemma resumeResponse_prompt isFirstTurn postForAI persona now ans st ph :
  postForAI = getLockedPost st ->
  (resumeResponse isFirstTurn postForAI persona now ans st).2 = Some ph ->
  promptAgrees (resumeResponse isFirstTurn postForAI persona now ans st).1
               (TGen false ph).
Proof.
  intros Hp. unfold resumeResponse.
  destruct ans as [raw |]; [| discriminate].
  destruct isFirstTurn; [discriminate |].
  destruct (isPostTimedOut now st); [| discriminate].
  cbn [fst snd]. intros [= <-]. simpl. split; [exact Hp | symmetry; exact Hp].
Qed.

Lemma resumeAdvance_over persona cleanText now ans st :
  (resumeAdvance persona cleanText now ans st).2 = None.
Proof. destruct ans; reflexivity. Qed.

(* ===================================================================== *)
(** ** Properties: the task pool *)
(* ===================================================================== *)

Lemma inFlight_flights c : inFlight c = flights (tasks c).
Proof. reflexivity. Qed.

Lemma flights_app l1 l2 : flights (l1 ++ l2) = (flights l1 + flights l2)%nat.
Proof. unfold flights. rewrite filter_app, length_app. reflexivity. Qed.

Lemma flights_cons t l :
  flights (t :: l) = ((if isGen t then 1 else 0) + flights l)%nat.
Proof.
  unfold flights. rewrite filter_cons.
  destruct (isGen t) eqn:E; case_decide; simpl; congruence.
Qed.

Lemma flights_delete l i t :
  l !! i = Some t ->
  flights l = ((if isGen t then 1 else 0) + flights (delete i l))%nat.
Proof.
  revert i. induction l as [| x l IH]; intros [| i] H; try discriminate.
  - injection H as ->. simpl. apply flights_cons.
  - simpl in H. change (delete (S i) (x :: l)) with (x :: delete i l).
    rewrite !flights_cons, (IH i H). lia.
Qed.

Lemma flights_genTasks awaited g :
  flights (genTasks awaited g) = match g with Some _ => 1%nat | None => 0%nat end.
Proof. destruct g, awaited; reflexivity. Qed.

(** With no generation in flight, every task of a steady pool is a poll
    waiting to go on. *)
Lemma grounded_prompt st l :
  flights l = 0%nat -> Forall (promptAgrees st) l.
Proof.
  induction l as [| t l IH]; intros H; constructor.
  - destruct t; simpl; try exact I.
    rewrite flights_cons in H. simpl in H. lia.
  - apply IH. rewrite flights_cons in H. lia.
Qed.

Lemma pollTask_genTasks awaited g : Forall pollTask (genTasks awaited g).
Proof. destruct g, awaited; repeat constructor. Qed.

Lemma exec_Step e c c' : exec e c = Some c' -> Step c e c'.
Proof.
  destruct e as [now | now | | i ans | i now ans | i now ans | i]; simpl.
  - intros [= <-]. constructor.
  - destruct (isActive (svc c)) eqn:A; intros [= <-]; constructor; assumption.
  - intros [= <-]. constructor.
  - destruct (tasks c !! i) as [[by_ | awaited [f | | ] | | ] |] eqn:T;
      try discriminate.
    + destruct ans as [post |].
      * destruct (startConversation_end post (svc c)) as [st g] eqn:E.
        intros [= <-].
        replace st with (startConversation_end post (svc c)).1 by (rewrite E; reflexivity).
        replace g with (startConversation_end post (svc c)).2 by (rewrite E; reflexivity).
        econstructor; eassumption.
      * intros [= <-]. econstructor; eassumption.
    + destruct (resumeLatest f ans (svc c)) as [st g] eqn:E.
      intros [= <-].
      change st with (st, g).1. change g with (st, g).2 at 2. rewrite <- E.
      apply (StepLatest c i awaited f ans T).
  - destruct (tasks c !! i) as [[by_ | awaited [ | f p pe h x | ] | | ] |] eqn:T;
      try discriminate.
    destruct (resumeResponse f p pe now ans (svc c)) as [st g] eqn:E.
    intros [= <-].
    change st with (st, g).1. change g with (st, g).2 at 2. rewrite <- E.
    apply (StepResponse c i awaited f p pe h x now ans T).
  - destruct (tasks c !! i) as [[by_ | awaited [ | | p pe t ] | | ] |] eqn:T;
      try discriminate.
    destruct (resumeAdvance pe t now ans (svc c)) as [st g] eqn:E.
    intros [= <-].
    change st with (st, g).1. change g with (st, g).2 at 2. rewrite <- E.
    apply (StepAdvance c i awaited p pe t now ans T).
  - destruct (tasks c !! i) as [[by_ | awaited ph | | ] |] eqn:T;
      try discriminate.
    + intros [= <-]. constructor; assumption.
    + destruct (pollAfterGeneration (svc c)) as [[st g] res] eqn:E.
      intros [= <-].
      pose proof (StepAfterGen c i T) as S. rewrite E in S. exact S.
Qed.

(* ===================================================================== *)
(** ** Properties: a started conversation that is only polled *)
(* ===================================================================== *)

Lemma otherSpeaker_speakerOfTurn n :
  otherSpeaker (speakerOfTurn n) = speakerOfTurn (n + 1).
Proof.
  unfold speakerOfTurn. change (n + 1) with (Z.succ n).
  rewrite Z.odd_succ, <- Z.negb_odd. destruct (Z.odd n); reflexivity.
Qed.

Lemma delivered_line st l rs r :
  delivered {| svc := st; tasks := l; replies := rs ++ [Line r] |}
  = omap (fun r => match r with Line d => Some d | Waiting => None end) rs ++ [r].
Proof. unfold delivered. simpl. rewrite omap_app. reflexivity. Qed.

Lemma delivered_waiting st l rs :
  delivered {| svc := st; tasks := l; replies := rs ++ [Waiting] |}
  = omap (fun r => match r with Line d => Some d | Waiting => None end) rs.
Proof. unfold delivered. simpl. rewrite omap_app. simpl. apply app_nil_r. Qed.

Lemma seq_numbers_snoc n :
  map Z.of_nat (seq 1 (S n)) = map Z.of_nat (seq 1 n) ++ [Z.of_nat n + 1].
Proof.
  rewrite seq_S, map_app. simpl. f_equal. f_equal. lia.
Qed.

Section SteadySteps.
Variable c : Config.
Hypothesis S : Steady c.

Let busy_of_flight i awaited ph :
  tasks c !! i = Some (TGen awaited ph) ->
  isGenerating (svc c) = true /\ flights (delete i (tasks c)) = 0%nat.
Proof.
  intros T. pose proof (steady_flight c S) as F.
  rewrite inFlight_flights, (flights_delete _ _ _ T) in F. simpl in F.
  destruct (isGenerating (svc c)); split; try reflexivity; lia.
Qed.

(** A segment of the generation in flight. *)
Lemma steady_gen i awaited ph r :
  tasks c !! i = Some (TGen awaited ph) ->
  GenEffect (svc c) r.1 r.2 ->
  (forall ph', r.2 = Some ph' -> promptAgrees r.1 (TGen false ph')) ->
  Steady (genStep c i awaited r).
Proof.
  intros T E P.
  destruct (busy_of_flight i awaited ph T) as [G F0].
  pose proof (steady_exclusive c S G) as Pn.
  destruct S as [Sa St Sf Sx Sn Sc Sp Ss Sd Sq Sh].
  assert (Hrest : Forall pollTask (delete i (tasks c)))
    by (apply Forall_delete; assumption).
  unfold pendingCount in Sc. rewrite Pn in Sc.
  destruct r as [st' g]. cbn [fst snd] in *.
  inversion E as [st1 ph1 Eg Ea Et Ep Es Eh
                 | st1 Eg Ea Et Ep Es Eh El
                 | st1 d Eg Ea Et Ep En Ed Es Eh]; subst;
    constructor; unfold genStep, pendingCount; cbn [svc tasks replies fst snd];
    change (delivered {| svc := st'; tasks := _; replies := replies c |})
      with (delivered c);
    rewrite ?inFlight_flights; cbn [svc tasks replies];
    rewrite ?flights_app, ?flights_genTasks, ?F0, ?Eg, ?G;
    try congruence; try reflexivity; try assumption;
    try (apply Forall_app; split;
         [assumption || (apply grounded_prompt; assumption) |];
         first [ apply pollTask_genTasks
               | constructor; [exact (P _ eq_refl) | constructor]
               | destruct awaited; repeat constructor ]);
    rewrite ?Ep, ?Pn; try lia.
  - intros d' [= <-]. split; [lia |]. rewrite Ed, Ss, En. reflexivity.
  - rewrite Es, Ss, Et. apply otherSpeaker_speakerOfTurn.
Qed.

(** The pools a poll may leave behind: the pool itself, or the pool
    without the poll that goes on. *)
Variable rest : list Task.
Hypothesis rest_poll : Forall pollTask rest.
Hypothesis rest_flights : flights rest = flights (tasks c).
Hypothesis rest_prompt : Forall (promptAgrees (svc c)) rest.

Lemma rest_idle : isGenerating (svc c) = false -> flights rest = 0%nat.
Proof.
  intros G. rewrite rest_flights, <- inFlight_flights, (steady_flight c S), G.
  reflexivity.
Qed.

(** Nothing is ready and a generation is running: "waiting". *)
Lemma steady_wait :
  Steady {| svc := svc c; tasks := rest ++ []; replies := replies c ++ [Waiting] |}.
Proof.
  destruct S as [Sa St Sf Sx Sn Sc Sp Ss Sd Sq Sh].
  rewrite app_nil_r.
  constructor; rewrite ?delivered_waiting; cbn [svc tasks replies];
    fold (delivered c); try assumption.
  rewrite inFlight_flights. cbn [tasks]. rewrite rest_flights. exact Sf.
Qed.

(** The pending turn is handed over and the next generation started. *)
Lemma steady_pop response :
  pendingResponse (svc c) = Some response ->
  Steady {| svc := (generateNextResponse (set_pendingResponse None (svc c))).1;
            tasks := rest ++ genTasks false
                       (generateNextResponse (set_pendingResponse None (svc c))).2;
            replies := replies c ++ [Line response] |}.
Proof.
  intros Hp.
  assert (G : isGenerating (svc c) = false).
  { destruct (isGenerating (svc c)) eqn:G; [| reflexivity].
    rewrite (steady_exclusive c S G) in Hp. discriminate. }
  pose proof (rest_idle G) as F0.
  destruct (steady_pending c S _ Hp) as [Hn Hs].
  destruct S as [Sa St Sf Sx Sn Sc Sp Ss Sd Sq Sh].
  unfold pendingCount in Sc. rewrite Hp in Sc.
  destruct (generateNextResponse_idle (set_pendingResponse None (svc c)) G)
    as (st' & ph & -> & Ig & Ia & It & Ip & Is & Ih & Il & Iq).
  cbn [fst snd] in *. simpl in Ia, It, Ip, Is, Ih.
  constructor; rewrite ?delivered_line; unfold pendingCount;
    cbn [svc tasks replies genTasks]; fold (delivered c);
    rewrite ?inFlight_flights; cbn [tasks];
    rewrite ?flights_app, ?F0, ?Ig, ?Ip, ?length_app, ?map_app;
    try congruence; try reflexivity; try assumption.
  - apply Forall_app; split; [assumption | repeat constructor].
  - simpl length. rewrite Nat.add_1_r, seq_numbers_snoc, <- Sn.
    simpl. f_equal. f_equal. lia.
  - simpl length. lia.
  - apply Forall_app; split; [assumption | repeat constructor; assumption].
  - apply Forall_app; split; [apply grounded_prompt; assumption |].
    constructor; [exact Iq | constructor].
Qed.

(** Nothing is ready and nothing runs: a generation is started and
    awaited. *)
Lemma steady_kick :
  pendingResponse (svc c) = None ->
  isGenerating (svc c) = false ->
  Steady {| svc := (generateNextResponse (svc c)).1;
            tasks := rest ++ genTasks true (generateNextResponse (svc c)).2;
            replies := replies c |}.
Proof.
  intros Hp G.
  pose proof (rest_idle G) as F0.
  destruct S as [Sa St Sf Sx Sn Sc Sp Ss Sd Sq Sh].
  destruct (generateNextResponse_idle (svc c) G)
    as (st' & ph & -> & Ig & Ia & It & Ip & Is & Ih & Il & Iq).
  cbn [fst snd] in *.
  constructor; unfold pendingCount;
    cbn [svc tasks replies genTasks];
    change (delivered {| svc := st'; tasks := _; replies := replies c |})
      with (delivered c);
    rewrite ?inFlight_flights; cbn [tasks];
    rewrite ?flights_app, ?F0, ?Ig, ?Ip;
    try congruence; try reflexivity; try assumption.
  - apply Forall_app; split; [assumption | repeat constructor].
  - rewrite It, Sc. unfold pendingCount. reflexivity.
  - apply Forall_app; split; [apply grounded_prompt; assumption |].
    constructor; [exact Iq | constructor].
Qed.

Lemma steady_pollBody : Steady (afterPollBody c rest (pollBody (svc c))).
Proof.
  unfold pollBody.
  destruct (pendingResponse (svc c)) as [response |] eqn:Hp.
  - pose proof (steady_pop response Hp) as P.
    destruct (generateNextResponse (set_pendingResponse None (svc c))) as [st g].
    exact P.
  - destruct (isGenerating (svc c)) eqn:G.
    + exact steady_wait.
    + pose proof (steady_kick Hp G) as K.
      destruct (generateNextResponse (svc c)) as [st g]. exact K.
Qed.

Lemma steady_pollAfterGeneration :
  Steady {| svc := (pollAfterGeneration (svc c)).1.1;
            tasks := rest ++ genTasks false (pollAfterGeneration (svc c)).1.2;
            replies := replies c ++ [(pollAfterGeneration (svc c)).2] |}.
Proof.
  unfold pollAfterGeneration.
  destruct (pendingResponse (svc c)) as [response |] eqn:Hp.
  - pose proof (steady_pop response Hp) as P.
    destruct (generateNextResponse (set_pendingResponse None (svc c))) as [st g].
    exact P.
  - exact steady_wait.
Qed.
End SteadySteps.

Lemma pollTask_lookup l i t : Forall pollTask l -> l !! i = Some t -> pollTask t.
Proof. intros H T. exact (proj1 (Forall_lookup _ _) H i t T). Qed.

Lemma steady_step c e c' :
  Steady c -> pollEvent e = true -> Step c e c' -> Steady c'.
Proof.
  intros S Hp St.
  destruct St as [ now | | now A | now A | i by_ T | i by_ post T
                 | i awaited f ans T | i awaited f p pe h x now ans T
                 | i awaited p pe t now ans T | i T | i T ];
    try discriminate;
    try (pose proof (pollTask_lookup _ _ _ (steady_tasks c S) T) as B;
         contradiction).
  - rewrite (steady_active c S) in A. discriminate.
  - apply steady_pollBody;
      [assumption | apply (steady_tasks c S) | reflexivity | apply (steady_prompt c S)].
  - apply (steady_gen c S i awaited _ _ T (resumeLatest_effect f ans (svc c))).
    intros ph' E. destruct ans as [post |]; [| discriminate].
    pose proof (resumeLatest_prompt f post (svc c)) as Q.
    rewrite E in Q. exact Q.
  - apply (steady_gen c S i awaited _ _ T
             (resumeResponse_effect f p pe now ans (svc c))).
    intros ph' E. apply resumeResponse_prompt; [| exact E].
    exact (proj1 (proj1 (Forall_lookup _ _) (steady_prompt c S) i _ T)).
  - apply (steady_gen c S i awaited _ _ T
             (resumeAdvance_effect pe t now ans (svc c))).
    intros ph' E. rewrite resumeAdvance_over in E. discriminate.
  - apply steady_pollAfterGeneration.
    + assumption.
    + apply Forall_delete, (steady_tasks c S).
    + rewrite (flights_delete _ _ _ T). reflexivity.
    + apply Forall_delete, (steady_prompt c S).
Qed.

Lemma steady_run es : forall c c',
  Steady c -> forallb pollEvent es = true -> run es c = Some c' -> Steady c'.
Proof.
  induction es as [| e es IH]; intros c c' S Hp R; simpl in *.
  - injection R as <-. exact S.
  - apply andb_prop in Hp as [He Hes].
    destruct (exec e c) as [c1 |] eqn:E; [| discriminate].
    apply (IH c1 c'); [| assumption | assumption].
    apply (steady_step c e c1 S He). apply exec_Step. exact E.
Qed.

Lemma run_start now initialPost :
  run [CallStart now; LatestArrives 0 (Returns initialPost)] fresh
  = Some (started now initialPost).
Proof. destruct initialPost; reflexivity. Qed.

Lemma steady_started now initialPost : Steady (started now initialPost).
Proof.
  destruct initialPost; constructor; simpl;
    try reflexivity; try discriminate; try lia;
    repeat constructor.
Qed.

Lemma steady_reachable now initialPost es c :
  forallb pollEvent es = true ->
  run (CallStart now :: LatestArrives 0 (Returns initialPost) :: es) fresh = Some c ->
  Steady c.
Proof.
  intros Hp R.
  change (CallStart now :: LatestArrives 0 (Returns initialPost) :: es)
    with ([CallStart now; LatestArrives 0 (Returns initialPost)] ++ es) in R.
  assert (R' : run es (started now initialPost) = Some c).
  { destruct initialPost; exact R. }
  exact (steady_run es _ _ (steady_started now initialPost) Hp R').
Qed.

(* ===================================================================== *)
(** ** Properties: a service that is only polled *)
(* ===================================================================== *)

(** A call of [generateNextResponse] adds a generation exactly when it
    raises the flag. *)
Lemma generateNextResponse_balance awaited st :
  running (generateNextResponse st).1
  = (running st + flights (genTasks awaited (generateNextResponse st).2))%nat
  /\ isActive (generateNextResponse st).1 = isActive st.
Proof.
  unfold running. destruct (isGenerating st) eqn:G.
  - rewrite (generateNextResponse_busy st G). simpl. rewrite G.
    destruct awaited; split; reflexivity.
  - destruct (generateNextResponse_idle st G)
      as (st' & ph & -> & Ig & Ia & _).
    simpl. rewrite Ig. destruct awaited; split; auto.
Qed.

Lemma GenEffect_balance st st' g awaited :
  GenEffect st st' g ->
  isGenerating st = true ->
  running st' = flights (genTasks awaited g) /\ isActive st' = isActive st.
Proof.
  intros E G. unfold running.
  destruct E as [st' ph Eg Ea | st' Eg Ea | st' d Eg Ea]; rewrite Eg, ?G;
    destruct awaited; split; auto.
Qed.

Section GuardedSteps.
Variable c : Config.
Hypothesis H : Guarded c.

Lemma guarded_gen i awaited ph r :
  tasks c !! i = Some (TGen awaited ph) ->
  GenEffect (svc c) r.1 r.2 ->
  Guarded (genStep c i awaited r).
Proof.
  intros T E.
  pose proof (guarded_flight c H) as F.
  rewrite inFlight_flights, (flights_delete _ _ _ T) in F. simpl in F.
  assert (G : isGenerating (svc c) = true)
    by (destruct (isGenerating (svc c)); [reflexivity | lia]).
  rewrite G in F.
  destruct (GenEffect_balance _ _ _ awaited E G) as [B A].
  assert (Act : isActive (svc c) = true).
  { destruct (isActive (svc c)) eqn:Ac; [reflexivity |].
    destruct (guarded_idle c H Ac) as [Tn _]. rewrite Tn in T. discriminate. }
  constructor; unfold genStep; cbn [svc tasks].
  - rewrite inFlight_flights. cbn [tasks].
    rewrite flights_app, <- B. unfold running.
    destruct (isGenerating r.1); lia.
  - rewrite A, Act. discriminate.
Qed.

Variable rest : list Task.
Hypothesis rest_flights : flights rest = flights (tasks c).
Hypothesis active : isActive (svc c) = true.

Lemma guarded_call awaited st rs :
  isGenerating st = isGenerating (svc c) ->
  isActive st = isActive (svc c) ->
  Guarded {| svc := (generateNextResponse st).1;
             tasks := rest ++ genTasks awaited (generateNextResponse st).2;
             replies := rs |}.
Proof.
  intros Eg Ea.
  destruct (generateNextResponse_balance awaited st) as [B A].
  pose proof (guarded_flight c H) as F. rewrite inFlight_flights in F.
  constructor; cbn [svc tasks].
  - rewrite inFlight_flights. cbn [tasks].
    rewrite flights_app, rest_flights, F.
    unfold running in B. rewrite Eg in B. rewrite <- B. reflexivity.
  - rewrite A, Ea, active. discriminate.
Qed.

Lemma guarded_same rs :
  Guarded {| svc := svc c; tasks := rest ++ []; replies := rs |}.
Proof.
  rewrite app_nil_r. constructor; cbn [svc tasks].
  - rewrite inFlight_flights. cbn [tasks]. rewrite rest_flights.
    rewrite <- inFlight_flights. apply (guarded_flight c H).
  - rewrite active. discriminate.
Qed.

Lemma guarded_pollBody : Guarded (afterPollBody c rest (pollBody (svc c))).
Proof.
  unfold pollBody.
  destruct (pendingResponse (svc c)) as [response |].
  - pose proof (guarded_call false (set_pendingResponse None (svc c))
                  (replies c ++ [Line response]) eq_refl eq_refl) as P.
    destruct (generateNextResponse (set_pendingResponse None (svc c))).
    exact P.
  - destruct (isGenerating (svc c)) eqn:G.
    + apply guarded_same.
    + pose proof (guarded_call true (svc c) (replies c) eq_refl eq_refl) as P.
      destruct (generateNextResponse (svc c)). exact P.
Qed.

Lemma guarded_pollAfterGeneration :
  Guarded {| svc := (pollAfterGeneration (svc c)).1.1;
             tasks := rest ++ genTasks false (pollAfterGeneration (svc c)).1.2;
             replies := replies c ++ [(pollAfterGeneration (svc c)).2] |}.
Proof.
  unfold pollAfterGeneration.
  destruct (pendingResponse (svc c)) as [response |].
  - pose proof (guarded_call false (set_pendingResponse None (svc c))
                  (replies c ++ [Line response]) eq_refl eq_refl) as P.
    destruct (generateNextResponse (set_pendingResponse None (svc c))).
    exact P.
  - apply guarded_same.
Qed.
End GuardedSteps.

Lemma guarded_active_of_task c i t :
  Guarded c -> tasks c !! i = Some t -> isActive (svc c) = true.
Proof.
  intros H T. destruct (isActive (svc c)) eqn:A; [reflexivity |].
  destruct (guarded_idle c H A) as [Tn _]. rewrite Tn in T. discriminate.
Qed.

Lemma guarded_step c e c' :
  Guarded c -> pollEvent e = true -> Step c e c' -> Guarded c'.
Proof.
  intros H Hp St.
  destruct St as [ now | | now A | now A | i by_ T | i by_ post T
                 | i awaited f ans T | i awaited f p pe h x now ans T
                 | i awaited p pe t now ans T | i T | i T ];
    try discriminate.
  - destruct (guarded_idle c H A) as [Tn G].
    constructor; cbn [svc tasks]; [| discriminate].
    rewrite inFlight_flights. cbn [tasks]. rewrite Tn. reflexivity.
  - apply guarded_pollBody; [assumption | reflexivity | assumption].
  - pose proof (guarded_active_of_task c i _ H T) as A.
    constructor; cbn [svc tasks].
    + rewrite inFlight_flights. cbn [tasks].
      pose proof (guarded_flight c H) as F.
      rewrite inFlight_flights, (flights_delete _ _ _ T) in F. exact F.
    + rewrite A. discriminate.
  - pose proof (guarded_active_of_task c i _ H T) as A.
    unfold startConversation_end.
    assert (Eg : isGenerating (lockPost post (svc c)) = isGenerating (svc c))
      by (destruct post; reflexivity).
    assert (Ea : isActive (lockPost post (svc c)) = isActive (svc c))
      by (destruct post; reflexivity).
    destruct (generateNextResponse_balance false (lockPost post (svc c))) as [B A'].
    pose proof (guarded_flight c H) as F.
    rewrite inFlight_flights, (flights_delete _ _ _ T) in F. simpl in F.
    constructor; cbn [svc tasks].
    + rewrite inFlight_flights. cbn [tasks].
      rewrite !flights_app. unfold running in B. rewrite Eg in B.
      rewrite <- F in B. rewrite B.
      destruct by_; rewrite ?flights_cons; change (flights []) with 0%nat;
        cbn [isGen]; lia.
    + rewrite A', Ea, A. discriminate.
  - apply (guarded_gen c H i awaited _ _ T (resumeLatest_effect f ans (svc c))).
  - apply (guarded_gen c H i awaited _ _ T
             (resumeResponse_effect f p pe now ans (svc c))).
  - apply (guarded_gen c H i awaited _ _ T
             (resumeAdvance_effect pe t now ans (svc c))).
  - apply guarded_pollBody;
      [assumption | rewrite (flights_delete _ _ _ T); reflexivity
      | exact (guarded_active_of_task c i _ H T)].
  - apply guarded_pollAfterGeneration;
      [assumption | rewrite (flights_delete _ _ _ T); reflexivity
      | exact (guarded_active_of_task c i _ H T)].
Qed.

Lemma guarded_fresh : Guarded fresh.
Proof. constructor; simpl; auto. Qed.

Lemma guarded_run es : forall c c',
  Guarded c -> forallb pollEvent es = true -> run es c = Some c' -> Guarded c'.
Proof.
  induction es as [| e es IH]; intros c c' H Hp R; simpl in *.
  - injection R as <-. exact H.
  - apply andb_prop in Hp as [He Hes].
    destruct (exec e c) as [c1 |] eqn:E; [| discriminate].
    apply (IH c1 c'); [| assumption | assumption].
    apply (guarded_step c e c1 H He). apply exec_Step. exact E.
Qed.

(* ===================================================================== *)
(** ** Properties: one generation cycle *)
(* ===================================================================== *)

Lemma cycle_outcome a st :
  isGenerating st = false ->
  (generationCycle a st).2 = true
  /\ isGenerating (generationCycle a st).1 = false
  /\ isActive (generationCycle a st).1 = isActive st
  /\ if cycleThrows a st then
       turnCount (generationCycle a st).1 = turnCount st
       /\ pendingResponse (generationCycle a st).1 = pendingResponse st
       /\ history (generationCycle a st).1 = history st
       /\ currentSpeaker (generationCycle a st).1 = currentSpeaker st
     else
       exists raw,
         response a = Returns raw
         /\ pendingResponse (generationCycle a st).1 = Some (cycleTurn a st raw)
         /\ turnCount (generationCycle a st).1 = turnCount st + 1
         /\ history (generationCycle a st).1 = cycleHistory st raw
         /\ currentSpeaker (generationCycle a st).1
            = otherSpeaker (currentSpeaker st).
Proof.
  intros G.
  unfold generationCycle, cycleThrows, generateNextResponse.
  rewrite G. cbn [isGenerating set_isGenerating turnCount lockedPost].
  unfold cycleTurn, cycleNewPost, cycleHistory, lockedForCycle.
  destruct a as [la ra rat fa fat]. cbn [latest response responseAt refreshed refreshedAt].
  destruct (lockedPost st) as [p0 |] eqn:L;
    [| destruct la as [[p1 |] |]];
    destruct ra as [raw |];
    destruct (turnCount st =? 0) eqn:T0;
    cbn -[completeTurn cleanResponse sliceLast Z.add];
    rewrite ?T0, ?L;
    cbn -[completeTurn cleanResponse sliceLast Z.add];
    unfold isPostTimedOut; cbn -[completeTurn cleanResponse sliceLast Z.add];
    try (destruct (postShownAt st) as [shown |];
         [ destruct (shown =? 0); [| destruct (POST_TIMEOUT_MS <=? rat - shown)] |];
         cbn -[completeTurn cleanResponse sliceLast Z.add];
         try (destruct fa as [[p2 |] |];
              cbn -[completeTurn cleanResponse sliceLast Z.add]));
    repeat match goal with
      | |- context [completeTurn ?pe ?t ?np ?s] =>
          let F := fresh "F" in
          let Hh := fresh "Hh" in
          pose proof (completeTurn_fields pe t np s) as F;
          pose proof (completeTurn_history pe t np s) as Hh;
          cbv zeta in F;
          destruct F as (? & ? & ? & ? & ? & ? & ?);
          generalize dependent (completeTurn pe t np s); intros
      end;
    cbn -[cleanResponse sliceLast Z.add] in *;
    repeat split; try assumption; try reflexivity;
    try (eexists; repeat split; try reflexivity; eassumption).
Qed.

(* ===================================================================== *)
(** ** A conversation started once and only polled *)
(* ===================================================================== *)



Lemma steady_startThen now initialPost es c :
  forallb pollEvent es = true ->
  run (startThen now initialPost es) fresh = Some c ->
  Steady c.
Proof. apply steady_reachable. Qed.

(** While the generation of a started conversation runs, a poll changes
    nothing in the state and answers "waiting". *)
Lemma steady_poll_waits c now :
  Steady c -> isGenerating (svc c) = true ->
  exec (CallNext now) c
  = Some {| svc := svc c; tasks := tasks c ++ [];
            replies := replies c ++ [Waiting] |}.
Proof.
  intros S G. simpl. rewrite (steady_active c S).
  unfold pollBody. rewrite (steady_exclusive c S G), G. reflexivity.
Qed.

(** So the segments of its generation find the state as the segment before
    left it, and [generationCycle] tells what the cycle does in the loop:
    of the events of a poll, only the resumptions of the generation change
    the state. *)
Lemma steady_undisturbed c e c' :
  Steady c -> isGenerating (svc c) = true -> exec e c = Some c' ->
  match e with
  | CallNext _ | Continue _ => svc c' = svc c
  | _ => True
  end.
Proof.
  intros S G E. destruct e as [ | now | | | | | i]; try exact I.
  - rewrite (steady_poll_waits c now S G) in E. injection E as <-. reflexivity.
  - simpl in E.
    destruct (tasks c !! i) as [t |] eqn:T; [| discriminate].
    pose proof (pollTask_lookup _ _ _ (steady_tasks c S) T) as B.
    destruct t; try contradiction; try discriminate.
    unfold pollAfterGeneration in E.
    rewrite (steady_exclusive c S G) in E. injection E as <-. reflexivity.
Qed.

(** A service never started and polled twice at once: the second poll
    starts the generation, the [startConversation] of the first finds it
    running. *)
Example early_polls_one_generation :
  match run twoEarlyPolls fresh with
  | Some c => inFlight c = 1%nat /\ map turnNumber (delivered c) = [1]
  | None => False
  end.
Proof. vm_compute. split; reflexivity. Qed.

(** The schedules of polls are the scope of the invariants.  [stop()]
    followed by a poll while a generation runs replaces the state, flag
    included, and a second generation starts beside the first. *)
Example restart_during_generation :
  match run (startThen 1000 (Some postX)
               [CallStop; CallNext 5000; LatestArrives 1 (Returns (Some postY))])
            fresh with
  | Some c => inFlight c = 2%nat
  | None => False
  end.
Proof. vm_compute. reflexivity. Qed.

Lemma delivered_numbered c :
  Steady c ->
  forall i d, delivered c !! i = Some d -> turnNumber d = Z.of_nat i + 1.
Proof.
  intros S i d Hd. pose proof (steady_numbers c S) as N.
  assert (L : map turnNumber (delivered c) !! i = Some (turnNumber d))
    by (rewrite list_lookup_fmap, Hd; reflexivity).
  rewrite N, list_lookup_fmap in L.
  destruct (seq 1 (length (delivered c)) !! i) as [k |] eqn:K; [| discriminate].
  apply lookup_seq in K as [-> _]. injection L as <-. lia.
Qed.

(** X27.  On a fresh service, after the first [startConversation()] has
    been answered and under every schedule of polls (no [stop()], no
    further start), however the polls interleave with the generations, the
    turns handed out are numbered 1, 2, 3, ...: the turn delivered at
    position [i] (from 0) has [turnNumber] [i + 1].  No turn is lost on the
    way: the turns generated so far are the ones delivered and the one
    pending, if any. *)
Theorem first_start_turn_numbers_consecutive
        (now : Z) (initialPost : option MoltbookPost) (es : list Event)
        (c : Config) :
  forallb pollEvent es = true ->
  run (startThen now initialPost es) fresh = Some c ->
  map turnNumber (delivered c) = map Z.of_nat (seq 1 (length (delivered c)))
  /\ (forall i d, delivered c !! i = Some d -> turnNumber d = Z.of_nat i + 1)
  /\ turnCount (svc c) = Z.of_nat (length (delivered c)) + pendingCount (svc c).
Proof.
  intros Hp R.
  pose proof (steady_startThen now initialPost es c Hp R) as S.
  split; [exact (steady_numbers c S) |].
  split; [exact (delivered_numbered c S) | exact (steady_count c S)].
Qed.

Lemma first_start_turn_numbers_consecutive_witness :
  let c := default fresh (run (startThen 1000 (Some postX) threeTurns) fresh) in
  (forallb pollEvent threeTurns = true
   /\ run (startThen 1000 (Some postX) threeTurns) fresh = Some c)
  /\ map turnNumber (delivered c) = [1; 2; 3]
  /\ (map turnNumber (delivered c) = map Z.of_nat (seq 1 (length (delivered c)))
      /\ (forall i d, delivered c !! i = Some d -> turnNumber d = Z.of_nat i + 1)
      /\ turnCount (svc c) = Z.of_nat (length (delivered c)) + pendingCount (svc c)).
Proof.
  intros c.
  split; [split; [reflexivity | vm_compute; reflexivity] |].
  split; [vm_compute; reflexivity |].
  apply (first_start_turn_numbers_consecutive 1000 (Some postX) threeTurns c);
    [reflexivity | vm_compute; reflexivity].
Defined.

(** X28.  On a fresh service, after the first [startConversation()] has
    been answered and under every schedule of polls (no [stop()], no
    further start), the first turn handed out is spoken by the initial
    speaker of [getInitialState], and of two turns handed out one after the
    other the second is spoken by the other speaker. *)
Theorem first_start_speakers_alternate
        (now : Z) (initialPost : option MoltbookPost) (es : list Event)
        (c : Config) :
  forallb pollEvent es = true ->
  run (startThen now initialPost es) fresh = Some c ->
  (forall d, delivered c !! 0%nat = Some d ->
             speaker d = currentSpeaker getInitialState)
  /\ (forall i a b,
        delivered c !! i = Some a -> delivered c !! S i = Some b ->
        speaker b = otherSpeaker (speaker a)).
Proof.
  intros Hp R.
  pose proof (steady_startThen now initialPost es c Hp R) as S.
  pose proof (delivered_numbered c S) as N.
  pose proof (steady_speakers c S) as Sp.
  assert (Q : forall i d, delivered c !! i = Some d ->
                          speaker d = speakerOfTurn (Z.of_nat i + 1)).
  { intros i d Hd. rewrite <- (N i d Hd).
    exact (proj1 (Forall_lookup _ _) Sp i d Hd). }
  split.
  - intros d Hd. rewrite (Q _ _ Hd). reflexivity.
  - intros i a b Ha Hb. rewrite (Q _ _ Ha), (Q _ _ Hb).
    rewrite otherSpeaker_speakerOfTurn. f_equal. lia.
Qed.

Lemma first_start_speakers_alternate_witness :
  let c := default fresh (run (startThen 1000 (Some postX) threeTurns) fresh) in
  (forallb pollEvent threeTurns = true
   /\ run (startThen 1000 (Some postX) threeTurns) fresh = Some c)
  /\ map speaker (delivered c) = [boss; girl; boss]
  /\ (forall d, delivered c !! 0%nat = Some d ->
                speaker d = currentSpeaker getInitialState)
  /\ (forall i a b,
        delivered c !! i = Some a -> delivered c !! S i = Some b ->
        speaker b = otherSpeaker (speaker a)).
Proof.
  intros c.
  split; [split; [reflexivity | vm_compute; reflexivity] |].
  split; [vm_compute; reflexivity |].
  apply (first_start_speakers_alternate 1000 (Some postX) threeTurns c);
    [reflexivity | vm_compute; reflexivity].
Defined.

(** What a segment leaves of the lock. *)
Lemma resumeWith_lock a ph st postForAI :
  promptPost ph = Some postForAI ->
  postForAI = getLockedPost st ->
  getLockedPost (resumeWith a ph st).1
  = match ph, refreshed a with
    | AwaitAdvance _ _ _, Returns (Some newPost) => Some newPost
    | _, _ => postForAI
    end.
Proof.
  intros P ->. destruct ph as [f | f p pe h x | p pe t]; simpl in *.
  - discriminate.
  - unfold resumeResponse. destruct (response a) as [raw |]; [| reflexivity].
    destruct f; cbn [fst].
    + apply (completeTurn_fields pe (cleanResponse raw) p st).
    + destruct (isPostTimedOut (responseAt a) st); cbn [fst].
      * reflexivity.
      * apply (completeTurn_fields pe (cleanResponse raw) None st).
  - unfold resumeAdvance. destruct (refreshed a) as [[np |] |]; cbn [fst].
    + unfold getLockedPost.
      rewrite (proj1 (proj2 (proj2 (proj2 (proj2 (proj2
                 (completeTurn_fields pe t (Some np)
                    (advancePost_end (refreshedAt a) (Some np) st)))))))).
      reflexivity.
    + unfold getLockedPost.
      rewrite (proj1 (proj2 (proj2 (proj2 (proj2 (proj2
                 (completeTurn_fields pe t None
                    (advancePost_end (refreshedAt a) None st)))))))).
      reflexivity.
    + reflexivity.
Qed.

(** X29.  On a fresh service, after the first [startConversation()] has
    been answered and under every schedule of polls (no [stop()], no
    further start), a generation suspended after it has built its prompt
    finds the locked post equal to the post the prompt was built from, and
    the second read of the locked post, made by [advancePost] for
    [previousPost], returned that same post.  The segment that follows
    leaves the locked post as it is, unless it is the return of
    [advancePost] with a new post; then the locked post is the new one. *)
Theorem first_start_prompt_post_locked
        (now : Z) (initialPost : option MoltbookPost) (es : list Event)
        (c : Config) (i : nat) (awaited : bool) (ph : GenPhase)
        (postForAI : option MoltbookPost) (a : CycleAnswers) :
  forallb pollEvent es = true ->
  run (startThen now initialPost es) fresh = Some c ->
  tasks c !! i = Some (TGen awaited ph) ->
  promptPost ph = Some postForAI ->
  postForAI = getLockedPost (svc c)
  /\ match ph with
     | AwaitAdvance _ _ _ => previousPost (svc c) = postForAI
     | _ => True
     end
  /\ getLockedPost (resumeWith a ph (svc c)).1
     = match ph, refreshed a with
       | AwaitAdvance _ _ _, Returns (Some newPost) => Some newPost
       | _, _ => postForAI
       end.
Proof.
  intros Hp R T P.
  pose proof (steady_startThen now initialPost es c Hp R) as S.
  pose proof (proj1 (Forall_lookup _ _) (steady_prompt c S) i _ T) as Q.
  simpl in Q. rewrite P in Q. destruct Q as [Q A].
  split; [exact Q |].
  split; [| apply resumeWith_lock; assumption].
  destruct ph as [f | f p pe h x | p pe t]; try exact I.
  simpl in P, A. congruence.
Qed.

Lemma first_start_prompt_post_locked_witness :
  let es := startThen 1000 (Some postX) overTheTimeout in
  let c := default fresh (run es fresh) in
  let ph := AwaitAdvance (Some postX) BOSS_PERSONA (js "so it goes") in
  let a := {| latest := Throws; response := Throws; responseAt := 0;
              refreshed := Returns None; refreshedAt := 200001 |} in
  (forallb pollEvent overTheTimeout = true
   /\ run es fresh = Some c
   /\ tasks c !! 0%nat = Some (TGen false ph)
   /\ promptPost ph = Some (Some postX))
  /\ Some postX = getLockedPost (svc c)
  /\ previousPost (svc c) = Some postX
  /\ getLockedPost (resumeWith a ph (svc c)).1 = Some postX.
Proof.
  intros es c ph a.
  split; [split; [| split; [| split]]; vm_compute; reflexivity |].
  apply (first_start_prompt_post_locked
           1000 (Some postX) overTheTimeout c 0 false ph (Some postX) a);
    vm_compute; reflexivity.
Defined.

(* ===================================================================== *)
(** ** The claims *)
(* ===================================================================== *)

(** C1.  The guard of [generateNextResponse] turns away a call made while
    [isGenerating] is true, but the flag lives in the state object that
    [startConversation()] replaces.  After [stop()] a poll starts the
    service anew while the first generation still awaits the backend: the
    new state has the flag down, a second generation starts, and two are
    in flight.  Both complete: the second turn takes the place of the
    first in the one pending slot before any poll has handed it out. *)
Theorem C1_restart_runs_two_generations :
  match run stopThenPoll fresh with
  | Some c =>
      inFlight c = 2%nat
      /\ isGenerating (svc c) = true
      /\ match run bothAnswers c with
         | Some c' =>
             turnCount (svc c') = 2
             /\ option_map turnNumber (pendingResponse (svc c')) = Some 2
             /\ delivered c' = []
         | None => False
         end
  | None => False
  end.
Proof. vm_compute. repeat split; reflexivity. Qed.

(** C2.  [startConversation()] called again while the first generation
    runs: the generation of the first call resumes on the state of the
    second, produces turn 1 there, and the generation of the second call
    puts turn 2 in its place.  The first turn handed out has number 2. *)
Theorem C2_restart_skips_turn_one :
  match run secondStartPolled fresh with
  | Some c =>
      map turnNumber (delivered c) = [2]
      /\ map text (delivered c) = [js "hello again"]
      /\ turnCount (svc c) = 2
  | None => False
  end.
Proof. vm_compute. repeat split; reflexivity. Qed.

(** C6.  In the same schedule the first turn handed out after the second
    [startConversation()] is spoken by [girl], not by the initial speaker
    [boss]: the generation of the first call has switched the speaker of
    the new state before the generation of the second call stored its
    turn, which still bears the label of Agent 1. *)
Theorem C6_restart_first_speaker :
  match run secondStartPolled fresh with
  | Some c =>
      map speaker (delivered c) = [girl]
      /\ map speakerName (delivered c) = [js "Agent 1"]
      /\ currentSpeaker getInitialState = boss
  | None => False
  end.
Proof. vm_compute. repeat split; reflexivity. Qed.


(** The slip beside C3: the [startConversation()] of the first poll locks
    its post under the generation that the second poll has started, whose
    prompt was built from another post. *)
Example late_start_relocks :
  match run lateStart fresh with
  | Some c =>
      map taskPost (tasks c) = [Some postX; None]
      /\ getLockedPost (svc c) = Some postY
  | None => False
  end.
Proof. vm_compute. split; reflexivity. Qed.

Lemma generateNextResponse_lock st :
  lockedPost (generateNextResponse st).1 = lockedPost st.
Proof.
  unfold generateNextResponse. destruct (isGenerating st); [reflexivity |].
  cbv zeta. destruct (lockedPost (set_isGenerating true st)); reflexivity.
Qed.

Lemma pollBody_lock st : lockedPost (pollBody st).1.1 = lockedPost st.
Proof.
  unfold pollBody. destruct (pendingResponse st).
  - pose proof (generateNextResponse_lock (set_pendingResponse None st)) as G.
    destruct (generateNextResponse (set_pendingResponse None st)). exact G.
  - destruct (isGenerating st); [reflexivity |].
    pose proof (generateNextResponse_lock st) as G.
    destruct (generateNextResponse st). exact G.
Qed.

Lemma pollAfterGeneration_lock st :
  lockedPost (pollAfterGeneration st).1.1 = lockedPost st.
Proof.
  unfold pollAfterGeneration. destruct (pendingResponse st); [| reflexivity].
  pose proof (generateNextResponse_lock (set_pendingResponse None st)) as G.
  destruct (generateNextResponse (set_pendingResponse None st)). exact G.
Qed.

Lemma afterPollBody_fields c rest r :
  svc (afterPollBody c rest r) = r.1.1
  /\ exists more, tasks (afterPollBody c rest r) = rest ++ more.
Proof.
  destruct r as [[st g] [res |]]; simpl; split; try reflexivity; eexists;
    reflexivity.
Qed.

Lemma elem_of_delete_other {A} (l : list A) (i j : nat) (x y : A) :
  l !! i = Some x -> l !! j = Some y -> x <> y -> x ∈ delete j l.
Proof.
  intros Hi Hj N.
  rewrite delete_take_drop.
  pose proof (take_drop_middle l j y Hj) as E.
  assert (X : x ∈ l) by (eapply list_elem_of_lookup_2; exact Hi).
  rewrite <- E in X. apply elem_of_app in X. apply elem_of_app.
  destruct X as [X | X]; [left; exact X |].
  apply elem_of_cons in X. destruct X as [X | X]; [contradiction | right; exact X].
Qed.

(** An event served beside a suspended generation leaves the locked post
    and the generation as they are. *)
Lemma besideGeneration_lock c e c' i awaited ph :
  tasks c !! i = Some (TGen awaited ph) ->
  besideGeneration c e = true ->
  exec e c = Some c' ->
  getLockedPost (svc c') = getLockedPost (svc c)
  /\ TGen awaited ph ∈ tasks c'.
Proof.
  intros T B E.
  assert (X : TGen awaited ph ∈ tasks c)
    by (eapply list_elem_of_lookup_2; exact T).
  destruct e as [now | now | | j ans | j now ans | j now ans | j];
    try discriminate; simpl in B, E.
  - rewrite B in E. injection E as <-.
    destruct (afterPollBody_fields c (tasks c) (pollBody (svc c)))
      as [Es [more Et]].
    rewrite Es, Et. split; [apply pollBody_lock |].
    apply elem_of_app. left. exact X.
  - injection E as <-. split; [reflexivity | exact X].
  - destruct (tasks c !! j) as [t |] eqn:Tj; [| discriminate].
    destruct t as [by_ | aw' ph' | |]; try discriminate.
    + assert (D : TGen awaited ph ∈ delete j (tasks c))
        by (apply (elem_of_delete_other _ i j _ _ T Tj); discriminate).
      injection E as <-.
      destruct (afterPollBody_fields c (delete j (tasks c)) (pollBody (svc c)))
        as [Es [more Et]].
      rewrite Es, Et. split; [apply pollBody_lock |].
      apply elem_of_app. left. exact D.
    + assert (D : TGen awaited ph ∈ delete j (tasks c))
        by (apply (elem_of_delete_other _ i j _ _ T Tj); discriminate).
      pose proof (pollAfterGeneration_lock (svc c)) as L.
      destruct (pollAfterGeneration (svc c)) as [[st g] res].
      injection E as <-. cbn [svc tasks fst] in *. split; [exact L |].
      apply elem_of_app. left. exact D.
Qed.

(** The prompt is built from the locked post of that moment. *)
Lemma buildPrompt_lock f st :
  promptPost (buildPrompt f st).2 = Some (getLockedPost (buildPrompt f st).1).
Proof. reflexivity. Qed.

Lemma generateNextResponse_prompt st ph postForAI :
  (generateNextResponse st).2 = Some ph ->
  promptPost ph = Some postForAI ->
  postForAI = getLockedPost (generateNextResponse st).1.
Proof.
  unfold generateNextResponse. destruct (isGenerating st); [discriminate |].
  cbv zeta. destruct (lockedPost (set_isGenerating true st)) eqn:L.
  - pose proof (buildPrompt_lock (turnCount (set_isGenerating true st) =? 0)
                  (set_isGenerating true st)) as B.
    destruct (buildPrompt _ (set_isGenerating true st)) as [st1 ph1].
    cbn [fst snd] in *. intros [= <-] P. congruence.
  - cbn [fst snd]. intros [= <-]. discriminate.
Qed.

Lemma resumeLatest_prompt_lock f ans st ph postForAI :
  (resumeLatest f ans st).2 = Some ph ->
  promptPost ph = Some postForAI ->
  postForAI = getLockedPost (resumeLatest f ans st).1.
Proof.
  destruct ans as [post |]; cbn [resumeLatest]; [| discriminate].
  pose proof (buildPrompt_lock f (lockPost post st)) as B.
  destruct (buildPrompt f (lockPost post st)) as [st1 ph1].
  cbn [fst snd] in *. intros [= <-] P. congruence.
Qed.

(** The next suspension of a generation that holds its prompt: it is
    inside [advancePost], with the same post, read once more. *)
Lemma resumeWith_next a ph st postForAI next :
  promptPost ph = Some postForAI ->
  postForAI = getLockedPost st ->
  (resumeWith a ph st).2 = Some next ->
  promptPost next = Some postForAI
  /\ getLockedPost (resumeWith a ph st).1 = postForAI
  /\ previousPost (resumeWith a ph st).1 = postForAI.
Proof.
  intros P -> N. destruct ph as [f | f p pe h x | p pe t]; simpl in *.
  - discriminate.
  - injection P as ->. unfold resumeResponse in *.
    destruct (response a) as [raw |]; [| discriminate].
    destruct f; [discriminate |].
    destruct (isPostTimedOut (responseAt a) st); [| discriminate].
    cbn [fst snd] in *. injection N as <-. repeat split; reflexivity.
  - unfold resumeAdvance in N. destruct (refreshed a); discriminate.
Qed.



(** C4, as stated, fails.  The append that takes a ledger of 40 entries to
    41 leaves 40 entries, not 20: the first is dropped, the second is now
    the oldest. *)
Lemma C4_counterexample :
  let st := set_history (ledgerOf 40) getInitialState in
  let st' := completeTurn BOSS_PERSONA (js "one more") None st in
  length (history st ++ [ {| entry_speaker := js "Agent 1";
                             entry_text := js "one more" |} ]) = 41%nat
  /\ length (history st') = 40%nat
  /\ length (history st') <> 20%nat
  /\ head (history st') = Some {| entry_speaker := js "Agent 1";
                                  entry_text := js "2" |}.
Proof. vm_compute. split; [| split; [| split]]; try reflexivity. discriminate. Qed.

(** C4, amended.  An append to the ledger keeps the 40 most recent
    entries, in the order they were appended, and drops the older ones in
    the same step: when the append takes the size above 40 the ledger is
    left with exactly 40 entries.  The window of 20 is cut only when the
    prompt is built, and leaves the ledger as it is. *)
Theorem C4_ledger_trimmed_to_forty
        (persona : Persona) (cleanText : jsstring)
        (newPostForClient : option MoltbookPost) (st : ConversationState) :
  nonEmpty cleanText = true ->
  let appended :=
    history st ++ [ {| entry_speaker := name persona; entry_text := cleanText |} ] in
  let st' := completeTurn persona cleanText newPostForClient st in
  history st' = sliceLast 40 appended
  /\ history st' `suffix_of` appended
  /\ (length (history st') <= 40)%nat
  /\ ((40 < length appended)%nat -> length (history st') = 40%nat)
  /\ buildConversationHistory st'
     = join [newline] (map formatEntry (sliceLast 20 (history st'))).
Proof.
  intros Hne appended st'.
  assert (E : history st' = sliceLast 40 appended).
  { unfold st'. rewrite completeTurn_history, Hne. reflexivity. }
  split; [exact E |]. rewrite E.
  split; [apply sliceLast_suffix |].
  split; [rewrite sliceLast_length; lia |].
  split; [intros Hlt; rewrite sliceLast_length; lia |].
  unfold buildConversationHistory. rewrite E.
  destruct (sliceLast 40 appended) as [| e l] eqn:D; [| reflexivity].
  exfalso.
  assert (L : length (sliceLast 40 appended) = 0%nat) by (rewrite D; reflexivity).
  rewrite sliceLast_length in L. unfold appended in L.
  rewrite length_app in L. cbn [length] in L. lia.
Qed.

Lemma C4_witness :
  let st := set_history (ledgerOf 40) getInitialState in
  let appended :=
    history st ++ [ {| entry_speaker := name BOSS_PERSONA;
                       entry_text := js "one more" |} ] in
  let st' := completeTurn BOSS_PERSONA (js "one more") None st in
  nonEmpty (js "one more") = true
  /\ history st' = sliceLast 40 appended
  /\ history st' `suffix_of` appended
  /\ (length (history st') <= 40)%nat
  /\ ((40 < length appended)%nat -> length (history st') = 40%nat)
  /\ buildConversationHistory st'
     = join [newline] (map formatEntry (sliceLast 20 (history st'))).
Proof.
  intros st appended st'. split; [reflexivity |].
  apply (C4_ledger_trimmed_to_forty BOSS_PERSONA (js "one more") None st).
  reflexivity.
Defined.

(** C5, as stated, fails.  With no post to be had (the post source answers
    [null], as it does without a database), the first turn is handed out
    without [newPost]. *)
Lemma C5_counterexample :
  match run (startThen 1000 None noPostToShow) fresh with
  | Some c =>
      match delivered c with
      | [d] => turnNumber d = 1 /\ newPost d = None
      | _ => False
      end
  | None => False
  end.
Proof. vm_compute. split; reflexivity. Qed.

(** C5, amended.  The turn a cycle produces carries [newPost] only if it is
    the first turn or the timeout fired in that cycle.  The first turn
    carries the locked post, when there is one; the turn of a cycle in
    which the timeout fired carries the post [refresh()] returned, when
    there is one; any other turn carries none. *)
Theorem C5_new_post_only_first_or_timeout
        (a : CycleAnswers) (st : ConversationState) (d : DialogueLine) :
  isGenerating st = false ->
  cycleThrows a st = false ->
  pendingResponse (generationCycle a st).1 = Some d ->
  (newPost d <> None -> turnCount st = 0 \/ timeoutFired a st = true)
  /\ (turnCount st = 0 -> newPost d = lockedForCycle a st)
  /\ (timeoutFired a st = true ->
      forall p, refreshed a = Returns p -> newPost d = p)
  /\ (turnCount st <> 0 -> timeoutFired a st = false -> newPost d = None).
Proof.
  intros G Th Hd.
  destruct (cycle_outcome a st G) as (_ & _ & _ & O). rewrite Th in O.
  destruct O as (raw & _ & Hp & _). rewrite Hp in Hd. injection Hd as <-.
  unfold cycleTurn, cycleNewPost, timeoutFired. cbn [newPost].
  destruct (Z.eqb_spec (turnCount st) 0) as [Z0 | Z0]; cbn [negb andb].
  - repeat split; intros; try reflexivity; try discriminate; auto.
    congruence.
  - destruct (isPostTimedOut (responseAt a) st); repeat split; intros;
      try congruence; auto.
    + match goal with R : refreshed a = _ |- _ => rewrite R end. reflexivity.
Qed.

Lemma C5_witness :
  let st := set_turnCount 4 (resetPostTimer 1000 (lockPost (Some postX) getInitialState)) in
  let a := {| latest := Throws; response := Returns (js "look at that");
              responseAt := 130000;
              refreshed := Returns (Some postY); refreshedAt := 130400 |} in
  let d := {| speaker := boss; speakerName := js "Agent 1";
              text := js "look at that"; turnNumber := 5;
              newPost := Some postY |} in
  (isGenerating st = false /\ cycleThrows a st = false
   /\ pendingResponse (generationCycle a st).1 = Some d)
  /\ (newPost d <> None -> turnCount st = 0 \/ timeoutFired a st = true)
  /\ (turnCount st = 0 -> newPost d = lockedForCycle a st)
  /\ (timeoutFired a st = true ->
      forall p, refreshed a = Returns p -> newPost d = p)
  /\ (turnCount st <> 0 -> timeoutFired a st = false -> newPost d = None).
Proof.
  intros st a d.
  split; [split; [| split]; vm_compute; reflexivity |].
  apply (C5_new_post_only_first_or_timeout a st d); vm_compute; reflexivity.
Defined.

(* ===================================================================== *)
(** ** Properties: the fallback of the backend *)
(* ===================================================================== *)

(** Whenever the key is missing or the exchange with the backend fails,
    [generateResponse] resolves to a mock response. *)
Lemma generateResponse_fallback apiKey persona h p reply pick :
  apiKey = false \/ backendFailed reply = true ->
  generateResponse apiKey persona h p reply pick = getMockResponse persona pick.
Proof.
  unfold generateResponse. destruct apiKey; [| reflexivity].
  intros [H | H]; [discriminate |]. simpl.
  destruct reply as [ | | | [ | content | truthy]]; try reflexivity.
  simpl in H. apply negb_true_iff in H. rewrite H, andb_false_r. reflexivity.
Qed.

(** The mock responses of the two personas of the conversation: five
    each, none altered by [cleanResponse], none empty. *)
Lemma mock_fixed_point st pick :
  (pick < 5)%nat ->
  let line := getMockResponse (getCurrentPersona st) pick in
  cleanResponse line = line
  /\ nonEmpty line = true
  /\ In line (mockResponsesFor (getCurrentPersona st))
  /\ mockResponsesFor (getCurrentPersona st)
     = match currentSpeaker st with
       | boss => mockResponsesAgent1
       | girl => mockResponsesAgent2
       end
  /\ length (mockResponsesFor (getCurrentPersona st)) = 5%nat.
Proof.
  intros Hlt. unfold getCurrentPersona.
  destruct (currentSpeaker st);
    do 5 (destruct pick as [| pick];
          [vm_compute; repeat split; tauto |]);
    lia.
Qed.

(** C7.  When the backend fails (it cannot be reached, answers with a
    status that is not OK, with a body that cannot be read, or with no
    content), [generateResponse] still resolves, to one of the five mock
    lines of the persona that speaks; the cycle takes that line unchanged as
    the text of the turn, numbers the turn as any other, and the next poll
    hands it out. *)
Theorem C7_backend_failure_falls_back
        (apiKey : bool) (reply : BackendReply) (pick : nat)
        (h p : jsstring) (a : CycleAnswers) (st : ConversationState) :
  isGenerating st = false ->
  backendFailed reply = true ->
  (pick < 5)%nat ->
  response a
  = Returns (generateResponse apiKey (getCurrentPersona st) h p reply pick) ->
  cycleThrows a st = false ->
  exists d,
    pendingResponse (generationCycle a st).1 = Some d
    /\ text d = getMockResponse (getCurrentPersona st) pick
    /\ In (text d) (match currentSpeaker st with
                    | boss => mockResponsesAgent1
                    | girl => mockResponsesAgent2
                    end)
    /\ turnNumber d = turnCount st + 1
    /\ turnCount (generationCycle a st).1 = turnCount st + 1
    /\ isGenerating (generationCycle a st).1 = false
    /\ (pollBody (generationCycle a st).1).2 = PollReturns (Line d).
Proof.
  intros G F Hlt Hr Th.
  destruct (cycle_outcome a st G) as (_ & Hg & _ & O). rewrite Th in O.
  destruct O as (raw & Hraw & Hp & Ht & _).
  rewrite Hr in Hraw. injection Hraw as <-.
  rewrite (generateResponse_fallback apiKey _ h p reply pick (or_intror F)) in Hp.
  destruct (mock_fixed_point st pick Hlt) as (Hc & _ & Hin & Hm & _).
  exists (cycleTurn a st (getMockResponse (getCurrentPersona st) pick)).
  split; [exact Hp |].
  split; [exact Hc |].
  split; [cbn [cycleTurn text]; rewrite Hc, <- Hm; exact Hin |].
  split; [reflexivity |].
  split; [exact Ht |].
  split; [exact Hg |].
  unfold pollBody. rewrite Hp.
  destruct (generateNextResponse _) as [s g]. reflexivity.
Qed.

Lemma C7_witness :
  let st := set_turnCount 2 (lockPost (Some postX) getInitialState) in
  let line := js "I wonder if they know we're watching." in
  let a := {| latest := Throws; response := Returns line; responseAt := 5000;
              refreshed := Throws; refreshedAt := 0 |} in
  (isGenerating st = false
   /\ backendFailed StatusNotOk = true /\ (2 < 5)%nat
   /\ response a
      = Returns (generateResponse true (getCurrentPersona st) [] [] StatusNotOk 2)
   /\ cycleThrows a st = false)
  /\ exists d,
    pendingResponse (generationCycle a st).1 = Some d
    /\ text d = getMockResponse (getCurrentPersona st) 2
    /\ In (text d) (match currentSpeaker st with
                    | boss => mockResponsesAgent1
                    | girl => mockResponsesAgent2
                    end)
    /\ turnNumber d = turnCount st + 1
    /\ turnCount (generationCycle a st).1 = turnCount st + 1
    /\ isGenerating (generationCycle a st).1 = false
    /\ (pollBody (generationCycle a st).1).2 = PollReturns (Line d).
Proof.
  intros st line a.
  split; [split; [| split; [| split; [| split]]];
          try (vm_compute; reflexivity); lia |].
  apply (C7_backend_failure_falls_back true StatusNotOk 2 [] [] a st);
    try (vm_compute; reflexivity); lia.
Defined.

(** C8.  When the cleaned text is empty, the cycle still builds the turn,
    with the empty text and the next number, and stores it as the pending
    response; the ledger gets no entry: it is the one the cycle found, up
    to the cap. *)
Theorem C8_empty_text_turn_kept_out_of_history
        (a : CycleAnswers) (st : ConversationState) (raw : jsstring) :
  isGenerating st = false ->
  cycleThrows a st = false ->
  response a = Returns raw ->
  cleanResponse raw = [] ->
  exists d,
    pendingResponse (generationCycle a st).1 = Some d
    /\ text d = []
    /\ turnNumber d = turnCount st + 1
    /\ turnCount (generationCycle a st).1 = turnCount st + 1
    /\ history (generationCycle a st).1 = sliceLast 40 (history st)
    /\ ((length (history st) <= 40)%nat ->
        history (generationCycle a st).1 = history st).
Proof.
  intros G Th Hr Hc.
  destruct (cycle_outcome a st G) as (_ & _ & _ & O). rewrite Th in O.
  destruct O as (raw' & Hraw & Hp & Ht & Hh & _).
  rewrite Hr in Hraw. injection Hraw as <-.
  unfold cycleHistory in Hh. rewrite Hc in Hh. cbn [nonEmpty] in Hh.
  exists (cycleTurn a st raw).
  split; [exact Hp |].
  split; [exact Hc |].
  split; [reflexivity |].
  split; [exact Ht |].
  split; [exact Hh |].
  intros Hle. rewrite Hh. apply sliceLast_short. exact Hle.
Qed.

Lemma C8_witness :
  let st := set_history (ledgerOf 3)
              (set_turnCount 3 (lockPost (Some postX) getInitialState)) in
  let raw := js " [next_post] " in
  let a := {| latest := Throws; response := Returns raw; responseAt := 5000;
              refreshed := Throws; refreshedAt := 0 |} in
  (isGenerating st = false /\ cycleThrows a st = false
   /\ response a = Returns raw /\ cleanResponse raw = [])
  /\ exists d,
    pendingResponse (generationCycle a st).1 = Some d
    /\ text d = []
    /\ turnNumber d = turnCount st + 1
    /\ turnCount (generationCycle a st).1 = turnCount st + 1
    /\ history (generationCycle a st).1 = sliceLast 40 (history st)
    /\ ((length (history st) <= 40)%nat ->
        history (generationCycle a st).1 = history st).
Proof.
  intros st raw a.
  split; [split; [| split; [| split]]; vm_compute; reflexivity |].
  apply (C8_empty_text_turn_kept_out_of_history a st raw);
    vm_compute; reflexivity.
Defined.

(* ===================================================================== *)
(** ** Properties: polling a conversation that is not active *)
(* ===================================================================== *)

Lemma lookup_after (l : list Task) t rest : (l ++ t :: rest) !! length l = Some t.
Proof. apply list_lookup_middle. reflexivity. Qed.

Lemma delete_after (l : list Task) t rest :
  delete (length l) (l ++ t :: rest) = l ++ rest.
Proof. apply delete_middle. Qed.

(** C9.  [getNextDialogue] on a conversation that is not active (as it is
    once [stop()] has been called) does not answer "waiting" for that
    reason.  It first runs [startConversation]: the state is the initial
    one again (empty history, turn count 0, no locked post, no pending
    turn), active, with the post timer reset; once [getLatestPost()] has
    answered, that post is locked and a generation is started; then the
    call goes on with the very code of a poll of an active conversation. *)
Theorem C9_inactive_poll_restarts
        (c0 c : Config) (now now' : Z) (initialPost : option MoltbookPost) :
  isActive (svc c) = false \/ exec CallStop c0 = Some c ->
  let c1 := {| svc := startConversation_begin now;
               tasks := tasks c ++ [TStart ByPoll];
               replies := replies c |} in
  let r := startConversation_end initialPost (startConversation_begin now) in
  let c2 := {| svc := r.1;
               tasks := tasks c ++ genTasks false r.2 ++ [TPollAfterStart];
               replies := replies c |} in
  let polled := {| svc := r.1; tasks := tasks c ++ genTasks false r.2;
                   replies := replies c |} in
  exec (CallNext now) c = Some c1
  /\ svc c1 = resetPostTimer now (set_isActive true getInitialState)
  /\ (history (svc c1) = [] /\ turnCount (svc c1) = 0
      /\ currentSpeaker (svc c1) = boss /\ pendingResponse (svc c1) = None
      /\ lockedPost (svc c1) = None /\ postLocked (svc c1) = false
      /\ previousPost (svc c1) = None /\ postJustChanged (svc c1) = false
      /\ isGenerating (svc c1) = false)
  /\ (isActive (svc c1) = true /\ postShownAt (svc c1) = Some now)
  /\ exec (LatestArrives (length (tasks c)) (Returns initialPost)) c1 = Some c2
  /\ (getLockedPost (svc c2) = initialPost
      /\ isGenerating (svc c2) = true /\ isActive (svc c2) = true
      /\ exists ph, r.2 = Some ph)
  /\ exec (Continue (length (tasks c ++ genTasks false r.2))) c2
     = Some (afterPollBody polled (tasks polled) (pollBody (svc polled)))
  /\ exec (CallNext now') polled
     = Some (afterPollBody polled (tasks polled) (pollBody (svc polled))).
Proof.
  intros Hin c1 r c2 polled.
  assert (A : isActive (svc c) = false).
  { destruct Hin as [A | E]; [exact A |]. injection E as <-. reflexivity. }
  split; [simpl; rewrite A; reflexivity |].
  split; [reflexivity |].
  split; [repeat split |].
  split; [split; reflexivity |].
  split.
  { unfold exec, c1. cbn [tasks svc replies].
    rewrite lookup_after, delete_after, app_nil_r.
    fold r. destruct r as [st g] eqn:E. reflexivity. }
  assert (Hr : getLockedPost r.1 = initialPost /\ isGenerating r.1 = true
               /\ isActive r.1 = true /\ exists ph, r.2 = Some ph).
  { unfold r. destruct initialPost; simpl; repeat split; eexists; reflexivity. }
  split; [exact Hr |].
  destruct Hr as (_ & _ & Ha & _).
  split.
  - unfold exec, c2. cbn [tasks svc replies].
    rewrite app_assoc, lookup_after, delete_after, app_nil_r.
    reflexivity.
  - unfold exec, polled. cbn [tasks svc replies]. rewrite Ha. reflexivity.
Qed.

Lemma C9_witness :
  let c0 := {| svc := set_turnCount 3 (startConversation_begin 1000);
               tasks := []; replies := [Waiting] |} in
  let c := {| svc := stop (svc c0); tasks := tasks c0; replies := replies c0 |} in
  let c1 := {| svc := startConversation_begin 300000;
               tasks := tasks c ++ [TStart ByPoll];
               replies := replies c |} in
  (isActive (svc c) = false \/ exec CallStop c0 = Some c)
  /\ exec (CallNext 300000) c = Some c1
  /\ turnCount (svc c0) = 3 /\ turnCount (svc c1) = 0
  /\ replies c1 = replies c.
Proof.
  intros c0 c c1.
  assert (Hin : isActive (svc c) = false \/ exec CallStop c0 = Some c)
    by (right; reflexivity).
  split; [exact Hin |].
  split.
  - exact (proj1 (C9_inactive_poll_restarts c0 c 300000 300001 (Some postY) Hin)).
  - split; [vm_compute; reflexivity |]. split; reflexivity.
Defined.

(* ===================================================================== *)
(** ** Properties: a generation that throws *)
(* ===================================================================== *)

(** C10.  When a call awaited by the generation cycle throws, the cycle
    still ends, with [isGenerating] false; it has stored no pending turn
    and [turnCount] is what it was; the next call of
    [generateNextResponse] starts a new cycle.  The segment in which the
    exception arrives does nothing but lower the flag, whatever the state
    it finds. *)
Theorem C10_exception_clears_generating_flag
        (a : CycleAnswers) (st : ConversationState) :
  isGenerating st = false ->
  cycleThrows a st = true ->
  (generationCycle a st).2 = true
  /\ isGenerating (generationCycle a st).1 = false
  /\ pendingResponse (generationCycle a st).1 = pendingResponse st
  /\ turnCount (generationCycle a st).1 = turnCount st
  /\ (exists st2 ph,
        generateNextResponse (generationCycle a st).1 = (st2, Some ph))
  /\ (forall ph st0, throwsAt a ph = true ->
                     resumeWith a ph st0 = (finallyBlock st0, None)).
Proof.
  intros G Th.
  destruct (cycle_outcome a st G) as (Hd & Hg & _ & O). rewrite Th in O.
  destruct O as (Ht & Hp & _).
  split; [exact Hd |].
  split; [exact Hg |].
  split; [exact Hp |].
  split; [exact Ht |].
  split.
  - destruct (generateNextResponse_idle _ Hg) as (st2 & ph & E & _).
    exists st2, ph. exact E.
  - intros ph st0 Hth.
    destruct ph as [f | f p pe h x | p pe t]; simpl in *.
    + destruct (latest a); [discriminate | reflexivity].
    + destruct (response a); [discriminate | reflexivity].
    + destruct (refreshed a); [discriminate | reflexivity].
Qed.

Lemma C10_witness :
  let st := set_turnCount 4 (resetPostTimer 1000 (lockPost (Some postX) getInitialState)) in
  let a := {| latest := Throws; response := Returns (js "look at that");
              responseAt := 130000;
              refreshed := Throws; refreshedAt := 130400 |} in
  (isGenerating st = false /\ cycleThrows a st = true)
  /\ (generationCycle a st).2 = true
  /\ isGenerating (generationCycle a st).1 = false
  /\ pendingResponse (generationCycle a st).1 = pendingResponse st
  /\ turnCount (generationCycle a st).1 = turnCount st
  /\ (exists st2 ph,
        generateNextResponse (generationCycle a st).1 = (st2, Some ph))
  /\ (forall ph st0, throwsAt a ph = true ->
                     resumeWith a ph st0 = (finallyBlock st0, None)).
Proof.
  intros st a.
  split; [split; vm_compute; reflexivity |].
  apply (C10_exception_clears_generating_flag a st); vm_compute; reflexivity.
Defined.

(* ===================================================================== *)
(** ** Further properties: the cleaning of texts *)
(* ===================================================================== *)

Lemma rev_reverse (l : jsstring) : rev l = reverse l.
Proof.
  induction l as [| x l IH]; [reflexivity |].
  simpl. rewrite reverse_cons, IH. reflexivity.
Qed.

Lemma Forall_sublist {A} (P : A -> Prop) (l1 l2 : list A) :
  l1 `sublist_of` l2 -> Forall P l2 -> Forall P l1.
Proof.
  induction 1 as [| x l1 l2 _ IH | x l1 l2 _ IH]; intros H.
  - constructor.
  - inversion H; subst. constructor; auto.
  - inversion H; subst. auto.
Qed.

Lemma trimStart_drop s : exists k, trimStart s = drop k s.
Proof.
  induction s as [| c r [k IH]]; [exists 0%nat; reflexivity |].
  simpl. destruct (isWhiteSpace c).
  - exists (S k). exact IH.
  - exists 0%nat. reflexivity.
Qed.

Lemma trimStart_head s c r : trimStart s = c :: r -> isWhiteSpace c = false.
Proof.
  induction s as [| a s IH]; simpl; [discriminate |].
  destruct (isWhiteSpace a) eqn:W; [exact IH |].
  intros [= <- <-]. exact W.
Qed.

Lemma trimStart_blank s :
  Forall (fun c => isWhiteSpace c = true) s -> trimStart s = [].
Proof.
  induction 1 as [| c r W _ IH]; [reflexivity |]. simpl. rewrite W. exact IH.
Qed.

Lemma trimEnd_take s : exists k, trimEnd s = take k s.
Proof.
  unfold trimEnd. destruct (trimStart_drop (rev s)) as [k ->].
  exists (length s - k)%nat. rewrite skipn_rev, rev_involutive. reflexivity.
Qed.

Lemma trimEnd_last s c : last (trimEnd s) = Some c -> isWhiteSpace c = false.
Proof.
  unfold trimEnd. rewrite rev_reverse, last_reverse.
  destruct (trimStart (rev s)) as [| a r] eqn:E; simpl; [discriminate |].
  intros [= <-]. exact (trimStart_head _ _ _ E).
Qed.

Lemma trim_head s c : head (trim s) = Some c -> isWhiteSpace c = false.
Proof.
  unfold trim. destruct (trimEnd_take (trimStart s)) as [k ->].
  destruct (trimStart s) as [| a r] eqn:E; [destruct k; discriminate |].
  destruct k; simpl; [discriminate |].
  intros [= <-]. exact (trimStart_head _ _ _ E).
Qed.

Lemma trim_last s c : last (trim s) = Some c -> isWhiteSpace c = false.
Proof. apply trimEnd_last. Qed.

Lemma trimStart_sublist s : trimStart s `sublist_of` s.
Proof. destruct (trimStart_drop s) as [k ->]. apply sublist_drop. Qed.

Lemma trimEnd_sublist s : trimEnd s `sublist_of` s.
Proof. destruct (trimEnd_take s) as [k ->]. apply sublist_take. Qed.

Lemma trim_sublist s : trim s `sublist_of` s.
Proof.
  unfold trim. etransitivity; [apply trimEnd_sublist | apply trimStart_sublist].
Qed.

Lemma removeAllFrom_sublist ci pat s :
  forall skip, removeAllFrom ci pat skip s `sublist_of` s.
Proof.
  induction s as [| c r IH]; intros skip; simpl; [constructor |].
  destruct skip as [| k]; [| apply sublist_cons, IH].
  destruct (startsWith ci pat (c :: r)).
  - apply sublist_cons, IH.
  - apply sublist_skip, IH.
Qed.

Lemma removeSpansFrom_sublist open close s :
  forall skip, removeSpansFrom open close skip s `sublist_of` s.
Proof.
  induction s as [| c r IH]; intros skip; [constructor |].
  cbn [removeSpansFrom].
  destruct skip as [| k]; [| apply sublist_cons, IH].
  destruct (startsWith false open (c :: r)); [| apply sublist_skip, IH].
  destruct (indexOf close (drop (length open) (c :: r))).
  - apply sublist_cons, IH.
  - apply sublist_skip, IH.
Qed.

Lemma stripSpeakerPrefix_sublist s : stripSpeakerPrefix s `sublist_of` s.
Proof.
  unfold stripSpeakerPrefix.
  destruct (_ || _); [| reflexivity].
  etransitivity; [apply trimStart_sublist | apply sublist_drop].
Qed.

Lemma removeAll_single_gone c s :
  Forall (fun x => x <> c) (removeAll false [c] s).
Proof.
  unfold removeAll. induction s as [| a r IH]; simpl; [constructor |].
  unfold unitEq. destruct (N.eqb_spec c a) as [E | E]; simpl.
  - exact IH.
  - constructor; [congruence | exact IH].
Qed.

Lemma removeAll_untouched pat p0 rest s :
  pat = p0 :: rest ->
  Forall (fun c => upperAscii c <> upperAscii p0) s ->
  removeAll true pat s = s.
Proof.
  intros -> H. unfold removeAll.
  induction H as [| c r Hc _ IH]; simpl; [reflexivity |].
  unfold unitEq.
  destruct (N.eqb_spec (upperAscii p0) (upperAscii c)) as [E | E];
    [congruence |].
  simpl. f_equal. exact IH.
Qed.

(** X1.  [cleanResponse] only deletes: what it returns is the text with
    some code units taken out, in the same order, and it neither begins nor
    ends with white space. *)
Theorem cleanResponse_only_deletes (text : jsstring) :
  cleanResponse text `sublist_of` text
  /\ (forall c, head (cleanResponse text) = Some c -> isWhiteSpace c = false)
  /\ (forall c, last (cleanResponse text) = Some c -> isWhiteSpace c = false).
Proof.
  unfold cleanResponse. split; [| split].
  - etransitivity; [apply trim_sublist | apply removeAllFrom_sublist].
  - intros c. apply trim_head.
  - intros c. apply trim_last.
Qed.

(** X2.  A text with no opening bracket holds no [NEXT_POST] tag:
    [cleanResponse] trims it and changes nothing else. *)
Theorem cleanResponse_without_bracket (text : jsstring) :
  Forall (fun c => c <> 91%N) text ->
  cleanResponse text = trim text.
Proof.
  intros H. unfold cleanResponse. f_equal.
  apply (removeAll_untouched _ 91%N (js "NEXT_POST]")); [reflexivity |].
  eapply Forall_impl; [exact H |].
  intros c Hc. unfold upperAscii. simpl.
  destruct ((97 <=? c) && (c <=? 122))%N eqn:E; [| exact Hc].
  apply andb_prop in E as [E1 E2].
  apply N.leb_le in E1, E2. lia.
Qed.

Lemma cleanResponse_without_bracket_witness :
  Forall (fun c => c <> 91%N) (js "  so it goes ")
  /\ cleanResponse (js "  so it goes ") = js "so it goes".
Proof.
  assert (H : Forall (fun c => c <> 91%N) (js "  so it goes "))
    by (repeat constructor; discriminate).
  split; [exact H |].
  exact (cleanResponse_without_bracket (js "  so it goes ") H).
Defined.

Lemma cleanContent_sublist content : cleanContent content `sublist_of` content.
Proof.
  unfold cleanContent.
  etransitivity; [apply trim_sublist |].
  etransitivity; [apply stripSpeakerPrefix_sublist |].
  etransitivity; [apply trim_sublist |].
  etransitivity; [apply removeAllFrom_sublist |].
  etransitivity; [apply removeAllFrom_sublist |].
  apply removeSpansFrom_sublist.
Qed.

(** X3.  The content [generateResponse] keeps from the backend is the
    content with code units taken out: no asterisk is left in it, and it
    neither begins nor ends with white space. *)
Theorem cleanContent_only_deletes (content : jsstring) :
  cleanContent content `sublist_of` content
  /\ Forall (fun c => c <> 42%N) (cleanContent content)
  /\ (forall c, head (cleanContent content) = Some c -> isWhiteSpace c = false)
  /\ (forall c, last (cleanContent content) = Some c -> isWhiteSpace c = false).
Proof.
  split; [apply cleanContent_sublist |].
  split; [| split; intros c; [apply trim_head | apply trim_last]].
  unfold cleanContent.
  eapply Forall_sublist; [| apply (removeAll_single_gone 42%N)].
  etransitivity; [apply trim_sublist |].
  etransitivity; [apply stripSpeakerPrefix_sublist |].
  apply trim_sublist.
Qed.

Lemma cleanContent_markup_only content :
  Forall (fun c => c = 42%N \/ isWhiteSpace c = true) content ->
  cleanContent content = [].
Proof.
  intros H. unfold cleanContent.
  set (x := removeAll false (js "*") _).
  assert (Hx : Forall (fun c => isWhiteSpace c = true) x).
  { assert (H1 : Forall (fun c => c = 42%N \/ isWhiteSpace c = true) x).
    { eapply Forall_sublist; [| exact H].
      unfold x.
      etransitivity; [apply removeAllFrom_sublist |].
      etransitivity; [apply removeAllFrom_sublist |].
      apply removeSpansFrom_sublist. }
    pose proof (removeAll_single_gone 42%N
                  (removeAll false (js "**")
                     (removeSpans (js "<think>") (js "</think>") content))) as H2.
    change (Forall (fun c => c <> 42%N) x) in H2.
    clear -H1 H2. induction H1 as [| c r [Hc | Hc] _ IH];
      inversion H2; subst; constructor; auto; contradiction. }
  unfold trim at 2. rewrite (trimStart_blank x Hx). reflexivity.
Qed.

(** X4.  A content made of asterisks and white space only is no content:
    [generateResponse] answers with the mock line, as it does when the
    backend fails. *)
Theorem generateResponse_markup_only
        (apiKey : bool) (persona : Persona) (h p content : jsstring)
        (pick : nat) :
  Forall (fun c => c = 42%N \/ isWhiteSpace c = true) content ->
  generateResponse apiKey persona h p (BodyParsed (ContentString content)) pick
  = getMockResponse persona pick.
Proof.
  intros H. unfold generateResponse.
  destruct (negb apiKey); [reflexivity |].
  rewrite (cleanContent_markup_only content H). simpl.
  destruct (_ && _); reflexivity.
Qed.

Lemma generateResponse_markup_only_witness :
  Forall (fun c => c = 42%N \/ isWhiteSpace c = true) (js " ** * ")
  /\ generateResponse true GIRL_PERSONA [] [] (BodyParsed (ContentString (js " ** * "))) 3
     = js "I'm not sure I have an answer to that.".
Proof.
  assert (H : Forall (fun c => c = 42%N \/ isWhiteSpace c = true) (js " ** * ")).
  { repeat constructor; first [left; reflexivity | right; reflexivity]. }
  split; [exact H |].
  exact (generateResponse_markup_only true GIRL_PERSONA [] [] (js " ** * ") 3 H).
Defined.

Lemma getMockResponse_nonEmpty persona pick :
  inheritedName (name persona) = false ->
  (pick < 5)%nat -> nonEmpty (getMockResponse persona pick) = true.
Proof.
  intros N H. unfold getMockResponse, mockResponsesFor. rewrite N.
  destruct (jsstring_eqb _ _); [| destruct (jsstring_eqb _ _)];
    do 5 (destruct pick as [| pick]; [reflexivity |]); lia.
Qed.

(** With a name inherited from [Object.prototype] the lookup does not fall
    back, and the mock response is no text. *)
Example getMockResponse_inherited :
  getMockResponse {| name := js "constructor"; role := [] |} 0 = []
  /\ generateResponse true {| name := js "toString"; role := [] |} [] []
                      StatusNotOk 0 = [].
Proof. split; reflexivity. Qed.

(** X5.  For a persona whose name is not a key that [mockResponses]
    inherits from [Object.prototype], as for the two personas of the
    service, and whatever the key and the reply of the backend,
    [generateResponse] resolves to a text that is not empty. *)
Theorem generateResponse_never_empty
        (apiKey : bool) (persona : Persona) (h p : jsstring)
        (reply : BackendReply) (pick : nat) :
  inheritedName (name persona) = false ->
  (pick < 5)%nat ->
  nonEmpty (generateResponse apiKey persona h p reply pick) = true.
Proof.
  intros N H. pose proof (getMockResponse_nonEmpty persona pick N H) as M.
  unfold generateResponse.
  destruct (negb apiKey); [exact M |].
  destruct reply as [ | | | [ | content | truthy]]; try exact M.
  destruct (_ && _); [| exact M].
  cbv zeta. destruct (nonEmpty (cleanContent content)) eqn:E; [exact E | exact M].
Qed.

Lemma generateResponse_never_empty_witness :
  (inheritedName (name {| name := js "Host"; role := [] |}) = false
   /\ (4 < 5)%nat)
  /\ nonEmpty (generateResponse true {| name := js "Host"; role := [] |} [] []
                 (BodyParsed (ContentString (js "Agent 1: **"))) 4) = true
  /\ nonEmpty (generateResponse false GIRL_PERSONA [] [] FetchRejects 0) = true.
Proof.
  split; [split; [reflexivity | lia] |]. split.
  - apply generateResponse_never_empty; [reflexivity | lia].
  - reflexivity.
Defined.

(* ===================================================================== *)
(** ** Further properties: the post lock through a generation cycle *)
(* ===================================================================== *)

(** The fields of the post lock a cycle leaves. *)
Lemma cycle_context a st :
  isGenerating st = false ->
  cycleThrows a st
  = negb (responded a st)
    || cycleAdvances a st
       && match refreshed a with Throws => true | Returns _ => false end
  /\ lockedPost (generationCycle a st).1
     = (if cycleAdvances a st
        then match refreshed a with
             | Returns (Some newPost) => Some newPost
             | _ => lockedForCycle a st
             end
        else lockedForCycle a st)
  /\ postShownAt (generationCycle a st).1
     = (if cycleAdvances a st
        then match refreshed a with
             | Returns _ => Some (refreshedAt a)
             | Throws => postShownAt st
             end
        else postShownAt st)
  /\ postJustChanged (generationCycle a st).1
     = (if cycleAdvances a st
        then match refreshed a with
             | Returns (Some _) => true
             | _ => false
             end
        else if promptBuilt a st then false else postJustChanged st)
  /\ postLocked (generationCycle a st).1
     = (if cycleAdvances a st
        then match refreshed a with
             | Returns (Some _) => true
             | _ => false
             end
        else lockedFlagForCycle a st)
  /\ previousPost (generationCycle a st).1
     = (if cycleAdvances a st then lockedForCycle a st else previousPost st).
Proof.
  intros G.
  unfold generationCycle, cycleThrows, generateNextResponse.
  rewrite G. cbn [isGenerating set_isGenerating turnCount lockedPost].
  unfold cycleAdvances, responded, promptBuilt, timeoutFired, lockedForCycle,
    lockedFlagForCycle.
  destruct a as [la ra rat fa fat].
  cbn [latest response responseAt refreshed refreshedAt].
  destruct (lockedPost st) as [p0 |] eqn:L;
    [| destruct la as [[p1 |] |]];
    destruct ra as [raw |];
    destruct (turnCount st =? 0) eqn:T0;
    cbn -[completeTurn cleanResponse sliceLast Z.add];
    rewrite ?T0, ?L;
    cbn -[completeTurn cleanResponse sliceLast Z.add];
    unfold isPostTimedOut; cbn -[completeTurn cleanResponse sliceLast Z.add];
    try (destruct (postShownAt st) as [shown |] eqn:PS;
         [ destruct (shown =? 0); [| destruct (POST_TIMEOUT_MS <=? rat - shown)] |];
         cbn -[completeTurn cleanResponse sliceLast Z.add];
         try (destruct fa as [[p2 |] |];
              cbn -[completeTurn cleanResponse sliceLast Z.add]));
    unfold completeTurn;
    repeat match goal with
      | |- context [if ?b then _ else _] => destruct b
      end;
    cbn; rewrite ?L, ?PS; repeat split; reflexivity.
Qed.

Lemma isPostTimedOut_later now now' st :
  isPostTimedOut now st = true -> now <= now' -> isPostTimedOut now' st = true.
Proof.
  unfold isPostTimedOut. destruct (postShownAt st) as [shown |]; [| discriminate].
  destruct (shown =? 0); [discriminate |].
  intros H Hle. apply Z.leb_le in H. apply Z.leb_le. lia.
Qed.

Lemma lockedForCycle_locked a st p :
  lockedPost st = Some p -> lockedForCycle a st = Some p.
Proof. intros L. unfold lockedForCycle. rewrite L. reflexivity. Qed.

(** X6.  The post is advanced on the timeout only: on the first turn, or while
    the two minutes since the post was shown are not over, a cycle leaves
    the locked post, the post timer and the previous post as they are
    (the locked post being the one step 1 fetches when none was locked). *)
Theorem post_kept_until_timeout (a : CycleAnswers) (st : ConversationState) :
  isGenerating st = false ->
  turnCount st = 0 \/ isPostTimedOut (responseAt a) st = false ->
  lockedPost (generationCycle a st).1 = lockedForCycle a st
  /\ (forall p, lockedPost st = Some p ->
                lockedPost (generationCycle a st).1 = Some p)
  /\ postShownAt (generationCycle a st).1 = postShownAt st
  /\ previousPost (generationCycle a st).1 = previousPost st.
Proof.
  intros G H.
  assert (F : cycleAdvances a st = false).
  { unfold cycleAdvances, timeoutFired.
    destruct H as [-> | ->]; simpl; rewrite ?andb_false_r; reflexivity. }
  destruct (cycle_context a st G) as (_ & Hl & Hs & _ & _ & Hp).
  rewrite F in Hl, Hs, Hp.
  split; [exact Hl |].
  split; [intros p L; rewrite Hl; apply lockedForCycle_locked, L |].
  split; assumption.
Qed.

Lemma post_kept_until_timeout_witness :
  let st := set_turnCount 4 (resetPostTimer 1000 (lockPost (Some postX) getInitialState)) in
  let a := {| latest := Throws; response := Returns (js "still here");
              responseAt := 120999;
              refreshed := Returns (Some postY); refreshedAt := 121000 |} in
  (isGenerating st = false
   /\ (turnCount st = 0 \/ isPostTimedOut (responseAt a) st = false))
  /\ lockedPost (generationCycle a st).1 = lockedForCycle a st
  /\ (forall p, lockedPost st = Some p ->
                lockedPost (generationCycle a st).1 = Some p)
  /\ postShownAt (generationCycle a st).1 = postShownAt st
  /\ previousPost (generationCycle a st).1 = previousPost st.
Proof.
  intros st a.
  assert (H : turnCount st = 0 \/ isPostTimedOut (responseAt a) st = false)
    by (right; reflexivity).
  split; [split; [reflexivity | exact H] |].
  exact (post_kept_until_timeout a st eq_refl H).
Defined.

(** X7.  The turn that follows an advance.  When a cycle has advanced the post to
    [newPost], the next cycle, answered within the two minutes, builds its
    prompt on [newPost] with the note that the screen has just changed,
    produces the next turn without [newPost], and leaves the flag down:
    the change is announced to one generation only. *)
Theorem turn_after_advance
        (a a' : CycleAnswers) (st : ConversationState)
        (newPost_ : MoltbookPost) (raw' : jsstring) :
  isGenerating st = false ->
  0 <= turnCount st ->
  cycleThrows a st = false ->
  timeoutFired a st = true ->
  refreshed a = Returns (Some newPost_) ->
  refreshedAt a <> 0 ->
  response a' = Returns raw' ->
  responseAt a' - refreshedAt a < POST_TIMEOUT_MS ->
  let st1 := (generationCycle a st).1 in
  (exists st2 persona conversationHistory,
      generateNextResponse st1
      = (st2, Some (AwaitResponse false (Some newPost_) persona conversationHistory
                      (buildCurrentPostContext (Some newPost_) false
                       ++ screenChangedNote))))
  /\ (exists d, pendingResponse (generationCycle a' st1).1 = Some d
                /\ newPost d = None
                /\ turnNumber d = turnCount st + 2)
  /\ postJustChanged (generationCycle a' st1).1 = false
  /\ lockedPost (generationCycle a' st1).1 = Some newPost_.
Proof.
  intros G T0 Th Tf Rf Rn Rr Rt st1.
  destruct (cycle_outcome a st G) as (_ & G1 & _ & O). rewrite Th in O.
  destruct O as (raw & Hraw & _ & Ht & _).
  destruct (cycle_context a st G) as (Ct & Cl & Cs & Cj & _).
  rewrite Th in Ct.
  assert (Adv : cycleAdvances a st = true).
  { unfold cycleAdvances. rewrite Tf, andb_true_r.
    destruct (responded a st); [reflexivity | discriminate]. }
  rewrite Adv, Rf in Cl, Cs, Cj.
  fold st1 in G1, Ht, Cl, Cs, Cj.
  assert (Tz : (turnCount st1 =? 0) = false) by (apply Z.eqb_neq; lia).
  assert (Nf : timeoutFired a' st1 = false).
  { unfold timeoutFired, isPostTimedOut. rewrite Cs.
    destruct (Z.eqb_spec (refreshedAt a) 0) as [E | _]; [contradiction |].
    destruct (Z.leb_spec POST_TIMEOUT_MS (responseAt a' - refreshedAt a));
      [lia | apply andb_false_r]. }
  assert (Pb : promptBuilt a' st1 = true)
    by (unfold promptBuilt; rewrite Cl; reflexivity).
  destruct (cycle_context a' st1 G1) as (Ct' & Cl' & _ & Cj' & _).
  unfold cycleAdvances in Ct', Cl', Cj'. rewrite Nf, andb_false_r in Ct', Cl', Cj'.
  unfold responded in Ct'. rewrite Pb, Rr in Ct'. simpl in Ct'.
  rewrite Pb in Cj'.
  split.
  { unfold generateNextResponse. rewrite G1.
    cbn [lockedPost set_isGenerating turnCount]. rewrite Cl, Tz.
    unfold buildPrompt, getLockedPost.
    cbn [lockedPost set_isGenerating postJustChanged]. rewrite Cl, Cj.
    eexists _, _, _. reflexivity. }
  split.
  { destruct (cycle_outcome a' st1 G1) as (_ & _ & _ & O'). rewrite Ct' in O'.
    destruct O' as (r & _ & Hp & _).
    exists (cycleTurn a' st1 r). split; [exact Hp |].
    unfold cycleTurn, cycleNewPost. cbn [newPost turnNumber].
    unfold timeoutFired in Nf. rewrite Tz in Nf |- *. simpl in Nf. rewrite Nf.
    split; [reflexivity | lia]. }
  split; [exact Cj' |].
  rewrite Cl'. apply lockedForCycle_locked, Cl.
Qed.

Lemma turn_after_advance_witness :
  let st := set_turnCount 4 (resetPostTimer 1000 (lockPost (Some postX) getInitialState)) in
  let a := {| latest := Throws; response := Returns (js "look at that");
              responseAt := 130000;
              refreshed := Returns (Some postY); refreshedAt := 130400 |} in
  let a' := {| latest := Throws; response := Returns (js "oh, a new one");
               responseAt := 135000;
               refreshed := Throws; refreshedAt := 0 |} in
  let st1 := (generationCycle a st).1 in
  (isGenerating st = false /\ 0 <= turnCount st /\ cycleThrows a st = false
   /\ timeoutFired a st = true /\ refreshed a = Returns (Some postY)
   /\ refreshedAt a <> 0 /\ response a' = Returns (js "oh, a new one")
   /\ responseAt a' - refreshedAt a < POST_TIMEOUT_MS)
  /\ (exists d, pendingResponse (generationCycle a' st1).1 = Some d
                /\ newPost d = None
                /\ turnNumber d = turnCount st + 2)
  /\ postJustChanged (generationCycle a' st1).1 = false
  /\ lockedPost (generationCycle a' st1).1 = Some postY.
Proof.
  intros st a a' st1.
  assert (H2 : 0 <= turnCount st) by (vm_compute; discriminate).
  assert (H6 : refreshedAt a <> 0) by discriminate.
  assert (H8 : responseAt a' - refreshedAt a < POST_TIMEOUT_MS) by reflexivity.
  split.
  { split; [reflexivity |]. split; [exact H2 |].
    split; [vm_compute; reflexivity |]. split; [vm_compute; reflexivity |].
    split; [reflexivity |]. split; [exact H6 |]. split; [reflexivity | exact H8]. }
  exact (proj2 (turn_after_advance a a' st postY (js "oh, a new one")
                  eq_refl H2 eq_refl eq_refl eq_refl H6 eq_refl H8)).
Defined.

(** X8.  A generation that fails at the backend has used up the announcement.
    The flag [postJustChanged] is lowered when the prompt is built, before
    the backend is awaited: when that call throws, no turn is produced and
    the flag stays down, so the generation that retries is not told that
    the screen has changed. *)
Theorem failed_generation_uses_up_announcement
        (a : CycleAnswers) (st : ConversationState) :
  isGenerating st = false ->
  promptBuilt a st = true ->
  response a = Throws ->
  postJustChanged (generationCycle a st).1 = false
  /\ pendingResponse (generationCycle a st).1 = pendingResponse st
  /\ turnCount (generationCycle a st).1 = turnCount st
  /\ lockedPost (generationCycle a st).1 = lockedForCycle a st.
Proof.
  intros G Pb Rr.
  assert (Nr : responded a st = false)
    by (unfold responded; rewrite Rr; apply andb_false_r).
  destruct (cycle_context a st G) as (Ct & Cl & _ & Cj & _).
  unfold cycleAdvances in Ct, Cl, Cj. rewrite Nr in Ct, Cl, Cj.
  simpl in Ct, Cl, Cj. rewrite Pb in Cj.
  destruct (cycle_outcome a st G) as (_ & _ & _ & O). rewrite Ct in O.
  destruct O as (Ht & Hp & _).
  repeat split; assumption.
Qed.

Lemma failed_generation_uses_up_announcement_witness :
  let st := set_postJustChanged true
              (set_turnCount 5 (lockPost (Some postY) getInitialState)) in
  let a := {| latest := Throws; response := Throws; responseAt := 0;
              refreshed := Throws; refreshedAt := 0 |} in
  (isGenerating st = false /\ promptBuilt a st = true /\ response a = Throws)
  /\ postJustChanged st = true
  /\ postJustChanged (generationCycle a st).1 = false
  /\ pendingResponse (generationCycle a st).1 = pendingResponse st
  /\ turnCount (generationCycle a st).1 = turnCount st
  /\ lockedPost (generationCycle a st).1 = lockedForCycle a st.
Proof.
  intros st a.
  split; [split; [| split]; reflexivity |].
  split; [reflexivity |].
  exact (failed_generation_uses_up_announcement a st eq_refl eq_refl eq_refl).
Defined.

(** X9.  A failed cycle does not show in the conversation: the cycle that
    follows it produces the turn the failed one would have produced, with
    the same number, the same speaker and the same label, and the ledger
    it extends is the one the failed cycle found. *)
Theorem retry_takes_the_turn
        (a a' : CycleAnswers) (st : ConversationState) :
  isGenerating st = false ->
  cycleThrows a st = true ->
  cycleThrows a' (generationCycle a st).1 = false ->
  exists raw d,
    response a' = Returns raw
    /\ pendingResponse (generationCycle a' (generationCycle a st).1).1 = Some d
    /\ turnNumber d = turnCount st + 1
    /\ speaker d = currentSpeaker st
    /\ speakerName d = name (getCurrentPersona st)
    /\ text d = cleanResponse raw
    /\ history (generationCycle a' (generationCycle a st).1).1
       = cycleHistory st raw.
Proof.
  intros G Th Th'.
  destruct (cycle_outcome a st G) as (_ & G1 & _ & O). rewrite Th in O.
  destruct O as (Ht & _ & Hh & Hs).
  destruct (cycle_outcome a' _ G1) as (_ & _ & _ & O'). rewrite Th' in O'.
  destruct O' as (raw & Hr & Hp & _ & Hh' & _).
  exists raw, (cycleTurn a' (generationCycle a st).1 raw).
  split; [exact Hr |]. split; [exact Hp |].
  unfold cycleTurn, cycleHistory, getCurrentPersona in *.
  cbn [turnNumber speaker speakerName text].
  rewrite Ht, Hs. rewrite Hs, Hh in Hh'.
  repeat split; try reflexivity. exact Hh'.
Qed.

Lemma retry_takes_the_turn_witness :
  let st := set_turnCount 4 (resetPostTimer 1000 (lockPost (Some postX) getInitialState)) in
  let a := {| latest := Throws; response := Throws; responseAt := 0;
              refreshed := Throws; refreshedAt := 0 |} in
  let a' := {| latest := Throws; response := Returns (js "again");
               responseAt := 5000; refreshed := Throws; refreshedAt := 0 |} in
  (isGenerating st = false /\ cycleThrows a st = true
   /\ cycleThrows a' (generationCycle a st).1 = false)
  /\ exists raw d,
    response a' = Returns raw
    /\ pendingResponse (generationCycle a' (generationCycle a st).1).1 = Some d
    /\ turnNumber d = turnCount st + 1
    /\ speaker d = currentSpeaker st
    /\ speakerName d = name (getCurrentPersona st)
    /\ text d = cleanResponse raw
    /\ history (generationCycle a' (generationCycle a st).1).1
       = cycleHistory st raw.
Proof.
  intros st a a'.
  split; [split; [| split]; vm_compute; reflexivity |].
  apply (retry_takes_the_turn a a' st); vm_compute; reflexivity.
Defined.

(** X10.  An advance that fails is tried again.  When [refresh()] throws inside
    [advancePost], the cycle produces no turn (the text it had generated is
    dropped), the post stays but is left unlocked, and the timer is not
    reset: the next cycle finds the timeout fired again. *)
Theorem failed_advance_is_retried
        (a a' : CycleAnswers) (st : ConversationState) :
  isGenerating st = false ->
  responded a st = true ->
  timeoutFired a st = true ->
  refreshed a = Throws ->
  responseAt a <= responseAt a' ->
  let st1 := (generationCycle a st).1 in
  cycleThrows a st = true
  /\ pendingResponse st1 = pendingResponse st
  /\ history st1 = history st
  /\ lockedPost st1 = lockedForCycle a st
  /\ postLocked st1 = false
  /\ postShownAt st1 = postShownAt st
  /\ timeoutFired a' st1 = true.
Proof.
  intros G Rs Tf Rf Hle st1.
  destruct (cycle_context a st G) as (Ct & Cl & Cs & _ & Ck & _).
  unfold cycleAdvances in *. rewrite Rs, Tf, Rf in *. simpl in Ct, Cl, Cs, Ck.
  destruct (cycle_outcome a st G) as (_ & _ & _ & O). rewrite Ct in O.
  destruct O as (Ht & Hp & Hh & _).
  fold st1 in Cl, Cs, Ck, Ht, Hp, Hh.
  repeat split; try assumption.
  unfold timeoutFired in *. apply andb_prop in Tf as [T1 T2].
  rewrite Ht, T1. simpl.
  apply (isPostTimedOut_later (responseAt a)); [| exact Hle].
  unfold isPostTimedOut in *. rewrite Cs. exact T2.
Qed.

Lemma failed_advance_is_retried_witness :
  let st := set_turnCount 4 (resetPostTimer 1000 (lockPost (Some postX) getInitialState)) in
  let a := {| latest := Throws; response := Returns (js "look at that");
              responseAt := 130000; refreshed := Throws; refreshedAt := 0 |} in
  let a' := {| latest := Throws; response := Returns (js "once more");
               responseAt := 133000; refreshed := Throws; refreshedAt := 0 |} in
  let st1 := (generationCycle a st).1 in
  (isGenerating st = false /\ responded a st = true /\ timeoutFired a st = true
   /\ refreshed a = Throws /\ responseAt a <= responseAt a')
  /\ cycleThrows a st = true
  /\ pendingResponse st1 = pendingResponse st
  /\ history st1 = history st
  /\ lockedPost st1 = lockedForCycle a st
  /\ postLocked st1 = false
  /\ postShownAt st1 = postShownAt st
  /\ timeoutFired a' st1 = true.
Proof.
  intros st a a' st1.
  assert (H5 : responseAt a <= responseAt a') by (vm_compute; discriminate).
  split; [split; [| split; [| split; [| split]]];
          try exact H5; vm_compute; reflexivity |].
  exact (failed_advance_is_retried a a' st eq_refl eq_refl eq_refl eq_refl H5).
Defined.

(** X11.  An advance that finds no post.  When [refresh()] answers [null], the
    turn is produced without [newPost], the locked post stays as it was but
    is left unlocked, nothing is announced, and the timer is reset: no new
    advance is tried for two minutes. *)
Theorem advance_without_post
        (a a' : CycleAnswers) (st : ConversationState) :
  isGenerating st = false ->
  responded a st = true ->
  timeoutFired a st = true ->
  refreshed a = Returns None ->
  refreshedAt a <> 0 ->
  responseAt a' - refreshedAt a < POST_TIMEOUT_MS ->
  let st1 := (generationCycle a st).1 in
  (exists d, pendingResponse st1 = Some d /\ newPost d = None
             /\ turnNumber d = turnCount st + 1)
  /\ lockedPost st1 = lockedForCycle a st
  /\ postLocked st1 = false
  /\ postJustChanged st1 = false
  /\ postShownAt st1 = Some (refreshedAt a)
  /\ timeoutFired a' st1 = false.
Proof.
  intros G Rs Tf Rf Rn Rt st1.
  destruct (cycle_context a st G) as (Ct & Cl & Cs & Cj & Ck & _).
  unfold cycleAdvances in *. rewrite Rs, Tf, Rf in *. simpl in Ct, Cl, Cs, Cj, Ck.
  destruct (cycle_outcome a st G) as (_ & _ & _ & O). rewrite Ct in O.
  destruct O as (raw & _ & Hp & _).
  fold st1 in Cl, Cs, Cj, Ck, Hp.
  split.
  { exists (cycleTurn a st raw). split; [exact Hp |].
    unfold cycleTurn, cycleNewPost. cbn [newPost turnNumber].
    unfold timeoutFired in Tf. apply andb_prop in Tf as [T1 T2].
    apply negb_true_iff in T1. rewrite T1, T2, Rf. split; reflexivity. }
  repeat split; try assumption.
  unfold timeoutFired, isPostTimedOut. rewrite Cs.
  destruct (Z.eqb_spec (refreshedAt a) 0) as [E | _]; [contradiction |].
  destruct (Z.leb_spec POST_TIMEOUT_MS (responseAt a' - refreshedAt a));
    [lia | apply andb_false_r].
Qed.

Lemma advance_without_post_witness :
  let st := set_turnCount 4 (resetPostTimer 1000 (lockPost (Some postX) getInitialState)) in
  let a := {| latest := Throws; response := Returns (js "look at that");
              responseAt := 130000; refreshed := Returns None;
              refreshedAt := 130400 |} in
  let a' := {| latest := Throws; response := Returns (js "same old");
               responseAt := 133000; refreshed := Throws; refreshedAt := 0 |} in
  let st1 := (generationCycle a st).1 in
  (isGenerating st = false /\ responded a st = true /\ timeoutFired a st = true
   /\ refreshed a = Returns None /\ refreshedAt a <> 0
   /\ responseAt a' - refreshedAt a < POST_TIMEOUT_MS)
  /\ lockedPost st1 = Some postX
  /\ (exists d, pendingResponse st1 = Some d /\ newPost d = None
                /\ turnNumber d = turnCount st + 1)
  /\ lockedPost st1 = lockedForCycle a st
  /\ postLocked st1 = false
  /\ postJustChanged st1 = false
  /\ postShownAt st1 = Some (refreshedAt a)
  /\ timeoutFired a' st1 = false.
Proof.
  intros st a a' st1.
  assert (H5 : refreshedAt a <> 0) by discriminate.
  assert (H6 : responseAt a' - refreshedAt a < POST_TIMEOUT_MS) by reflexivity.
  split; [split; [| split; [| split; [| split; [| split]]]];
          try exact H5; try exact H6; vm_compute; reflexivity |].
  split; [vm_compute; reflexivity |].
  exact (advance_without_post a a' st eq_refl eq_refl eq_refl eq_refl H5 H6).
Defined.

(* ===================================================================== *)
(** ** Further properties: the ledger and the prompt *)
(* ===================================================================== *)

Lemma sliceLast_app {A} (n : nat) (old recent : list A) :
  (n <= length recent)%nat -> sliceLast n (old ++ recent) = sliceLast n recent.
Proof.
  intros H. unfold sliceLast. rewrite length_app, drop_app.
  rewrite drop_ge by lia. simpl. f_equal. lia.
Qed.

Lemma sliceLast_sliceLast {A} (n m : nat) (l : list A) :
  (n <= m)%nat -> sliceLast n (sliceLast m l) = sliceLast n l.
Proof.
  intros H. destruct (Nat.le_gt_cases (length l) m) as [Hl | Hl].
  - rewrite (sliceLast_short m l Hl). reflexivity.
  - rewrite <- (take_drop (length l - m) l) at 2.
    rewrite sliceLast_app; [reflexivity |].
    rewrite length_drop. lia.
Qed.

Lemma buildConversationHistory_window st h :
  sliceLast 20 h = sliceLast 20 (history st) ->
  buildConversationHistory (set_history h st) = buildConversationHistory st.
Proof.
  intros E. unfold buildConversationHistory. cbn [history set_history].
  destruct h as [| e h]; destruct (history st) as [| e' h'] eqn:Hh.
  - reflexivity.
  - exfalso. assert (L : length (sliceLast 20 (e' :: h')) = 0%nat)
      by (rewrite <- E; reflexivity).
    rewrite sliceLast_length in L. simpl in L. lia.
  - exfalso. assert (L : length (sliceLast 20 (e :: h)) = 0%nat)
      by (rewrite E; reflexivity).
    rewrite sliceLast_length in L. simpl in L. lia.
  - rewrite E. reflexivity.
Qed.

(** X12.  The prompt reads the last twenty entries of the ledger and nothing
    else: older entries can be dropped without changing it.  In
    particular the cap of the ledger at forty entries never changes the
    transcript given to the backend. *)
Theorem prompt_reads_last_twenty
        (st : ConversationState) (old recent : list ConversationHistoryEntry) :
  history st = old ++ recent ->
  (20 <= length recent)%nat ->
  buildConversationHistory (set_history recent st) = buildConversationHistory st
  /\ buildConversationHistory (set_history (sliceLast 40 (history st)) st)
     = buildConversationHistory st.
Proof.
  intros Hh Hl. split.
  - apply buildConversationHistory_window.
    rewrite Hh. symmetry. apply sliceLast_app. exact Hl.
  - apply buildConversationHistory_window.
    apply sliceLast_sliceLast. lia.
Qed.

Lemma prompt_reads_last_twenty_witness :
  let st := set_history (ledgerOf 45) getInitialState in
  (history st = take 25 (ledgerOf 45) ++ drop 25 (ledgerOf 45)
   /\ (20 <= length (drop 25 (ledgerOf 45)))%nat)
  /\ buildConversationHistory (set_history (drop 25 (ledgerOf 45)) st)
     = buildConversationHistory st
  /\ buildConversationHistory (set_history (sliceLast 40 (history st)) st)
     = buildConversationHistory st.
Proof.
  intros st.
  assert (H1 : history st = take 25 (ledgerOf 45) ++ drop 25 (ledgerOf 45))
    by (symmetry; apply take_drop).
  assert (H2 : (20 <= length (drop 25 (ledgerOf 45)))%nat)
    by (vm_compute; lia).
  split; [split; assumption |].
  exact (prompt_reads_last_twenty st _ _ H1 H2).
Defined.

(* ===================================================================== *)
(** ** Further properties: what every schedule keeps *)
(* ===================================================================== *)

(** Every step of a generation is [resumeWith] for some answers. *)
Lemma Step_resume c e c' :
  Step c e c' ->
  match e with
  | LatestArrives i ans =>
      forall awaited ph, tasks c !! i = Some (TGen awaited ph) ->
        c' = genStep c i awaited (resumeWith (onlyLatest ans) ph (svc c))
  | ResponseArrives i now ans =>
      forall awaited ph, tasks c !! i = Some (TGen awaited ph) ->
        c' = genStep c i awaited (resumeWith (onlyResponse now ans) ph (svc c))
  | RefreshArrives i now ans =>
      forall awaited ph, tasks c !! i = Some (TGen awaited ph) ->
        c' = genStep c i awaited (resumeWith (onlyRefresh now ans) ph (svc c))
  | _ => True
  end.
Proof.
  intros S.
  destruct S as [ now | | now A | now A | i by_ T | i by_ post T
                | i awaited f ans T | i awaited f p pe h x now ans T
                | i awaited p pe t now ans T | i T | i T ];
    try exact I; intros aw ph' T'; rewrite T in T';
    try discriminate; injection T' as <- <-; reflexivity.
Qed.

Lemma tidyState_core st st' :
  history st' = history st -> turnCount st' = turnCount st ->
  (forall d, pendingResponse st' = Some d -> pendingResponse st = Some d) ->
  tidyState st -> tidyState st'.
Proof.
  intros Hh Ht Hp (T1 & T2 & T3 & T4).
  unfold tidyState. rewrite Hh, Ht.
  split; [exact T1 | split; [exact T2 | split; [exact T3 |]]].
  intros d Hd. apply T4, Hp, Hd.
Qed.

Lemma completeTurn_tidy persona cleanText newPostForClient st :
  persona = BOSS_PERSONA \/ persona = GIRL_PERSONA ->
  tidyState st ->
  tidyState (completeTurn persona cleanText newPostForClient st).
Proof.
  intros Hpe (T1 & T2 & T3 & T4).
  assert (Hl : agentLabel (name persona))
    by (destruct Hpe as [-> | ->]; [left | right]; reflexivity).
  destruct (completeTurn_fields persona cleanText newPostForClient st)
    as (_ & _ & Ht & Hp & _).
  split; [| split; [| split]].
  - rewrite completeTurn_history.
    eapply Forall_sublist; [apply sublist_drop |].
    destruct (nonEmpty cleanText) eqn:E; [| exact T1].
    apply Forall_app; split; [exact T1 |].
    constructor; [split; [exact E | exact Hl] | constructor].
  - apply completeTurn_history_capped.
  - rewrite Ht. lia.
  - intros d. rewrite Hp. intros [= <-]. split; [simpl; lia | exact Hl].
Qed.

Lemma getCurrentPersona_known st :
  getCurrentPersona st = BOSS_PERSONA \/ getCurrentPersona st = GIRL_PERSONA.
Proof. unfold getCurrentPersona. destruct (currentSpeaker st); auto. Qed.

Lemma generateNextResponse_tidy awaited st :
  tidyState st ->
  tidyState (generateNextResponse st).1
  /\ Forall knownPersona (genTasks awaited (generateNextResponse st).2).
Proof.
  intros T. destruct (isGenerating st) eqn:G.
  - rewrite (generateNextResponse_busy st G). simpl.
    split; [exact T | destruct awaited; repeat constructor].
  - unfold generateNextResponse. rewrite G.
    cbn [lockedPost set_isGenerating].
    destruct (lockedPost st); cbn [fst snd genTasks buildPrompt].
    + split; [revert T; apply tidyState_core; auto |].
      constructor; [| constructor]. simpl. apply getCurrentPersona_known.
    + split; [revert T; apply tidyState_core; auto |].
      constructor; [exact I | constructor].
Qed.

Lemma resumeWith_tidy a ph st awaited :
  knownPersona (TGen awaited ph) ->
  tidyState st ->
  tidyState (resumeWith a ph st).1
  /\ Forall knownPersona (genTasks awaited (resumeWith a ph st).2).
Proof.
  intros K T.
  assert (Nil : Forall knownPersona (genTasks awaited None))
    by (destruct awaited; repeat constructor).
  destruct ph as [f | f p pe h x | p pe t]; simpl in K; cbn [resumeWith].
  - unfold resumeLatest. destruct (latest a) as [post |]; cbn [fst snd].
    + split; [| constructor; [simpl; apply getCurrentPersona_known | constructor]].
      revert T. apply tidyState_core; destruct post; auto.
    + split; [revert T; apply tidyState_core; auto | exact Nil].
  - unfold resumeResponse. destruct (response a) as [raw |]; cbn [fst snd].
    + destruct f; cbn [fst snd].
      * split; [apply completeTurn_tidy; assumption | exact Nil].
      * destruct (isPostTimedOut (responseAt a) st); cbn [fst snd].
        -- split; [revert T; apply tidyState_core; auto |].
           constructor; [exact K | constructor].
        -- split; [apply completeTurn_tidy; assumption | exact Nil].
    + split; [revert T; apply tidyState_core; auto | exact Nil].
  - unfold resumeAdvance. destruct (refreshed a) as [np |]; cbn [fst snd].
    + split; [| exact Nil]. apply completeTurn_tidy; [exact K |].
      revert T. apply tidyState_core; destruct np; auto.
    + split; [revert T; apply tidyState_core; auto | exact Nil].
Qed.

Lemma pollBody_tidy c rest :
  Tidy c -> Forall knownPersona rest ->
  Tidy (afterPollBody c rest (pollBody (svc c))).
Proof.
  intros [Ts Tt Td] Hr. unfold pollBody.
  destruct (pendingResponse (svc c)) as [response |] eqn:Hp.
  - assert (T0 : tidyState (set_pendingResponse None (svc c)))
      by (revert Ts; apply tidyState_core; auto; discriminate).
    destruct (generateNextResponse_tidy false _ T0) as [T1 T2].
    destruct (generateNextResponse (set_pendingResponse None (svc c))) as [st g].
    constructor; cbn [svc tasks afterPollBody]; [exact T1 | |].
    + apply Forall_app; split; assumption.
    + rewrite delivered_line. apply Forall_app; split; [exact Td |].
      constructor; [apply (proj2 (proj2 (proj2 Ts)) _ Hp) | constructor].
  - destruct (isGenerating (svc c)).
    + constructor; cbn [svc tasks afterPollBody]; [exact Ts | |].
      * rewrite app_nil_r. exact Hr.
      * rewrite delivered_waiting. exact Td.
    + destruct (generateNextResponse_tidy true _ Ts) as [T1 T2].
      destruct (generateNextResponse (svc c)) as [st g].
      constructor; cbn [svc tasks afterPollBody]; [exact T1 | | exact Td].
      apply Forall_app; split; assumption.
Qed.

Lemma tidy_step c e c' : Tidy c -> Step c e c' -> Tidy c'.
Proof.
  intros T S. pose proof (Step_resume c e c' S) as R.
  destruct T as [Ts Tt Td].
  assert (T0 : tidyState (startConversation_begin 0)).
  { repeat split; simpl; try constructor; try lia; discriminate. }
  destruct S as [ now | | now A | now A | i by_ T | i by_ post T
                | i awaited f ans T | i awaited f p pe h x now ans T
                | i awaited p pe t now ans T | i T | i T ].
  - constructor; cbn [svc tasks]; [| | exact Td].
    + revert T0. apply tidyState_core; auto.
    + apply Forall_app; split; [exact Tt | repeat constructor].
  - constructor; cbn [svc tasks]; [| exact Tt | exact Td].
    revert Ts. apply tidyState_core; auto.
  - constructor; cbn [svc tasks]; [| | exact Td].
    + revert T0. apply tidyState_core; auto.
    + apply Forall_app; split; [exact Tt | repeat constructor].
  - apply pollBody_tidy; [constructor; assumption | exact Tt].
  - constructor; cbn [svc tasks]; [exact Ts | | exact Td].
    apply Forall_delete, Tt.
  - assert (T1 : tidyState (lockPost post (svc c)))
      by (revert Ts; apply tidyState_core; destruct post; auto).
    destruct (generateNextResponse_tidy false _ T1) as [T2 T3].
    constructor; cbn [svc tasks]; [exact T2 | | exact Td].
    apply Forall_app; split; [apply Forall_delete, Tt |].
    apply Forall_app; split; [exact T3 | destruct by_; repeat constructor].
  - rewrite (R _ _ T).
    destruct (resumeWith_tidy (onlyLatest ans) _ (svc c) awaited
                (proj1 (Forall_lookup _ _) Tt i _ T) Ts) as [T1 T2].
    constructor; cbn [svc tasks genStep]; [exact T1 | | exact Td].
    apply Forall_app; split; [apply Forall_delete, Tt | exact T2].
  - rewrite (R _ _ T).
    destruct (resumeWith_tidy (onlyResponse now ans) _ (svc c) awaited
                (proj1 (Forall_lookup _ _) Tt i _ T) Ts) as [T1 T2].
    constructor; cbn [svc tasks genStep]; [exact T1 | | exact Td].
    apply Forall_app; split; [apply Forall_delete, Tt | exact T2].
  - rewrite (R _ _ T).
    destruct (resumeWith_tidy (onlyRefresh now ans) _ (svc c) awaited
                (proj1 (Forall_lookup _ _) Tt i _ T) Ts) as [T1 T2].
    constructor; cbn [svc tasks genStep]; [exact T1 | | exact Td].
    apply Forall_app; split; [apply Forall_delete, Tt | exact T2].
  - apply pollBody_tidy; [constructor; assumption | apply Forall_delete, Tt].
  - unfold pollAfterGeneration.
    destruct (pendingResponse (svc c)) as [response |] eqn:Hp.
    + assert (T1 : tidyState (set_pendingResponse None (svc c)))
        by (revert Ts; apply tidyState_core; auto; discriminate).
      destruct (generateNextResponse_tidy false _ T1) as [T2 T3].
      destruct (generateNextResponse (set_pendingResponse None (svc c))) as [st g].
      constructor; cbn [svc tasks fst snd]; [exact T2 | |].
      * apply Forall_app; split; [apply Forall_delete, Tt | exact T3].
      * rewrite delivered_line. apply Forall_app; split; [exact Td |].
        constructor; [apply (proj2 (proj2 (proj2 Ts)) _ Hp) | constructor].
    + constructor; cbn [svc tasks fst snd]; [exact Ts | |].
      * rewrite app_nil_r. apply Forall_delete, Tt.
      * rewrite delivered_waiting. exact Td.
Qed.

Lemma tidy_fresh : Tidy fresh.
Proof.
  constructor; [| constructor | constructor].
  repeat split; simpl; try constructor; try lia; discriminate.
Qed.

(** X13.  Whatever is called and in whatever order, restarts and [stop()]
    included: the ledger never holds more than forty entries, each with a
    text that is not empty and the label of one of the two agents; the turn
    count is never negative, and every turn handed out has a number of at
    least 1 and the label of one of the two agents. *)
Theorem every_schedule_keeps_ledger_tidy (es : list Event) (c : Config) :
  run es fresh = Some c ->
  (length (history (svc c)) <= 40)%nat
  /\ Forall tidyEntry (history (svc c))
  /\ 0 <= turnCount (svc c)
  /\ Forall tidyLine (delivered c).
Proof.
  intros R.
  assert (T : Tidy c).
  { revert R. generalize tidy_fresh. generalize fresh.
    induction es as [| e es IH]; intros c0 T0 R; simpl in R.
    - injection R as <-. exact T0.
    - destruct (exec e c0) as [c1 |] eqn:E; [| discriminate].
      apply (IH c1); [| exact R].
      apply (tidy_step c0 e c1 T0). apply exec_Step, E. }
  destruct T as [(T1 & T2 & T3 & _) _ Td].
  repeat split; assumption.
Qed.

Lemma every_schedule_keeps_ledger_tidy_witness :
  let es := startThen 1000 (Some postX)
              (threeTurns ++ [CallStop; CallNext 300000;
                              ResponseArrives 0 300500 (Returns (js "late"))]) in
  let c := default fresh (run es fresh) in
  run es fresh = Some c
  /\ map turnNumber (delivered c) = [1; 2; 3]
  /\ (length (history (svc c)) <= 40)%nat
  /\ Forall tidyEntry (history (svc c))
  /\ 0 <= turnCount (svc c)
  /\ Forall tidyLine (delivered c).
Proof.
  intros es c.
  assert (R : run es fresh = Some c) by (vm_compute; reflexivity).
  split; [exact R |]. split; [vm_compute; reflexivity |].
  exact (every_schedule_keeps_ledger_tidy es c R).
Defined.

(* ===================================================================== *)
(** ** Further properties: the label of a turn *)
(* ===================================================================== *)

Lemma getCurrentPersona_personaOf st :
  getCurrentPersona st = personaOf (currentSpeaker st).
Proof. reflexivity. Qed.

Lemma grounded_persona st l :
  flights l = 0%nat -> Forall (personaCurrent st) l.
Proof.
  induction l as [| t l IH]; intros H; constructor.
  - destruct t; simpl; try exact I.
    rewrite flights_cons in H. simpl in H. lia.
  - apply IH. rewrite flights_cons in H. lia.
Qed.

(** A segment of a generation that speaks for the current speaker: it is
    suspended again speaking for the current speaker, or it ends, and the
    turn it has stored, if any, bears the label of its speaker. *)
Lemma resumeWith_labelled a ph st awaited :
  personaCurrent st (TGen awaited ph) ->
  match (resumeWith a ph st).2 with
  | Some ph' => personaCurrent (resumeWith a ph st).1 (TGen awaited ph')
  | None =>
      forall d, pendingResponse (resumeWith a ph st).1 = Some d ->
                pendingResponse st = Some d \/ labelled d
  end.
Proof.
  intros K.
  destruct ph as [f | f p pe h x | p pe t]; simpl in K; cbn [resumeWith].
  - unfold resumeLatest. destruct (latest a) as [post |]; cbn [fst snd].
    + simpl. destruct post; reflexivity.
    + intros d Hd. left. exact Hd.
  - unfold resumeResponse. destruct (response a) as [raw |]; cbn [fst snd];
      [| intros d Hd; left; exact Hd].
    destruct f; cbn [fst snd];
      [| destruct (isPostTimedOut (responseAt a) st); cbn [fst snd]].
    + intros d.
      rewrite (proj1 (proj2 (proj2 (proj2
                 (completeTurn_fields pe (cleanResponse raw) p st))))).
      intros [= <-]. right. unfold labelled. simpl. rewrite K. reflexivity.
    + simpl. exact K.
    + intros d.
      rewrite (proj1 (proj2 (proj2 (proj2
                 (completeTurn_fields pe (cleanResponse raw) None st))))).
      intros [= <-]. right. unfold labelled. simpl. rewrite K. reflexivity.
  - unfold resumeAdvance. destruct (refreshed a) as [np |]; cbn [fst snd];
      [| intros d Hd; left; exact Hd].
    intros d.
    rewrite (proj1 (proj2 (proj2 (proj2
               (completeTurn_fields pe t np
                  (advancePost_end (refreshedAt a) np st)))))).
    intros [= <-]. right. unfold labelled. simpl. rewrite K.
    destruct np; reflexivity.
Qed.

Lemma labelled_gen c i awaited ph a :
  Steady c -> Labelled c ->
  tasks c !! i = Some (TGen awaited ph) ->
  Labelled (genStep c i awaited (resumeWith a ph (svc c))).
Proof.
  intros S [Lt Lp Ld] T.
  pose proof (steady_flight c S) as F.
  rewrite inFlight_flights, (flights_delete _ _ _ T) in F. simpl in F.
  assert (G : isGenerating (svc c) = true)
    by (destruct (isGenerating (svc c)); [reflexivity | lia]).
  rewrite G in F.
  assert (F0 : flights (delete i (tasks c)) = 0%nat) by lia.
  pose proof (steady_exclusive c S G) as Pn.
  pose proof (resumeWith_labelled a ph (svc c) awaited
                (proj1 (Forall_lookup _ _) Lt i _ T)) as R.
  constructor; cbn [svc tasks genStep].
  - apply Forall_app; split; [apply grounded_persona, F0 |].
    destruct (resumeWith a ph (svc c)).2 as [ph' |]; cbn [genTasks].
    + constructor; [exact R | constructor].
    + destruct awaited; repeat constructor.
  - destruct (resumeWith a ph (svc c)).2 as [ph' |] eqn:E.
    + intros d Hd. exfalso.
      assert (Hs : pendingResponse (resumeWith a ph (svc c)).1 = None).
      { destruct ph as [f | f p pe h x | p pe t]; cbn [resumeWith] in *.
        - unfold resumeLatest in *.
          destruct (latest a) as [post |]; [| discriminate].
          destruct post; exact Pn.
        - unfold resumeResponse in *.
          destruct (response a); [| discriminate].
          destruct f; [discriminate |].
          destruct (isPostTimedOut (responseAt a) (svc c)); [| discriminate].
          exact Pn.
        - rewrite resumeAdvance_over in E. discriminate. }
      rewrite Hs in Hd. discriminate.
    + intros d Hd. destruct (R d Hd) as [H | H]; [| exact H].
      rewrite Pn in H. discriminate.
  - exact Ld.
Qed.

Lemma labelled_call c rest awaited st rs :
  Steady c -> Labelled c ->
  flights rest = flights (tasks c) ->
  currentSpeaker st = currentSpeaker (svc c) ->
  (isGenerating st = false -> pendingResponse st = None) ->
  (isGenerating st = true -> st = svc c) ->
  Forall (personaCurrent (svc c)) rest ->
  Forall labelled (omap (fun r => match r with Line d => Some d | Waiting => None end) rs) ->
  Labelled {| svc := (generateNextResponse st).1;
              tasks := rest ++ genTasks awaited (generateNextResponse st).2;
              replies := rs |}.
Proof.
  intros S [Lt Lp Ld] Fr Hs Hn Hb Hrest Hrs.
  destruct (isGenerating st) eqn:G.
  - rewrite (generateNextResponse_busy st G). cbn [fst snd genTasks].
    rewrite (Hb eq_refl) in *.
    constructor; cbn [svc tasks]; [| exact Lp | exact Hrs].
    apply Forall_app; split; [exact Hrest | destruct awaited; repeat constructor].
  - destruct (generateNextResponse_idle st G)
      as (st' & ph & E & Ig & Ia & It & Ip & Is & Ih & Il & Iq).
    rewrite E. cbn [fst snd genTasks].
    constructor; cbn [svc tasks]; [| | exact Hrs].
    + apply Forall_app; split.
      * eapply Forall_impl; [exact Hrest |].
        intros t. unfold personaCurrent, getCurrentPersona.
        rewrite Is, Hs. auto.
      * constructor; [| constructor].
        unfold generateNextResponse in E. rewrite G in E.
        cbn [lockedPost set_isGenerating] in E.
        destruct (lockedPost st); cbn [buildPrompt] in E;
          injection E as <- <-; simpl; reflexivity.
    + rewrite Ip, (Hn eq_refl). discriminate.
Qed.

Lemma labelled_step c e c' :
  Steady c -> Labelled c -> pollEvent e = true -> Step c e c' -> Labelled c'.
Proof.
  intros S L Hp St. pose proof (Step_resume c e c' St) as R.
  pose proof L as [Lt Lp Ld].
  assert (Pop : forall d, pendingResponse (svc c) = Some d ->
                          isGenerating (svc c) = false).
  { intros d Hd. destruct (isGenerating (svc c)) eqn:G; [| reflexivity].
    rewrite (steady_exclusive c S G) in Hd. discriminate. }
  assert (Poll : forall rest,
             flights rest = flights (tasks c) ->
             Forall (personaCurrent (svc c)) rest ->
             Labelled (afterPollBody c rest (pollBody (svc c)))).
  { intros rest Fr Hrest. unfold pollBody.
    destruct (pendingResponse (svc c)) as [response |] eqn:Hd.
    - pose proof (labelled_call c rest false (set_pendingResponse None (svc c))
                    (replies c ++ [Line response]) S L Fr eq_refl) as P.
      destruct (generateNextResponse (set_pendingResponse None (svc c))) as [st g].
      apply P; auto.
      + simpl. rewrite (Pop _ eq_refl). discriminate.
      + rewrite omap_app. apply Forall_app; split; [exact Ld |].
        constructor; [exact (Lp _ eq_refl) | constructor].
    - destruct (isGenerating (svc c)) eqn:G.
      + constructor; cbn [svc tasks afterPollBody].
        * rewrite app_nil_r. exact Hrest.
        * intros d Hx. rewrite Hd in Hx. discriminate.
        * rewrite delivered_waiting. exact Ld.
      + pose proof (labelled_call c rest true (svc c) (replies c)
                      S L Fr eq_refl) as P.
        destruct (generateNextResponse (svc c)) as [st g].
        apply P; auto. }
  destruct St as [ now | | now A | now A | i by_ T | i by_ post T
                 | i awaited f ans T | i awaited f p pe h x now ans T
                 | i awaited p pe t now ans T | i T | i T ];
    try discriminate;
    try (pose proof (pollTask_lookup _ _ _ (steady_tasks c S) T) as B;
         contradiction).
  - rewrite (steady_active c S) in A. discriminate.
  - apply Poll; [reflexivity | exact Lt].
  - rewrite (R _ _ T). apply labelled_gen; assumption.
  - rewrite (R _ _ T). apply labelled_gen; assumption.
  - rewrite (R _ _ T). apply labelled_gen; assumption.
  - unfold pollAfterGeneration.
    assert (Fr : flights (delete i (tasks c)) = flights (tasks c))
      by (rewrite (flights_delete _ _ _ T); reflexivity).
    destruct (pendingResponse (svc c)) as [response |] eqn:Hd.
    + pose proof (labelled_call c (delete i (tasks c)) false
                    (set_pendingResponse None (svc c))
                    (replies c ++ [Line response]) S L Fr eq_refl) as P.
      destruct (generateNextResponse (set_pendingResponse None (svc c))) as [st g].
      apply P; auto.
      * simpl. rewrite (Pop _ eq_refl). discriminate.
      * apply Forall_delete, Lt.
      * rewrite omap_app. apply Forall_app; split; [exact Ld |].
        constructor; [exact (Lp _ eq_refl) | constructor].
    + constructor; cbn [svc tasks fst snd].
      * rewrite app_nil_r. apply Forall_delete, Lt.
      * intros d Hx. rewrite Hd in Hx. discriminate.
      * rewrite delivered_waiting. exact Ld.
Qed.

Lemma labelled_started now initialPost : Labelled (started now initialPost).
Proof.
  destruct initialPost; constructor; simpl;
    try discriminate; repeat constructor.
Qed.

(** X14.  After [startConversation()] and under every schedule of polls, each
    turn handed out bears the label of the persona of its speaker: "Agent
    1" when [speaker] is [boss], "Agent 2" when it is [girl]. *)
Theorem delivered_turns_are_labelled
        (now : Z) (initialPost : option MoltbookPost) (es : list Event)
        (c : Config) :
  forallb pollEvent es = true ->
  run (startThen now initialPost es) fresh = Some c ->
  Forall (fun d => speakerName d
                   = match speaker d with
                     | boss => js "Agent 1"
                     | girl => js "Agent 2"
                     end) (delivered c).
Proof.
  intros Hp R.
  assert (R' : run es (started now initialPost) = Some c)
    by (destruct initialPost; exact R).
  assert (H : Steady c /\ Labelled c).
  { clear R. revert R' Hp.
    generalize (steady_started now initialPost) (labelled_started now initialPost).
    generalize (started now initialPost).
    induction es as [| e es IH]; intros c0 S0 L0 R' Hp; simpl in *.
    - injection R' as <-. split; assumption.
    - apply andb_prop in Hp as [He Hes].
      destruct (exec e c0) as [c1 |] eqn:E; [| discriminate].
      apply (IH c1); try assumption.
      + apply (steady_step c0 e c1 S0 He), exec_Step, E.
      + apply (labelled_step c0 e c1 S0 L0 He), exec_Step, E. }
  destruct H as [_ [_ _ Ld]].
  eapply Forall_impl; [exact Ld |].
  intros d Hd. rewrite Hd. destruct (speaker d); reflexivity.
Qed.

Lemma delivered_turns_are_labelled_witness :
  let c := default fresh (run (startThen 1000 (Some postX) threeTurns) fresh) in
  (forallb pollEvent threeTurns = true
   /\ run (startThen 1000 (Some postX) threeTurns) fresh = Some c)
  /\ map speakerName (delivered c) = [js "Agent 1"; js "Agent 2"; js "Agent 1"]
  /\ Forall (fun d => speakerName d
                      = match speaker d with
                        | boss => js "Agent 1"
                        | girl => js "Agent 2"
                        end) (delivered c).
Proof.
  intros c.
  assert (R : run (startThen 1000 (Some postX) threeTurns) fresh = Some c)
    by (vm_compute; reflexivity).
  split; [split; [reflexivity | exact R] |].
  split; [vm_compute; reflexivity |].
  exact (delivered_turns_are_labelled 1000 (Some postX) threeTurns c eq_refl R).
Defined.

(* ===================================================================== *)
(** ** Further properties: stop() *)
(* ===================================================================== *)

Lemma completeTurn_stop persona cleanText newPostForClient st :
  completeTurn persona cleanText newPostForClient (stop st)
  = stop (completeTurn persona cleanText newPostForClient st).
Proof.
  destruct st. unfold completeTurn, stop.
  destruct (nonEmpty cleanText); simpl;
    repeat match goal with
           | |- context [(40 <? ?n)%nat] => destruct (40 <? n)%nat
           end; reflexivity.
Qed.

Lemma generateNextResponse_stop st :
  generateNextResponse (stop st)
  = (stop (generateNextResponse st).1, (generateNextResponse st).2).
Proof.
  unfold generateNextResponse, stop. cbn.
  destruct (isGenerating st); [reflexivity |].
  destruct (lockedPost st); reflexivity.
Qed.

Lemma resumeWith_stop a ph st :
  resumeWith a ph (stop st)
  = (stop (resumeWith a ph st).1, (resumeWith a ph st).2).
Proof.
  destruct ph as [f | f p pe h x | p pe t]; cbn [resumeWith].
  - unfold resumeLatest. destruct (latest a) as [[post |] |]; reflexivity.
  - unfold resumeResponse. destruct (response a) as [raw |]; [| reflexivity].
    destruct f; cbn [fst snd].
    + rewrite completeTurn_stop. reflexivity.
    + change (isPostTimedOut (responseAt a) (stop st))
        with (isPostTimedOut (responseAt a) st).
      destruct (isPostTimedOut (responseAt a) st); cbn [fst snd].
      * reflexivity.
      * rewrite completeTurn_stop. reflexivity.
  - unfold resumeAdvance. destruct (refreshed a) as [np |]; [| reflexivity].
    cbn [fst snd].
    replace (advancePost_end (refreshedAt a) np (stop st))
      with (stop (advancePost_end (refreshedAt a) np st))
      by (destruct np; reflexivity).
    rewrite completeTurn_stop. reflexivity.
Qed.

Lemma pollBody_stop st :
  pollBody (stop st)
  = (stop (pollBody st).1.1, (pollBody st).1.2, (pollBody st).2).
Proof.
  unfold pollBody.
  change (pendingResponse (stop st)) with (pendingResponse st).
  change (isGenerating (stop st)) with (isGenerating st).
  destruct (pendingResponse st) as [response |].
  - change (set_pendingResponse None (stop st))
      with (stop (set_pendingResponse None st)).
    rewrite generateNextResponse_stop.
    destruct (generateNextResponse (set_pendingResponse None st)). reflexivity.
  - destruct (isGenerating st); [reflexivity |].
    rewrite generateNextResponse_stop.
    destruct (generateNextResponse st). reflexivity.
Qed.

Lemma pollAfterGeneration_stop st :
  pollAfterGeneration (stop st)
  = (stop (pollAfterGeneration st).1.1, (pollAfterGeneration st).1.2,
     (pollAfterGeneration st).2).
Proof.
  unfold pollAfterGeneration.
  change (pendingResponse (stop st)) with (pendingResponse st).
  destruct (pendingResponse st) as [response |]; [| reflexivity].
  change (set_pendingResponse None (stop st))
    with (stop (set_pendingResponse None st)).
  rewrite generateNextResponse_stop.
  destruct (generateNextResponse (set_pendingResponse None st)). reflexivity.
Qed.

(** X15.  [stop()] aborts nothing.  It only lowers [isActive], which the next
    poll and nothing else reads: every resumption (of a generation, of a
    start, of a poll) does after [stop()] what it would have done without
    it, so the generation in flight still completes and stores its turn;
    [getStatus] then reports the conversation as not active, with the
    turn count as it is; and a second [stop()] changes nothing. *)
Theorem stop_aborts_nothing (e : Event) (c : Config) :
  gated e = false ->
  exec e (stopped c) = option_map stopped (exec e c)
  /\ getStatus (svc (stopped c)) = (false, turnCount (svc c))
  /\ stopped (stopped c) = stopped c.
Proof.
  intros Hg. split; [| split; reflexivity].
  destruct e as [now | now | | i ans | i now ans | i now ans | i];
    try discriminate; cbn [exec stopped svc tasks replies option_map].
  - reflexivity.
  - destruct (tasks c !! i) as [[by_ | awaited [f | | ] | | ] |];
      try reflexivity.
    + destruct ans as [post |]; [| reflexivity].
      unfold startConversation_end.
      replace (lockPost post (stop (svc c))) with (stop (lockPost post (svc c)))
        by (destruct post; reflexivity).
      rewrite generateNextResponse_stop.
      destruct (generateNextResponse (lockPost post (svc c))). reflexivity.
    + change (resumeLatest f ans (stop (svc c)))
        with (resumeWith (onlyLatest ans) (AwaitLatest f) (stop (svc c))).
      rewrite resumeWith_stop. cbn [resumeWith onlyLatest latest].
      destruct (resumeLatest f ans (svc c)). reflexivity.
  - destruct (tasks c !! i) as [[by_ | awaited [ | f p pe h x | ] | | ] |];
      try reflexivity.
    change (resumeResponse f p pe now ans (stop (svc c)))
      with (resumeWith (onlyResponse now ans) (AwaitResponse f p pe h x)
                       (stop (svc c))).
    rewrite resumeWith_stop.
    cbn [resumeWith onlyResponse response responseAt].
    destruct (resumeResponse f p pe now ans (svc c)). reflexivity.
  - destruct (tasks c !! i) as [[by_ | awaited [ | | p pe t] | | ] |];
      try reflexivity.
    change (resumeAdvance pe t now ans (stop (svc c)))
      with (resumeWith (onlyRefresh now ans) (AwaitAdvance p pe t)
                       (stop (svc c))).
    rewrite resumeWith_stop.
    cbn [resumeWith onlyRefresh refreshed refreshedAt].
    destruct (resumeAdvance pe t now ans (svc c)). reflexivity.
  - destruct (tasks c !! i) as [[by_ | awaited ph | | ] |]; try reflexivity.
    + rewrite pollBody_stop.
      destruct (pollBody (svc c)) as [[st g] [res |]]; reflexivity.
    + rewrite pollAfterGeneration_stop.
      destruct (pollAfterGeneration (svc c)) as [[st g] res]. reflexivity.
Qed.

Lemma stop_aborts_nothing_witness :
  let c := started 1000 (Some postX) in
  let e := ResponseArrives 0 1500 (Returns (js "hello")) in
  gated e = false
  /\ (exists c', exec e (stopped c) = Some c'
                 /\ isActive (svc c') = false
                 /\ option_map turnNumber (pendingResponse (svc c')) = Some 1)
  /\ exec e (stopped c) = option_map stopped (exec e c)
  /\ getStatus (svc (stopped c)) = (false, turnCount (svc c))
  /\ stopped (stopped c) = stopped c.
Proof.
  intros c e. split; [reflexivity |].
  split; [eexists; vm_compute; repeat split |].
  exact (stop_aborts_nothing e c eq_refl).
Defined.

(* ===================================================================== *)
(** ** Further properties: what a poll does *)
(* ===================================================================== *)

(** X16.  Lookahead.  On a fresh service, after the first
    [startConversation()] has been answered and under every schedule of
    polls (no [stop()], no further start), a poll that finds a pending
    turn hands it out, empties the slot and starts the generation of the
    next turn in the same step: from there exactly one generation is in
    flight. *)
Theorem poll_delivers_and_looks_ahead
        (now : Z) (initialPost : option MoltbookPost) (es : list Event)
        (c : Config) (d : DialogueLine) (now' : Z) :
  forallb pollEvent es = true ->
  run (startThen now initialPost es) fresh = Some c ->
  pendingResponse (svc c) = Some d ->
  exists c',
    exec (CallNext now') c = Some c'
    /\ replies c' = replies c ++ [Line d]
    /\ pendingResponse (svc c') = None
    /\ isGenerating (svc c') = true
    /\ inFlight c' = 1%nat
    /\ turnCount (svc c') = turnCount (svc c)
    /\ turnNumber d = turnCount (svc c).
Proof.
  intros Hp R Hd.
  pose proof (steady_startThen now initialPost es c Hp R) as S.
  assert (G : isGenerating (svc c) = false).
  { destruct (isGenerating (svc c)) eqn:G; [| reflexivity].
    rewrite (steady_exclusive c S G) in Hd. discriminate. }
  pose proof (steady_flight c S) as F. rewrite G, inFlight_flights in F.
  destruct (generateNextResponse_idle (set_pendingResponse None (svc c)) G)
    as (st' & ph & E & Ig & _ & It & Ip & _).
  exists {| svc := st'; tasks := tasks c ++ [TGen false ph];
            replies := replies c ++ [Line d] |}.
  split.
  { simpl. rewrite (steady_active c S). unfold pollBody. rewrite Hd, E.
    reflexivity. }
  cbn [svc tasks replies].
  split; [reflexivity |]. split; [exact Ip |]. split; [exact Ig |].
  split; [rewrite inFlight_flights; cbn [tasks];
          rewrite flights_app, F; reflexivity |].
  split; [exact It |].
  exact (proj1 (steady_pending c S d Hd)).
Qed.

Lemma poll_delivers_and_looks_ahead_witness :
  let es := [ResponseArrives 0 1500 (Returns (js "hello"))] in
  let c := default fresh (run (startThen 1000 (Some postX) es) fresh) in
  let d := {| speaker := boss; speakerName := js "Agent 1"; text := js "hello";
              turnNumber := 1; newPost := Some postX |} in
  (forallb pollEvent es = true
   /\ run (startThen 1000 (Some postX) es) fresh = Some c
   /\ pendingResponse (svc c) = Some d)
  /\ exists c',
    exec (CallNext 2000) c = Some c'
    /\ replies c' = replies c ++ [Line d]
    /\ pendingResponse (svc c') = None
    /\ isGenerating (svc c') = true
    /\ inFlight c' = 1%nat
    /\ turnCount (svc c') = turnCount (svc c)
    /\ turnNumber d = turnCount (svc c).
Proof.
  intros es c d.
  assert (R : run (startThen 1000 (Some postX) es) fresh = Some c)
    by (vm_compute; reflexivity).
  assert (Hd : pendingResponse (svc c) = Some d) by (vm_compute; reflexivity).
  split; [split; [reflexivity | split; assumption] |].
  exact (poll_delivers_and_looks_ahead 1000 (Some postX) es c d 2000 eq_refl R Hd).
Defined.

(** X17.  On a fresh service, after the first [startConversation()] has
    been answered and under every schedule of polls (no [stop()], no
    further start), a poll made while the generation runs answers
    "waiting" and changes neither the state nor the suspended calls. *)
Theorem poll_while_generating_waits
        (now : Z) (initialPost : option MoltbookPost) (es : list Event)
        (c : Config) (now' : Z) :
  forallb pollEvent es = true ->
  run (startThen now initialPost es) fresh = Some c ->
  isGenerating (svc c) = true ->
  exec (CallNext now') c
  = Some {| svc := svc c; tasks := tasks c; replies := replies c ++ [Waiting] |}.
Proof.
  intros Hp R G.
  pose proof (steady_startThen now initialPost es c Hp R) as S.
  rewrite (steady_poll_waits c now' S G), app_nil_r. reflexivity.
Qed.

Lemma poll_while_generating_waits_witness :
  let c := default fresh (run (startThen 1000 (Some postX) threeTurns) fresh) in
  (forallb pollEvent threeTurns = true
   /\ run (startThen 1000 (Some postX) threeTurns) fresh = Some c
   /\ isGenerating (svc c) = true)
  /\ exec (CallNext 200600) c
     = Some {| svc := svc c; tasks := tasks c; replies := replies c ++ [Waiting] |}.
Proof.
  intros c.
  assert (R : run (startThen 1000 (Some postX) threeTurns) fresh = Some c)
    by (vm_compute; reflexivity).
  assert (G : isGenerating (svc c) = true) by (vm_compute; reflexivity).
  split; [split; [reflexivity | split; assumption] |].
  exact (poll_while_generating_waits 1000 (Some postX) threeTurns c 200600
           eq_refl R G).
Defined.

(* ===================================================================== *)
(** ** Further properties: DatabaseService.getNextPost() *)
(* ===================================================================== *)

Section DatabaseServiceProperties.
Import DatabaseService.

Lemma markShown_id (now p : Z) (r : StoredPost) : id (markShown now p r) = id r.
Proof. unfold markShown. destruct (id r =? p); reflexivity. Qed.

Lemma markShown_count (now p : Z) (r : StoredPost) :
  shown_count (markShown now p r)
  = if id r =? p then shown_count r + 1 else shown_count r.
Proof. unfold markShown. destruct (id r =? p); reflexivity. Qed.

Lemma markShown_ids (now p : Z) (table : list StoredPost) :
  map id (map (markShown now p) table) = map id table.
Proof.
  induction table as [| r t IH]; [reflexivity |].
  simpl. rewrite markShown_id, IH. reflexivity.
Qed.

Lemma markShown_absent (now p : Z) (table : list StoredPost) :
  ~ In p (map id table) -> map (markShown now p) table = table.
Proof.
  induction table as [| r t IH]; [reflexivity |].
  simpl. intros N. rewrite IH by tauto.
  unfold markShown. destruct (Z.eqb_spec (id r) p) as [E | E]; [| reflexivity].
  exfalso. apply N. left. exact E.
Qed.

(** One call either hands out nothing and leaves the table, or hands out
    the selected row and marks it. *)
Lemma getNextPost_cases (now : Z) (a : Answers) (table : list StoredPost) :
  (exists res, getNextPost now a table = (res, table)
               /\ (res = Throws \/ res = Returns None))
  \/ (exists post more,
         selected a = Returns (post :: more)
         /\ getNextPost now a table
            = (Returns (Some post), map (markShown now (id post)) table)).
Proof.
  unfold getNextPost. destruct (ready a); simpl.
  - destruct (selected a) as [[| post more] |].
    + left. eexists. split; [reflexivity | auto].
    + destruct (updated a).
      * right. exists post, more. split; reflexivity.
      * left. eexists. split; [reflexivity | auto].
    + left. eexists. split; [reflexivity | auto].
  - left. eexists. split; [reflexivity | auto].
Qed.

Lemma honest_selected (a : Answers) (table : list StoredPost)
      (post : StoredPost) (more : list StoredPost) :
  honest a table -> selected a = Returns (post :: more) ->
  In post table /\ forall r, In r table -> orderedBefore post r = true.
Proof.
  unfold honest. intros H E. rewrite E in H. simpl in H.
  destruct more; [| contradiction].
  destruct H as [I F]. split; [exact I |].
  intros r Hr. rewrite forallb_forall in F. exact (F r Hr).
Qed.

Lemma orderedBefore_count (a b : StoredPost) :
  orderedBefore a b = true -> shown_count a <= shown_count b.
Proof.
  unfold orderedBefore. intros H.
  apply orb_true_iff in H. destruct H as [H | H].
  - apply Z.ltb_lt in H. lia.
  - apply andb_true_iff in H. destruct H as [H _]. apply Z.eqb_eq in H. lia.
Qed.

(** In a table with distinct ids, marking a row shown [m] times takes it,
    and nothing else, out of the rows shown [m] times. *)
Lemma shownTimes_marked (now p m : Z) (table : list StoredPost) :
  List.NoDup (map id table) ->
  In p (map id table) ->
  (forall r, In r table -> id r = p -> shown_count r = m) ->
  length (shownTimes m table)
  = S (length (shownTimes m (map (markShown now p) table)))
  /\ forall x, In x (map id (shownTimes m (map (markShown now p) table))) ->
               x <> p /\ In x (map id (shownTimes m table)).
Proof.
  induction table as [| r t IH]; simpl; intros ND I C; [contradiction |].
  inversion ND as [| ? ? Nr NDt]; subst.
  destruct (Z.eq_dec (id r) p) as [E | E].
  - rewrite (markShown_absent now p t) by (rewrite <- E; exact Nr).
    unfold shownTimes at 1 3. simpl.
    rewrite markShown_count. rewrite (proj2 (Z.eqb_eq _ _) E).
    rewrite (C r (or_introl eq_refl) E).
    rewrite Z.eqb_refl.
    replace (m + 1 =? m) with false by (symmetry; apply Z.eqb_neq; lia).
    fold (shownTimes m t). split; [reflexivity |].
    intros x Hx. split.
    + intros ->. apply Nr. rewrite E.
      apply in_map_iff in Hx. destruct Hx as (y & Hy & Hin).
      apply filter_In in Hin. apply in_map_iff. exists y. tauto.
    + simpl. right. exact Hx.
  - assert (It : In p (map id t)) by (destruct I; [contradiction | assumption]).
    destruct (IH NDt It (fun r' Hr' => C r' (or_intror Hr'))) as [L S].
    unfold shownTimes at 1 3. simpl.
    assert (M : markShown now p r = r).
    { unfold markShown. rewrite (proj2 (Z.eqb_neq _ _) E). reflexivity. }
    rewrite M. fold (shownTimes m t).
    fold (shownTimes m (map (markShown now p) t)).
    destruct (shown_count r =? m); simpl.
    + split; [rewrite L; reflexivity |].
      intros x [Hx | Hx].
      * split; [congruence | left; exact Hx].
      * destruct (S x Hx). split; [assumption | right; assumption].
    + split; [exact L |]. exact S.
Qed.

Lemma shownTimes_In (m : Z) (table : list StoredPost) (r : StoredPost) :
  In r (shownTimes m table) <-> In r table /\ shown_count r = m.
Proof.
  unfold shownTimes. rewrite filter_In, Z.eqb_eq. reflexivity.
Qed.

Lemma ids_determine (table : list StoredPost) (a b : StoredPost) :
  List.NoDup (map id table) -> In a table -> In b table -> id a = id b -> a = b.
Proof.
  induction table as [| r t IH]; simpl; intros ND Ha Hb E; [contradiction |].
  inversion ND as [| ? ? Nr NDt]; subst.
  destruct Ha as [-> | Ha], Hb as [-> | Hb].
  - reflexivity.
  - exfalso. apply Nr. rewrite E. apply in_map. exact Hb.
  - exfalso. apply Nr. rewrite <- E. apply in_map. exact Ha.
  - exact (IH NDt Ha Hb E).
Qed.

Lemma least_shown_in_turn (m : Z) (calls : list (Z * Answers)) :
  forall table,
    List.NoDup (map id table) ->
    (forall r, In r table -> m <= shown_count r) ->
    honestCalls calls table ->
    (length (fst (getNextPosts calls table)) <= length (shownTimes m table))%nat ->
    List.NoDup (map id (fst (getNextPosts calls table)))
    /\ forall x, In x (map id (fst (getNextPosts calls table))) ->
                 In x (map id (shownTimes m table)).
Proof.
  induction calls as [| [now a] rest IH]; intros table ND Low H Len.
  { simpl. split; [constructor | contradiction]. }
  simpl in H. destruct H as [Ha Hrest].
  simpl in Len |- *.
  destruct (getNextPost_cases now a table)
    as [(res & E & R) | (post & more & Sel & E)];
    rewrite E in *; simpl in Hrest;
    destruct (getNextPosts rest _) as [posts final] eqn:G.
  - assert (P : fst (getNextPosts rest table) = posts) by (rewrite G; reflexivity).
    specialize (IH table ND Low Hrest). rewrite P in IH.
    destruct R as [-> | ->]; simpl in *; apply IH; exact Len.
  - assert (P : fst (getNextPosts rest (map (markShown now (id post)) table))
                = posts) by (rewrite G; reflexivity).
    simpl in Len |- *.
    destruct (honest_selected a table post more Ha Sel) as [In_ First].
    assert (Cm : shown_count post = m).
    { destruct (shownTimes m table) as [| r0 l0] eqn:S0; [simpl in Len; lia |].
      assert (I0 : In r0 (shownTimes m table)) by (rewrite S0; left; reflexivity).
      apply shownTimes_In in I0. destruct I0 as [I0 C0].
      pose proof (orderedBefore_count _ _ (First r0 I0)).
      pose proof (Low post In_). lia. }
    destruct (shownTimes_marked now (id post) m table ND (in_map id _ _ In_))
      as [L S].
    { intros r Hr Er. rewrite (ids_determine table r post ND Hr In_ Er).
      exact Cm. }
    specialize (IH (map (markShown now (id post)) table)).
    rewrite P, markShown_ids in IH.
    destruct IH as [NDp Sub]; [exact ND | | exact Hrest | lia |].
    { intros r Hr. apply in_map_iff in Hr. destruct Hr as (r0 & <- & Hr0).
      rewrite markShown_count. pose proof (Low r0 Hr0).
      destruct (id r0 =? id post); lia. }
    split.
    + constructor; [| exact NDp].
      intros Hx. destruct (S _ (Sub _ Hx)) as [N _]. apply N. reflexivity.
    + intros x [<- | Hx].
      * apply in_map. apply shownTimes_In. split; assumption.
      * exact (proj2 (S _ (Sub _ Hx))).
Qed.

(** X18.  DatabaseService.getNextPost: in a table whose rows have distinct
    ids and none of which was shown less than [m] times, as many posts as
    there are rows shown [m] times are handed out: then these are exactly
    the rows shown [m] times, each one once, whatever calls fail in
    between and however the database orders the rows that tie. *)
Theorem least_shown_posts_each_once
        (m : Z) (calls : list (Z * Answers)) (table : list StoredPost) :
  List.NoDup (map id table) ->
  (forall r, In r table -> m <= shown_count r) ->
  honestCalls calls table ->
  length (fst (getNextPosts calls table)) = length (shownTimes m table) ->
  map id (fst (getNextPosts calls table)) ≡ₚ map id (shownTimes m table).
Proof.
  intros ND Low H Len.
  destruct (least_shown_in_turn m calls table ND Low H) as [NDp Sub]; [lia |].
  apply submseteq_length_Permutation.
  - apply NoDup_submseteq.
    + apply NoDup_ListNoDup. exact NDp.
    + intros x Hx. apply list_elem_of_In. apply Sub.
      apply list_elem_of_In. exact Hx.
  - rewrite !length_map. lia.
Qed.


Lemma least_shown_posts_each_once_witness :
  let table := [row 1 2 (Some 50); row 2 1 (Some 40); row 3 1 None] in
  let calls := [(100, answer (row 3 1 None));
                (200, {| ready := true; selected := Throws; updated := true |});
                (300, answer (row 2 1 (Some 40)))] in
  (List.NoDup (map id table)
   /\ (forall r, In r table -> 1 <= shown_count r)
   /\ honestCalls calls table
   /\ length (fst (getNextPosts calls table)) = length (shownTimes 1 table))
  /\ map id (fst (getNextPosts calls table)) ≡ₚ map id (shownTimes 1 table).
Proof.
  intros table calls.
  assert (ND : List.NoDup (map id table)).
  { vm_compute.
    constructor; [intros [E | [E | []]]; discriminate |].
    constructor; [intros [E | []]; discriminate |].
    constructor; [intros [] | constructor]. }
  assert (Low : forall r, In r table -> 1 <= shown_count r).
  { intros r [<- | [<- | [<- | []]]]; vm_compute; discriminate. }
  assert (H : honestCalls calls table).
  { split; [split; [right; right; left; reflexivity | reflexivity] |].
    split; [exact I |].
    split; [split; [right; left; reflexivity | reflexivity] | exact I]. }
  assert (Len : length (fst (getNextPosts calls table))
                = length (shownTimes 1 table)) by reflexivity.
  split; [split; [exact ND | split; [exact Low | split; [exact H | exact Len]]] |].
  exact (least_shown_posts_each_once 1 calls table ND Low H Len).
Defined.

(** Marking leaves the rows with another id as they are. *)
Lemma markShown_other (now p : Z) (r : StoredPost) :
  id r <> p -> markShown now p r = r.
Proof.
  intros N. unfold markShown. rewrite (proj2 (Z.eqb_neq _ _) N). reflexivity.
Qed.

(** X19.  DatabaseService.getNextPost: a row shown [j] times less than
    every other row is the post handed out each of the next [j] times a
    post is handed out, however many calls are made and whatever calls
    fail in between: a post that comes new into a table of posts already
    shown is repeated until it has caught up. *)
Theorem post_behind_is_repeated
        (p c : Z) (j : nat) (calls : list (Z * Answers))
        (table : list StoredPost) :
  In p (map id table) ->
  (forall r, In r table -> id r = p -> shown_count r = c) ->
  (forall r, In r table -> id r <> p -> c + Z.of_nat j <= shown_count r) ->
  honestCalls calls table ->
  Forall (fun post => id post = p) (take j (fst (getNextPosts calls table))).
Proof.
  revert c j table.
  induction calls as [| [now a] rest IH]; intros c j table Ip Cp Co H.
  { simpl. rewrite take_nil. constructor. }
  simpl in H. destruct H as [Ha Hrest].
  simpl.
  destruct (getNextPost_cases now a table)
    as [(res & E & R) | (post & more & Sel & E)];
    rewrite E in *; simpl in Hrest;
    destruct (getNextPosts rest _) as [posts final] eqn:G.
  - assert (P : fst (getNextPosts rest table) = posts) by (rewrite G; reflexivity).
    specialize (IH c j table Ip Cp Co Hrest). rewrite P in IH.
    destruct R as [-> | ->]; simpl; exact IH.
  - assert (P : fst (getNextPosts rest (map (markShown now (id post)) table))
                = posts) by (rewrite G; reflexivity).
    simpl. destruct j as [| j]; [constructor |].
    destruct (honest_selected a table post more Ha Sel) as [In_ First].
    assert (Ep : id post = p).
    { destruct (Z.eq_dec (id post) p) as [Ep | Ep]; [exact Ep | exfalso].
      apply in_map_iff in Ip. destruct Ip as (r0 & E0 & I0).
      pose proof (orderedBefore_count _ _ (First r0 I0)).
      pose proof (Cp r0 I0 E0). pose proof (Co post In_ Ep). lia. }
    cbn [take]. constructor; [exact Ep |].
    specialize (IH (c + 1) j (map (markShown now (id post)) table)).
    rewrite P in IH. apply IH.
    + rewrite markShown_ids. exact Ip.
    + intros r Hr Er. apply in_map_iff in Hr. destruct Hr as (r0 & <- & Hr0).
      rewrite markShown_id in Er. rewrite markShown_count, Ep.
      rewrite (proj2 (Z.eqb_eq _ _) Er). rewrite (Cp r0 Hr0 Er). reflexivity.
    + intros r Hr Er. apply in_map_iff in Hr. destruct Hr as (r0 & <- & Hr0).
      rewrite markShown_id in Er. rewrite markShown_count, Ep.
      rewrite (proj2 (Z.eqb_neq _ _) Er). pose proof (Co r0 Hr0 Er). lia.
    + exact Hrest.
Qed.

Lemma post_behind_is_repeated_witness :
  let table := [row 1 2 (Some 50); row 2 0 None] in
  let calls := [(100, answer (row 2 0 None));
                (200, {| ready := true; selected := Throws; updated := true |});
                (300, answer (row 2 1 (Some 100)));
                (400, answer (row 1 2 (Some 50)))] in
  (In 2 (map id table)
   /\ (forall r, In r table -> id r = 2 -> shown_count r = 0)
   /\ (forall r, In r table -> id r <> 2 -> 0 + Z.of_nat 2 <= shown_count r)
   /\ honestCalls calls table)
  /\ map id (fst (getNextPosts calls table)) = [2; 2; 1]
  /\ Forall (fun post => id post = 2) (take 2 (fst (getNextPosts calls table))).
Proof.
  intros table calls.
  assert (Ip : In 2 (map id table)) by (right; left; reflexivity).
  assert (Cp : forall r, In r table -> id r = 2 -> shown_count r = 0).
  { intros r [<- | [<- | []]]; vm_compute; [discriminate | reflexivity]. }
  assert (Co : forall r, In r table -> id r <> 2 ->
                         0 + Z.of_nat 2 <= shown_count r).
  { intros r [<- | [<- | []]]; vm_compute; [discriminate | congruence]. }
  assert (H : honestCalls calls table).
  { split; [split; [right; left; reflexivity | reflexivity] |].
    split; [exact I |].
    split; [split; [right; left; reflexivity | reflexivity] |].
    split; [split; [left; reflexivity | reflexivity] | exact I]. }
  split; [split; [exact Ip | split; [exact Cp | split; [exact Co | exact H]]] |].
  split; [reflexivity |].
  exact (post_behind_is_repeated 2 0 2 calls table Ip Cp Co H).
Defined.

End DatabaseServiceProperties.

(* ===================================================================== *)
(** ** Further properties: MoltbookService *)
(* ===================================================================== *)

Section MoltbookServiceProperties.
Import MoltbookService.

(** [getLatestPost()] is its first statement followed by the body of
    [refresh()]. *)
Lemma getLatestPost_refresh (now : Z) (feed : FeedAnswer)
      (db : Outcome (option DatabaseService.StoredPost)) (st : State) :
  getLatestPost now feed db st
  = ({| requested := fst (fetchIfDue now feed st);
        returned := returned (fst (refresh db (snd (fetchIfDue now feed st)))) |},
     snd (refresh db (snd (fetchIfDue now feed st)))).
Proof.
  unfold getLatestPost, fetchIfDue, refresh.
  destruct (fetchInterval <? now - lastFetch st).
  - destruct (getNextCommunity st) as [community st0]. cbn [fst snd].
    destruct (dbAvailable _); [destruct db as [[sp |] |] |]; reflexivity.
  - cbn [fst snd].
    destruct (dbAvailable _); [destruct db as [[sp |] |] |]; reflexivity.
Qed.

Lemma fetchPosts_effect (community : option jsstring) (feed : FeedAnswer)
      (st : State) :
  let st' := snd (fetchPosts community feed st) in
  currentPost st' = currentPost st
  /\ communityIndex st' = communityIndex st
  /\ dbAvailable st' = dbAvailable st
  /\ (feedFails (dbAvailable st) feed = true -> lastFetch st' = lastFetch st).
Proof.
  destruct feed as [| | | posts saved t]; cbn [fetchPosts feedFails snd];
    try (repeat split; reflexivity).
  destruct ((0 <? length posts)%nat && dbAvailable st);
    [destruct saved |]; cbn; repeat split; try reflexivity;
    intros; discriminate.
Qed.

Lemma fetchIfDue_effect (now : Z) (feed : FeedAnswer) (st : State) :
  let asked := fst (fetchIfDue now feed st) in
  let st' := snd (fetchIfDue now feed st) in
  currentPost st' = currentPost st
  /\ dbAvailable st' = dbAvailable st
  /\ (fetchDue now st = false -> asked = None /\ st' = st)
  /\ (fetchDue now st = true ->
      asked = Some (feedUrl (default (js "general")
                                     (COMMUNITIES !! communityIndex st)))
      /\ communityIndex st'
         = ((communityIndex st + 1) mod length COMMUNITIES)%nat
      /\ (feedFails (dbAvailable st) feed = true ->
          lastFetch st' = lastFetch st)).
Proof.
  unfold fetchIfDue, fetchDue.
  destruct (fetchInterval <? now - lastFetch st).
  - cbn [getNextCommunity fst snd].
    match goal with |- context [fetchPosts ?c feed ?s] =>
      destruct (fetchPosts_effect c feed s) as (Fc & Fi & Fd & Fl) end.
    cbn [currentPost communityIndex dbAvailable lastFetch] in *.
    split; [exact Fc |]. split; [exact Fd |].
    split; [intros; discriminate |]. intros _.
    split; [reflexivity |]. split; [exact Fi | exact Fl].
  - cbn [fst snd]. repeat split; try reflexivity; intros; discriminate.
Qed.

Lemma refresh_effect (db : Outcome (option DatabaseService.StoredPost))
      (st : State) :
  let r := fst (refresh db st) in
  let st' := snd (refresh db st) in
  requested r = None
  /\ lastFetch st' = lastFetch st
  /\ communityIndex st' = communityIndex st
  /\ dbAvailable st' = dbAvailable st
  /\ (dbAvailable st && negb (dbMiss db) = false ->
      returned r = currentPost st /\ st' = st).
Proof.
  unfold refresh.
  destruct (dbAvailable st) eqn:D; [destruct db as [[sp |] |] |]; cbn;
    repeat split; try reflexivity; try assumption; intros; discriminate.
Qed.

(** What one call does to the state. *)
Lemma call_effect (c : Call) (st : State) :
  let r := fst (call c st) in
  let st' := snd (call c st) in
  dbAvailable st' = dbAvailable st
  /\ (requested r = None ->
      lastFetch st' = lastFetch st /\ communityIndex st' = communityIndex st)
  /\ (withinInterval st c = true -> requested r = None)
  /\ (duringOutage st c = true ->
      requested r <> None /\ lastFetch st' = lastFetch st)
  /\ (dbAvailable st && negb (dbMiss (dbOf c)) = false ->
      returned r = currentPost st /\ currentPost st' = currentPost st)
  /\ forall x, requested r = Some x ->
       x = feedUrl (default (js "general") (COMMUNITIES !! communityIndex st))
       /\ communityIndex st'
          = ((communityIndex st + 1) mod length COMMUNITIES)%nat.
Proof.
  destruct c as [now feed db | db]; cbn [call dbOf withinInterval duringOutage].
  - rewrite getLatestPost_refresh. cbn [fst snd requested returned].
    destruct (fetchIfDue_effect now feed st) as (Fc & Fd & Fn & Fy).
    destruct (refresh_effect db (snd (fetchIfDue now feed st)))
      as (_ & Rl & Ri & Rd & Rm).
    rewrite Rd, Rl, Ri, Fd. rewrite Fd, Fc in Rm.
    split; [reflexivity |].
    destruct (fetchDue now st) eqn:Due.
    + destruct (Fy eq_refl) as (Fa & Fi & Fl). rewrite Fa.
      split; [intros; discriminate |]. split; [intros; discriminate |].
      split; [intros H; split; [discriminate | exact (Fl H)] |].
      split.
      * intros H. destruct (Rm H) as [R1 R2]. rewrite R1, R2. auto.
      * intros x Hx. inversion Hx. split; [reflexivity | exact Fi].
    + destruct (Fn eq_refl) as (Fa & Fs). rewrite Fa, Fs.
      split; [auto |]. split; [auto |]. split; [intros; discriminate |].
      split.
      * intros H. rewrite Fs in Rm. destruct (Rm H) as [R1 R2].
        rewrite R1, R2. auto.
      * intros; discriminate.
  - destruct (refresh_effect db st) as (Rr & Rl & Ri & Rd & Rm).
    rewrite Rr, Rl, Ri, Rd.
    split; [reflexivity |]. split; [auto |]. split; [auto |].
    split; [intros; discriminate |].
    split; [| intros; discriminate].
    intros H. destruct (Rm H) as [R1 R2]. rewrite R1, R2. auto.
Qed.

Lemma calls_cons (c : Call) (cs : list Call) (st : State) :
  calls (c :: cs) st
  = (fst (call c st) :: fst (calls cs (snd (call c st))),
     snd (calls cs (snd (call c st)))).
Proof.
  simpl. destruct (call c st) as [r st']. cbn [fst snd].
  destruct (calls cs st'). reflexivity.
Qed.

(** While the database gives nothing, every call returns the post the
    service had, and keeps it. *)
Lemma calls_keep_post (cs : list Call) :
  forall st,
    Forall (fun c => dbAvailable st && negb (dbMiss (dbOf c)) = false) cs ->
    Forall (fun r => returned r = currentPost st) (fst (calls cs st))
    /\ currentPost (snd (calls cs st)) = currentPost st.
Proof.
  induction cs as [| c cs IH]; intros st H.
  { split; [constructor | reflexivity]. }
  rewrite calls_cons. cbn [fst snd].
  inversion H as [| ? ? Hc Hcs]; subst.
  destruct (call_effect c st) as (Ed & _ & _ & _ & Em & _).
  destruct (Em Hc) as [E1 E2].
  destruct (IH (snd (call c st))) as [I1 I2].
  { rewrite Ed. exact Hcs. }
  rewrite E2 in I1, I2.
  split; [constructor; assumption | exact I2].
Qed.

(** X20.  MoltbookService: a service constructed without DATABASE_URL (not
    set, or empty) never has a post: whatever the feed and the clock do,
    every [getLatestPost()] and [refresh()] returns null and the post
    context stays empty. *)
Theorem without_database_no_post
        (DATABASE_URL : option jsstring) (cs : list Call) :
  dbAvailable (construct DATABASE_URL) = false ->
  Forall (fun r => returned r = None) (fst (calls cs (construct DATABASE_URL)))
  /\ getCurrentPost (snd (calls cs (construct DATABASE_URL))) = None
  /\ getPostContext (snd (calls cs (construct DATABASE_URL))) = [].
Proof.
  intros D.
  destruct (calls_keep_post cs (construct DATABASE_URL)) as [F C].
  { apply Forall_forall. intros c _. rewrite D. reflexivity. }
  split; [exact F |]. split; [exact C |].
  unfold getPostContext. rewrite C. reflexivity.
Qed.

Lemma without_database_no_post_witness :
  let cs := [GetLatestPost 1700000000000 (FeedPosts [postX] (Returns 1) 1700000000500)
                           (Returns (Some stored));
             Refresh (Returns (Some stored))] in
  dbAvailable (construct (Some [])) = false
  /\ Forall (fun r => returned r = None) (fst (calls cs (construct (Some []))))
  /\ getCurrentPost (snd (calls cs (construct (Some [])))) = None
  /\ getPostContext (snd (calls cs (construct (Some [])))) = [].
Proof.
  intros cs. split; [reflexivity |].
  exact (without_database_no_post (Some []) cs eq_refl).
Defined.

(** X21.  MoltbookService: while the database gives no post (it answers
    null, or [getNextPost()] throws), every [getLatestPost()] and
    [refresh()] returns the post handed out last, and the service keeps
    it. *)
Theorem database_miss_keeps_post (cs : list Call) (st : State) :
  Forall (fun c => dbMiss (dbOf c) = true) cs ->
  Forall (fun r => returned r = currentPost st) (fst (calls cs st))
  /\ getCurrentPost (snd (calls cs st)) = currentPost st.
Proof.
  intros H. apply calls_keep_post.
  eapply Forall_impl; [exact H |].
  intros c Hc. simpl in Hc. rewrite Hc. apply andb_false_r.
Qed.

Lemma database_miss_keeps_post_witness :
  let st := snd (refresh (Returns (Some stored)) (construct (Some (js "postgres://db")))) in
  let cs := [GetLatestPost 1700000000000 FeedNotOk Throws; Refresh (Returns None)] in
  Forall (fun c => dbMiss (dbOf c) = true) cs
  /\ Forall (fun r => returned r = currentPost st) (fst (calls cs st))
  /\ getCurrentPost (snd (calls cs st)) = currentPost st.
Proof.
  intros st cs.
  assert (H : Forall (fun c => dbMiss (dbOf c) = true) cs).
  { constructor; [reflexivity |]. constructor; [reflexivity | constructor]. }
  split; [exact H |].
  exact (database_miss_keeps_post cs st H).
Defined.

Lemma requests_cons (r : Reply) (rs : list Reply) :
  requests (r :: rs)
  = match requested r with
    | Some x => x :: requests rs
    | None => requests rs
    end.
Proof. reflexivity. Qed.

Lemma rotation_next (i k : nat) :
  rotation ((i + 1) mod length COMMUNITIES) k = rotation i (S k).
Proof.
  unfold rotation. do 3 f_equal.
  rewrite Nat.Div0.add_mod_idemp_l. f_equal. lia.
Qed.

Lemma calls_rotate (cs : list Call) :
  forall st,
    (communityIndex st < length COMMUNITIES)%nat ->
    requests (fst (calls cs st))
    = map (rotation (communityIndex st))
          (seq 0 (length (requests (fst (calls cs st))))).
Proof.
  induction cs as [| c cs IH]; intros st Hi; [reflexivity |].
  rewrite calls_cons. cbn [fst].
  destruct (call_effect c st) as (_ & En & _ & _ & _ & Es).
  rewrite requests_cons.
  destruct (requested (fst (call c st))) as [x |] eqn:Rq.
  - destruct (Es x eq_refl) as [Ex Ei].
    cbn [length seq map]. f_equal.
    + rewrite Ex. unfold rotation. rewrite Nat.add_0_r, Nat.mod_small by exact Hi.
      reflexivity.
    + rewrite IH at 1 by (rewrite Ei; apply Nat.mod_upper_bound; discriminate).
      rewrite Ei, <- seq_shift, map_map.
      apply map_ext. intros k. apply rotation_next.
  - destruct (En eq_refl) as [_ Ei].
    rewrite IH at 1 by (rewrite Ei; exact Hi). rewrite Ei. reflexivity.
Qed.

Lemma scrapeFrom_index (communities : list jsstring) :
  forall k feeds st,
    communityIndex (snd (scrapeFrom k communities feeds st)) = communityIndex st.
Proof.
  induction communities as [| community rest IH]; intros k feeds st;
    [reflexivity |].
  cbn [scrapeFrom].
  destruct (fetchPosts_effect (Some community) (feeds k) st) as (_ & Fi & _).
  destruct (fetchPosts (Some community) (feeds k) st) as [posts st1].
  cbn [snd] in Fi. specialize (IH (S k) feeds st1).
  destruct (scrapeFrom (S k) rest feeds st1) as [total st2].
  cbn [snd] in *. rewrite IH. exact Fi.
Qed.

Lemma askedByGetLatestPost_app (l k : list Asked) :
  askedByGetLatestPost (l ++ k)
  = askedByGetLatestPost l ++ askedByGetLatestPost k.
Proof. apply omap_app. Qed.

Lemma askedByGetLatestPost_directly (l : list jsstring) :
  askedByGetLatestPost (map (fun community => Directly (feedUrl community)) l)
  = [].
Proof. induction l as [| x l IH]; [reflexivity | exact IH]. Qed.

Lemma publicCalls_cons (c : PublicCall) (cs : list PublicCall) (st : State) :
  publicCalls (c :: cs) st
  = (fst (publicCall c st) ++ fst (publicCalls cs (snd (publicCall c st))),
     snd (publicCalls cs (snd (publicCall c st)))).
Proof.
  simpl. destruct (publicCall c st) as [asked st']. cbn [fst snd].
  destruct (publicCalls cs st'). reflexivity.
Qed.

(** What a public call asks through [getLatestPost()], and where it leaves
    the rotation. *)
Lemma publicCall_rotation (c : PublicCall) (st : State) :
  (askedByGetLatestPost (fst (publicCall c st)) = []
   /\ communityIndex (snd (publicCall c st)) = communityIndex st)
  \/ (askedByGetLatestPost (fst (publicCall c st))
      = [feedUrl (default (js "general") (COMMUNITIES !! communityIndex st))]
      /\ communityIndex (snd (publicCall c st))
         = ((communityIndex st + 1) mod length COMMUNITIES)%nat).
Proof.
  destruct c as [c | community feed | feeds]; cbn [publicCall].
  - destruct (call_effect c st) as (_ & En & _ & _ & _ & Es).
    destruct (call c st) as [r st']. cbn [fst snd] in *.
    destruct (requested r) as [x |].
    + right. destruct (Es x eq_refl) as [-> Ei]. split; [reflexivity | exact Ei].
    + left. split; [reflexivity | exact (proj2 (En eq_refl))].
  - left. cbn [fst snd]. split; [reflexivity |].
    apply (fetchPosts_effect (Some community) feed st).
  - left. cbn [fst snd]. split; [apply askedByGetLatestPost_directly |].
    apply scrapeFrom_index.
Qed.

Lemma publicCalls_rotate (cs : list PublicCall) :
  forall st,
    (communityIndex st < length COMMUNITIES)%nat ->
    askedByGetLatestPost (fst (publicCalls cs st))
    = map (rotation (communityIndex st))
          (seq 0 (length (askedByGetLatestPost (fst (publicCalls cs st))))).
Proof.
  induction cs as [| c cs IH]; intros st Hi; [reflexivity |].
  rewrite publicCalls_cons. cbn [fst].
  rewrite askedByGetLatestPost_app.
  destruct (publicCall_rotation c st) as [[Ea Ei] | [Ea Ei]]; rewrite Ea.
  - cbn [app]. rewrite IH at 1 by (rewrite Ei; exact Hi).
    rewrite Ei. reflexivity.
  - cbn [app length seq map]. f_equal.
    + unfold rotation. rewrite Nat.add_0_r, Nat.mod_small by exact Hi.
      reflexivity.
    + rewrite IH at 1 by (rewrite Ei; apply Nat.mod_upper_bound; discriminate).
      rewrite Ei, <- seq_shift, map_map.
      apply map_ext. intros k. apply rotation_next.
Qed.

(** X22.  MoltbookService: whatever public calls are made on a service
    ([getLatestPost()], [refresh()], [fetchPosts(community)],
    [scrapeAllCommunities()]) and whatever they meet, the feeds that
    [getLatestPost()] asks for follow the list of communities in order,
    from 'general' on and round again after 'showandtell': its [k]-th
    request goes to community number [k mod 6].  The requests of
    [fetchPosts] and [scrapeAllCommunities] go to the communities these are
    given and leave the rotation where it is. *)
Theorem communities_asked_in_rotation
        (DATABASE_URL : option jsstring) (cs : list PublicCall) :
  askedByGetLatestPost (fst (publicCalls cs (construct DATABASE_URL)))
  = map (rotation 0)
        (seq 0 (length (askedByGetLatestPost
                          (fst (publicCalls cs (construct DATABASE_URL)))))).
Proof.
  apply (publicCalls_rotate cs (construct DATABASE_URL)). cbn. lia.
Qed.

(** Two due calls of [getLatestPost()] with a [scrapeAllCommunities()] and
    a [fetchPosts] between them: the second asks for the second
    community. *)
Example rotation_among_direct_requests :
  askedByGetLatestPost
    (fst (publicCalls
            [PostCall (GetLatestPost 1700000000000 FeedNotOk (Returns None));
             ScrapeAllCommunities (fun _ => FeedNotOk);
             FetchPosts (js "dialectics") FeedRejects;
             PostCall (GetLatestPost 1700000001000 FeedNotOk (Returns None))]
            (construct None)))
  = [feedUrl (js "general"); feedUrl (js "todayilearned")].
Proof. reflexivity. Qed.

(** X23.  MoltbookService: a fetch that fails (the request is rejected, the
    status is not ok, the body cannot be read, or saving the posts throws)
    does not count as a fetch: [lastFetch] stays, so every later
    [getLatestPost()] made when a fetch is due asks the feed again.  There
    is no pause after a failure. *)
Theorem failed_fetch_is_repeated_at_every_call (cs : list Call) (st : State) :
  Forall (fun c => duringOutage st c = true) cs ->
  length (requests (fst (calls cs st))) = length cs
  /\ lastFetch (snd (calls cs st)) = lastFetch st.
Proof.
  revert st. induction cs as [| c cs IH]; intros st H; [split; reflexivity |].
  rewrite calls_cons. cbn [fst snd].
  inversion H as [| ? ? Hc Hcs]; subst.
  destruct (call_effect c st) as (Ed & _ & _ & Eo & _ & _).
  destruct (Eo Hc) as [Er El].
  destruct (IH (snd (call c st))) as [I1 I2].
  { eapply Forall_impl; [exact Hcs |]. intros c' Hc'. simpl in Hc'.
    destruct c' as [now feed db | db]; [| discriminate].
    unfold duringOutage, fetchDue in *. rewrite Ed, El. exact Hc'. }
  split; [| rewrite I2; exact El].
  rewrite requests_cons.
  destruct (requested (fst (call c st))); [| contradiction].
  cbn [length]. rewrite I1. reflexivity.
Qed.

Lemma failed_fetch_is_repeated_at_every_call_witness :
  let st := construct (Some (js "postgres://db")) in
  let cs := [GetLatestPost 1700000000000 FeedNotOk Throws;
             GetLatestPost 1700000002000
               (FeedPosts [postX] Throws 1700000002100) (Returns None);
             GetLatestPost 1700000004000 FeedRejects (Returns None)] in
  Forall (fun c => duringOutage st c = true) cs
  /\ length (requests (fst (calls cs st))) = length cs
  /\ lastFetch (snd (calls cs st)) = lastFetch st.
Proof.
  intros st cs.
  assert (H : Forall (fun c => duringOutage st c = true) cs).
  { constructor; [reflexivity |]. constructor; [reflexivity |].
    constructor; [reflexivity | constructor]. }
  split; [exact H |].
  exact (failed_fetch_is_repeated_at_every_call cs st H).
Defined.

Lemma calls_within (cs : list Call) :
  forall st,
    Forall (fun c => withinInterval st c = true) cs ->
    requests (fst (calls cs st)) = []
    /\ lastFetch (snd (calls cs st)) = lastFetch st
    /\ communityIndex (snd (calls cs st)) = communityIndex st.
Proof.
  induction cs as [| c cs IH]; intros st H; [repeat split; reflexivity |].
  rewrite calls_cons. cbn [fst snd].
  inversion H as [| ? ? Hc Hcs]; subst.
  destruct (call_effect c st) as (_ & En & Ew & _ & _ & _).
  pose proof (Ew Hc) as Er. destruct (En Er) as [El Ei].
  destruct (IH (snd (call c st))) as (I1 & I2 & I3).
  { eapply Forall_impl; [exact Hcs |]. intros c' Hc'. simpl in Hc'.
    destruct c' as [now feed db | db]; [| reflexivity].
    unfold withinInterval, fetchDue in *. rewrite El. exact Hc'. }
  rewrite requests_cons, Er.
  split; [exact I1 |]. split; [rewrite I2; exact El | rewrite I3; exact Ei].
Qed.

(** X24.  MoltbookService: once a fetch has finished at time [finishedAt],
    the calls made up to thirty minutes after that time ask the feed for
    nothing and leave the rotation of communities where it is; the first
    call later than that asks again. *)
Theorem one_fetch_per_interval
        (now finishedAt : Z) (posts : list MoltbookPost) (saved : Outcome Z)
        (db : Outcome (option DatabaseService.StoredPost))
        (cs : list Call) (later : Z) (feed : FeedAnswer)
        (db' : Outcome (option DatabaseService.StoredPost)) (st : State) :
  fetchDue now st = true ->
  feedFails (dbAvailable st) (FeedPosts posts saved finishedAt) = false ->
  Forall (fun c => match c with
                   | GetLatestPost now' _ _ => now' <= finishedAt + fetchInterval
                   | Refresh _ => True
                   end) cs ->
  finishedAt + fetchInterval < later ->
  let st1 := snd (getLatestPost now (FeedPosts posts saved finishedAt) db st) in
  let st2 := snd (calls cs st1) in
  requests (fst (calls cs st1)) = []
  /\ communityIndex st2 = communityIndex st1
  /\ requested (fst (getLatestPost later feed db' st2)) <> None.
Proof.
  intros Due Ok Hcs Late st1 st2.
  assert (L1 : lastFetch st1 = finishedAt).
  { subst st1. rewrite getLatestPost_refresh. cbn [snd].
    destruct (refresh_effect db (snd (fetchIfDue now
               (FeedPosts posts saved finishedAt) st))) as (_ & Rl & _).
    rewrite Rl. unfold fetchIfDue. unfold fetchDue in Due. rewrite Due.
    cbn [getNextCommunity snd fetchPosts dbAvailable].
    cbn [feedFails] in Ok.
    destruct ((0 <? length posts)%nat && dbAvailable st);
      [destruct saved; [reflexivity | discriminate] | reflexivity]. }
  destruct (calls_within cs st1) as (W1 & W2 & W3).
  { eapply Forall_impl; [exact Hcs |]. intros c Hc.
    destruct c as [now' f d | d]; [| reflexivity].
    unfold withinInterval, fetchDue. rewrite L1.
    apply negb_true_iff. apply Z.ltb_ge. lia. }
  split; [exact W1 |]. split; [exact W3 |].
  rewrite getLatestPost_refresh. cbn [fst requested].
  destruct (fetchIfDue_effect later feed st2) as (_ & _ & _ & Fy).
  destruct Fy as (Fa & _).
  { unfold fetchDue. subst st2. rewrite W2, L1. apply Z.ltb_lt. lia. }
  rewrite Fa. discriminate.
Qed.

Lemma one_fetch_per_interval_witness :
  let st := construct None in
  let cs := [GetLatestPost 1700000060000 FeedNotOk (Returns None);
             Refresh (Returns None);
             GetLatestPost 1700001800500 FeedNotOk (Returns None)] in
  (fetchDue 1700000000000 st = true
   /\ feedFails (dbAvailable st) (FeedPosts [postX] (Returns 1) 1700000000500)
      = false
   /\ Forall (fun c => match c with
                       | GetLatestPost now' _ _ =>
                           now' <= 1700000000500 + fetchInterval
                       | Refresh _ => True
                       end) cs
   /\ 1700000000500 + fetchInterval < 1700001800501)
  /\ let st1 := snd (getLatestPost 1700000000000
                       (FeedPosts [postX] (Returns 1) 1700000000500)
                       (Returns None) st) in
     let st2 := snd (calls cs st1) in
     requests (fst (calls cs st1)) = []
     /\ communityIndex st2 = communityIndex st1
     /\ requested (fst (getLatestPost 1700001800501 FeedNotOk (Returns None) st2))
        <> None.
Proof.
  intros st cs.
  assert (Hcs : Forall (fun c => match c with
                       | GetLatestPost now' _ _ =>
                           now' <= 1700000000500 + fetchInterval
                       | Refresh _ => True
                       end) cs).
  { constructor; [vm_compute; discriminate |]. constructor; [exact I |].
    constructor; [vm_compute; discriminate | constructor]. }
  assert (Late : 1700000000500 + fetchInterval < 1700001800501)
    by (vm_compute; reflexivity).
  split; [split; [reflexivity | split; [reflexivity |
          split; [exact Hcs | exact Late]]] |].
  exact (one_fetch_per_interval 1700000000000 1700000000500 [postX] (Returns 1)
           (Returns None) cs 1700001800501 FeedNotOk (Returns None) st
           eq_refl eq_refl Hcs Late).
Defined.

End MoltbookServiceProperties.

(* ===================================================================== *)
(** ** Further properties: where the posts of the turns come from *)
(* ===================================================================== *)

Lemma among_more known more p : among known p -> among (known ++ more) p.
Proof.
  destruct p; simpl; [| auto]. intros H. apply in_or_app. left. exact H.
Qed.

Lemma among_carried known ans post :
  ans = Returns post -> among (known ++ carried ans) post.
Proof.
  intros ->. destruct post as [p |]; simpl; [| exact I].
  apply in_or_app. right. left. reflexivity.
Qed.

Lemma sourcedState_more known more st :
  sourcedState known st -> sourcedState (known ++ more) st.
Proof.
  intros [L P]. split; [apply among_more, L |].
  intros d Hd. apply among_more, (P d Hd).
Qed.

Lemma completeTurn_sourced known persona cleanText newPostForClient st :
  sourcedState known st -> among known newPostForClient ->
  sourcedState known (completeTurn persona cleanText newPostForClient st).
Proof.
  intros [L _] N.
  destruct (completeTurn_fields persona cleanText newPostForClient st)
    as (_ & _ & _ & Hp & _ & Hl & _).
  split; [rewrite Hl; exact L |].
  intros d Hd. rewrite Hp in Hd. injection Hd as <-. exact N.
Qed.

Lemma lockPost_sourced known post st :
  sourcedState known st -> among known post ->
  sourcedState known (lockPost post st).
Proof.
  intros [L P] A. destruct post as [p |]; [| split; assumption].
  split; [exact A | exact P].
Qed.

Lemma buildPrompt_sourced known f st :
  sourcedState known st ->
  sourcedState known (buildPrompt f st).1
  /\ among known (phasePost (buildPrompt f st).2).
Proof.
  intros [L P]. unfold buildPrompt. cbn [fst snd phasePost].
  split; [split; [exact L | exact P] | exact L].
Qed.

Lemma generateNextResponse_sourced known st :
  sourcedState known st ->
  sourcedState known (generateNextResponse st).1
  /\ forall ph, (generateNextResponse st).2 = Some ph ->
                among known (phasePost ph).
Proof.
  intros S. unfold generateNextResponse.
  destruct (isGenerating st); [split; [exact S | discriminate] |].
  cbv zeta.
  assert (S1 : sourcedState known (set_isGenerating true st))
    by (destruct S as [L P]; split; [exact L | exact P]).
  set (st1 := set_isGenerating true st) in *. clearbody st1.
  destruct (lockedPost st1) as [p |] eqn:Lp.
  - destruct (buildPrompt_sourced known (turnCount st1 =? 0) st1 S1) as [B1 B2].
    destruct (buildPrompt (turnCount st1 =? 0) st1) as [st2 ph2].
    cbn [fst snd] in *. split; [exact B1 |]. intros ph [= <-]. exact B2.
  - cbn [fst snd]. split; [exact S1 |]. intros ph [= <-]. exact I.
Qed.

(** A resumption with the answer [ans] of MoltbookService, or with an
    answer of the backend, keeps the posts among the known ones and those
    the answer carries. *)
Lemma resumeLatest_sourced known f ans st :
  sourcedState known st ->
  sourcedState (known ++ carried ans) (resumeLatest f ans st).1
  /\ forall ph, (resumeLatest f ans st).2 = Some ph ->
                among (known ++ carried ans) (phasePost ph).
Proof.
  intros S. apply (sourcedState_more _ (carried ans)) in S.
  destruct ans as [post |]; cbn [resumeLatest].
  - pose proof (lockPost_sourced _ post st S (among_carried known _ post eq_refl))
      as S1.
    destruct (buildPrompt_sourced _ f _ S1) as [B1 B2].
    destruct (buildPrompt f (lockPost post st)) as [st1 ph1]. cbn [fst snd] in *.
    split; [exact B1 |]. intros ph [= <-]. exact B2.
  - split; [exact S | discriminate].
Qed.

Lemma resumeResponse_sourced known f postForAI persona now ans st :
  sourcedState known st -> among known postForAI ->
  sourcedState known (resumeResponse f postForAI persona now ans st).1
  /\ forall ph, (resumeResponse f postForAI persona now ans st).2 = Some ph ->
                among known (phasePost ph).
Proof.
  intros S A. destruct ans as [raw |]; cbn [resumeResponse];
    [| split; [exact S | discriminate]].
  destruct f; cbn [fst snd].
  - split; [apply completeTurn_sourced; assumption | discriminate].
  - destruct (isPostTimedOut now st); cbn [fst snd].
    + split; [exact S |]. intros ph [= <-]. exact A.
    + split; [apply completeTurn_sourced; [assumption | exact I] | discriminate].
Qed.

Lemma resumeAdvance_sourced known persona cleanText now ans st :
  sourcedState known st ->
  sourcedState (known ++ carried ans)
               (resumeAdvance persona cleanText now ans st).1
  /\ forall ph, (resumeAdvance persona cleanText now ans st).2 = Some ph ->
                among (known ++ carried ans) (phasePost ph).
Proof.
  intros S. apply (sourcedState_more _ (carried ans)) in S.
  destruct ans as [post |]; cbn [resumeAdvance fst snd];
    [| split; [exact S | discriminate]].
  pose proof (among_carried known _ post eq_refl) as A.
  split; [| discriminate].
  apply completeTurn_sourced; [| exact A].
  unfold advancePost_end.
  destruct post as [p |]; [| exact S].
  destruct S as [L P]. split; [exact A | exact P].
Qed.

Lemma genTasks_sourced known awaited g :
  (forall ph, g = Some ph -> among known (phasePost ph)) ->
  Forall (fun t => among known (taskPost t)) (genTasks awaited g).
Proof.
  intros H. destruct g as [ph |]; simpl.
  - constructor; [exact (H ph eq_refl) | constructor].
  - destruct awaited; [constructor; [exact I | constructor] | constructor].
Qed.

Lemma tasks_more known more l :
  Forall (fun t => among known (taskPost t)) l ->
  Forall (fun t => among (known ++ more) (taskPost t)) l.
Proof.
  intros H. eapply Forall_impl; [exact H |]. intros t. apply among_more.
Qed.

Lemma lines_more known more (l : list DialogueLine) :
  Forall (fun d => among known (newPost d)) l ->
  Forall (fun d => among (known ++ more) (newPost d)) l.
Proof.
  intros H. eapply Forall_impl; [exact H |]. intros t. apply among_more.
Qed.

Lemma sourced_genStep known more c i awaited r :
  Sourced known c ->
  sourcedState (known ++ more) r.1 ->
  (forall ph, r.2 = Some ph -> among (known ++ more) (phasePost ph)) ->
  Sourced (known ++ more) (genStep c i awaited r).
Proof.
  intros [S T D] Sr Gr. constructor; cbn [genStep svc tasks].
  - exact Sr.
  - apply Forall_app. split.
    + apply Forall_delete. apply tasks_more, T.
    + apply genTasks_sourced, Gr.
  - apply lines_more. exact D.
Qed.

Lemma pollBody_sourced known c rest :
  Sourced known c ->
  Forall (fun t => among known (taskPost t)) rest ->
  Sourced known (afterPollBody c rest (pollBody (svc c))).
Proof.
  intros [[L P] T D] R. unfold pollBody.
  destruct (pendingResponse (svc c)) as [d |] eqn:Hd.
  - assert (S0 : sourcedState known (set_pendingResponse None (svc c)))
      by (split; [exact L | discriminate]).
    destruct (generateNextResponse_sourced known _ S0) as [G1 G2].
    destruct (generateNextResponse (set_pendingResponse None (svc c)))
      as [st g]. cbn [fst snd afterPollBody] in *.
    constructor; cbn [svc tasks].
    + exact G1.
    + apply Forall_app. split; [exact R | apply genTasks_sourced, G2].
    + rewrite delivered_line. apply Forall_app. split; [exact D |].
      constructor; [exact (P d eq_refl) | constructor].
  - destruct (isGenerating (svc c)); cbn [afterPollBody].
    + constructor; cbn [svc tasks].
      * split; [exact L | rewrite Hd; discriminate].
      * rewrite app_nil_r. exact R.
      * rewrite delivered_waiting. exact D.
    + assert (S0 : sourcedState known (svc c))
        by (split; [exact L | rewrite Hd; discriminate]).
      destruct (generateNextResponse_sourced known _ S0) as [G1 G2].
      destruct (generateNextResponse (svc c)) as [st g].
      cbn [fst snd afterPollBody] in *.
      constructor; cbn [svc tasks].
      * exact G1.
      * apply Forall_app. split; [exact R | apply genTasks_sourced, G2].
      * exact D.
Qed.

Lemma sourced_more known more c : Sourced known c -> Sourced (known ++ more) c.
Proof.
  intros [S T D]. constructor.
  - apply sourcedState_more, S.
  - apply tasks_more, T.
  - apply lines_more, D.
Qed.

Lemma sourced_step known c e c' :
  Sourced known c -> Step c e c' -> Sourced (known ++ arrived e) c'.
Proof.
  intros K S.
  assert (S0 : forall now k, sourcedState k (startConversation_begin now))
    by (intros; split; [exact I | discriminate]).
  destruct S as [ now | | now A | now A | i by_ T | i by_ post T
                | i awaited f ans T | i awaited f p pe h x now ans T
                | i awaited p pe t now ans T | i T | i T ];
    cbn [arrived carried]; rewrite ?app_nil_r.
  - destruct K as [_ Kt Kd]. constructor; cbn [svc tasks]; [apply S0 | | exact Kd].
    apply Forall_app. split; [exact Kt | constructor; [exact I | constructor]].
  - destruct K as [[L P] Kt Kd]. constructor; [split; assumption | exact Kt | exact Kd].
  - destruct K as [_ Kt Kd]. constructor; cbn [svc tasks]; [apply S0 | | exact Kd].
    apply Forall_app. split; [exact Kt | constructor; [exact I | constructor]].
  - apply pollBody_sourced; [exact K | apply K].
  - destruct K as [Ks Kt Kd]. constructor; cbn [svc tasks];
      [exact Ks | apply Forall_delete, Kt | exact Kd].
  - apply (sourced_more _ (carried (Returns post))) in K.
    destruct K as [Ks Kt Kd].
    pose proof (lockPost_sourced _ post (svc c) Ks
                  (among_carried known _ post eq_refl)) as S1.
    destruct (generateNextResponse_sourced _ _ S1) as [G1 G2].
    unfold startConversation_end.
    constructor; cbn [svc tasks]; [exact G1 | | exact Kd].
    apply Forall_app. split; [apply Forall_delete, Kt |].
    apply Forall_app. split; [apply genTasks_sourced, G2 |].
    destruct by_; [constructor | constructor; [exact I | constructor]].
  - destruct (resumeLatest_sourced known f ans (svc c) (sourced_state _ _ K))
      as [R1 R2].
    apply sourced_genStep; assumption.
  - assert (A : among known p).
    { pose proof (sourced_tasks _ _ K) as Kt.
      rewrite Forall_lookup in Kt. exact (Kt i _ T). }
    destruct (resumeResponse_sourced known f p pe now ans (svc c)
                (sourced_state _ _ K) A) as [R1 R2].
    rewrite <- (app_nil_r known).
    apply sourced_genStep; rewrite ?app_nil_r; assumption.
  - destruct (resumeAdvance_sourced known pe t now ans (svc c)
                (sourced_state _ _ K)) as [R1 R2].
    apply sourced_genStep; assumption.
  - apply pollBody_sourced; [exact K | apply Forall_delete, K].
  - destruct K as [[L P] Kt Kd]. unfold pollAfterGeneration.
    destruct (pendingResponse (svc c)) as [d |] eqn:Hd.
    + assert (S1 : sourcedState known (set_pendingResponse None (svc c)))
        by (split; [exact L | discriminate]).
      destruct (generateNextResponse_sourced known _ S1) as [G1 G2].
      destruct (generateNextResponse (set_pendingResponse None (svc c)))
        as [st g]. cbn [fst snd] in *.
      constructor; cbn [svc tasks].
      * exact G1.
      * apply Forall_app. split; [apply Forall_delete, Kt |].
        apply genTasks_sourced, G2.
      * rewrite delivered_line. apply Forall_app. split; [exact Kd |].
        constructor; [exact (P d eq_refl) | constructor].
    + cbn [fst snd]. constructor; cbn [svc tasks].
      * split; [exact L | rewrite Hd; discriminate].
      * rewrite app_nil_r. apply Forall_delete, Kt.
      * rewrite delivered_waiting. exact Kd.
Qed.

Lemma sourced_run (es : list Event) :
  forall known c0 c,
    Sourced known c0 -> run es c0 = Some c -> Sourced (known ++ arrivals es) c.
Proof.
  induction es as [| e es IH]; intros known c0 c K R; simpl in R.
  - injection R as <-. simpl. rewrite app_nil_r. exact K.
  - destruct (exec e c0) as [c1 |] eqn:E; [| discriminate].
    cbn [arrivals flat_map]. rewrite app_assoc.
    apply (IH _ c1); [| exact R].
    apply (sourced_step known c0 e c1 K). apply exec_Step, E.
Qed.

(** X25.  ConversationService with MoltbookService: whatever is called and
    in whatever order, a post that a turn handed out announces, and the
    post the service has locked, was given by MoltbookService in answer to
    a [getLatestPost()] or a [refresh()] of that schedule.  So while
    MoltbookService answers null, no turn announces a post. *)
Theorem announced_posts_come_from_moltbook (es : list Event) (c : Config) :
  run es fresh = Some c ->
  Forall (fun d => among (arrivals es) (newPost d)) (delivered c)
  /\ among (arrivals es) (getLockedPost (svc c))
  /\ (arrivals es = [] ->
      Forall (fun d => newPost d = None) (delivered c)
      /\ getLockedPost (svc c) = None).
Proof.
  intros R.
  assert (K0 : Sourced [] fresh).
  { constructor; [split; [exact I | discriminate] | constructor | constructor]. }
  pose proof (sourced_run es [] fresh c K0 R) as K. simpl in K.
  destruct K as [[L _] _ D].
  split; [exact D |]. split; [exact L |].
  intros E. rewrite E in D, L. split.
  - eapply Forall_impl; [exact D |]. intros d Hd. simpl in Hd.
    destruct (newPost d); [contradiction | reflexivity].
  - unfold getLockedPost in *. destruct (lockedPost (svc c));
      [contradiction | reflexivity].
Qed.

Lemma announced_posts_come_from_moltbook_witness :
  let es := startThen 1000 (Some postX) threeTurns in
  let c := default fresh (run es fresh) in
  run es fresh = Some c
  /\ Forall (fun d => among (arrivals es) (newPost d)) (delivered c)
  /\ among (arrivals es) (getLockedPost (svc c))
  /\ (arrivals es = [] ->
      Forall (fun d => newPost d = None) (delivered c)
      /\ getLockedPost (svc c) = None).
Proof.
  intros es c.
  assert (R : run es fresh = Some c) by (vm_compute; reflexivity).
  split; [exact R |].
  exact (announced_posts_come_from_moltbook es c R).
Defined.
